(** * nzbget-scripts: post-process-restorecon.py and post-process-restoremod.py

    A shallow embedding of the two NZBGet post-processing scripts and the
    properties stated about them.

    - [Py]: the pieces of Python the scripts rely on (str.format, str.rstrip,
      str.splitlines, str.upper, object equality, the exception classes).
    - [Posix]: the operating-system calls the scripts make, over an explicit
      state (file metadata by path, the process umask, the log of
      metadata-changing calls), and os.walk over an explicit directory tree.
    - [NZBGet]: the utilities the two scripts share word for word.
    - [Restoremod], [Restorecon]: the script-specific functions and the
      top-level code of each script. *)

From stdpp Require Import gmap strings list fin_maps.
From Stdlib Require Import ZArith Ascii String Permutation.

Set Warnings "-register-all".

Local Open Scope Z_scope.
Local Open Scope string_scope.

(** ** Python *)

Module Py.

(** A Python [str] is modelled as a [string], one [ascii] per character:
    characters above U+00FF are outside the model. *)

(** The double quote, which the messages of the scripts contain. *)
Definition dq : string := String (ascii_of_nat 34) EmptyString.

(** The values the scripts pass where the type matters at run time. *)
Inductive pyval :=
| PyNone
| PyInt (z : Z)
| PyStr (s : string)
| PyList (l : list pyval).

(** [a == b]: values of different types are never equal. *)
Fixpoint py_eq (a b : pyval) : bool :=
  match a, b with
  | PyNone, PyNone => true
  | PyInt x, PyInt y => Z.eqb x y
  | PyStr x, PyStr y => String.eqb x y
  | PyList x, PyList y =>
      (fix go (x y : list pyval) : bool :=
         match x, y with
         | [], [] => true
         | u :: x', v :: y' => py_eq u v && go x' y'
         | _, _ => false
         end) x y
  | _, _ => false
  end.

(** [a != b]. *)
Definition py_ne (a b : pyval) : bool := negb (py_eq a b).

(** Where the scripts pass a [str] or [None]: the truth value in a
    condition, and [str(v)]. *)
Definition truthy (v : option string) : bool :=
  match v with
  | None => false
  | Some s => negb (String.eqb s EmptyString)
  end.

Definition py_str (v : option string) : string :=
  match v with
  | None => "None"
  | Some s => s
  end.

(** [tmpl.format(a, b, ...)] for templates whose only replacement field is the
    automatically numbered [{}], which is all the scripts use, and arguments
    that are a [str] or [None]. Arguments beyond the fields are ignored, as in
    Python. (A field with no argument raises IndexError in Python; no call of
    the scripts has one, and here such a field is dropped.) *)
Fixpoint format (tmpl : string) (args : list (option string)) : string :=
  match tmpl with
  | EmptyString => EmptyString
  | String c rest =>
      match rest with
      | String c' rest' =>
          if (Ascii.eqb c "{" && Ascii.eqb c' "}")%bool then
            match args with
            | a :: args' => py_str a +:+ format rest' args'
            | [] => format rest' []
            end
          else String c (format rest args)
      | EmptyString => String c EmptyString
      end
  end.

(** [str.isspace] on one character (code points below 256). *)
Definition is_space (c : ascii) : bool :=
  let n := nat_of_ascii c in
  ((9 <=? n)%nat && (n <=? 13)%nat) || ((28 <=? n)%nat && (n <=? 32)%nat)
  || (n =? 133)%nat || (n =? 160)%nat.

(** [s.rstrip()]: trailing whitespace removed. *)
Fixpoint rstrip (s : string) : string :=
  match s with
  | EmptyString => EmptyString
  | String c rest =>
      match rstrip rest with
      | EmptyString => if is_space c then EmptyString else String c EmptyString
      | r => String c r
      end
  end.

(** The line boundaries of [str.splitlines] other than CR LF
    (code points below 256): LF, VT, FF, CR, FS, GS, RS, NEL. *)
Definition is_linebreak (c : ascii) : bool :=
  let n := nat_of_ascii c in
  ((10 <=? n)%nat && (n <=? 13)%nat) || ((28 <=? n)%nat && (n <=? 30)%nat)
  || (n =? 133)%nat.

(** [s.splitlines()]: the lines without their boundaries; CR LF is one
    boundary; a boundary at the very end opens no further line. *)
Fixpoint splitlines (s : string) : list string :=
  match s with
  | EmptyString => []
  | String c rest =>
      if is_linebreak c then
        match rest with
        | String c' rest' =>
            if ((nat_of_ascii c =? 13)%nat && (nat_of_ascii c' =? 10)%nat)%bool
            then EmptyString :: splitlines rest'
            else EmptyString :: splitlines rest
        | EmptyString => [EmptyString]
        end
      else
        match splitlines rest with
        | [] => [String c EmptyString]
        | l :: ls => String c l :: ls
        end
  end.

(** [s.upper()] on ASCII letters. *)
Definition upper_ascii (c : ascii) : ascii :=
  let n := nat_of_ascii c in
  if ((97 <=? n)%nat && (n <=? 122)%nat)%bool then ascii_of_nat (n - 32) else c.

Fixpoint upper (s : string) : string :=
  match s with
  | EmptyString => EmptyString
  | String c rest => String (upper_ascii c) (upper rest)
  end.

(** [needle in s]. *)
Fixpoint contains (needle s : string) : bool :=
  String.prefix needle s
  || match s with
     | EmptyString => false
     | String _ rest => contains needle rest
     end.

(** No character of [s] is a line boundary. *)
Fixpoint one_line (s : string) : bool :=
  match s with
  | EmptyString => true
  | String c rest => negb (is_linebreak c) && one_line rest
  end.

(** The exceptions that occur in a run of the scripts. [OSError errno] stands
    for an OSError that is none of its subclasses below (errno other than
    ENOENT, EPERM, EACCES). *)
Inductive exn :=
| FileNotFoundError
| PermissionError
| LabelNotFoundError
| OSError (errno : Z)
| KeyError
| TypeError
| AttributeError
| SystemExit (code : Z).

(** [except FileNotFoundError]. LabelNotFoundError derives from OSError, not
    from FileNotFoundError, and OSError's errno-to-subclass mapping applies
    only when OSError itself is instantiated. *)
Definition is_FileNotFoundError (e : exn) : bool :=
  match e with FileNotFoundError => true | _ => false end.

Definition is_PermissionError (e : exn) : bool :=
  match e with PermissionError => true | _ => false end.

Definition is_LabelNotFoundError (e : exn) : bool :=
  match e with LabelNotFoundError => true | _ => false end.

Definition is_KeyError (e : exn) : bool :=
  match e with KeyError => true | _ => false end.

(** [except Exception]: everything but SystemExit, which derives from
    BaseException directly. *)
Definition is_Exception (e : exn) : bool :=
  match e with SystemExit _ => false | _ => true end.

(** The exit status of the interpreter when [e] reaches the top level:
    the code of a SystemExit, 1 for any other exception (whose traceback goes
    to standard error). *)
Definition exit_status (e : exn) : Z :=
  match e with SystemExit code => code | _ => 1 end.

(** The result of running a piece of code: a value or a raised exception. *)
Inductive result (A : Type) :=
| Ok (a : A)
| Raise (e : exn).
Arguments Ok {A} a.
Arguments Raise {A} e.

(** Code over a mutable state [S]: effects made before an exception is raised
    stay. *)
Definition M (S A : Type) : Type := S -> S * result A.

Definition ret {S A} (a : A) : M S A := fun s => (s, Ok a).

Definition raise {S A} (e : exn) : M S A := fun s => (s, Raise e).

Definition bind {S A B} (m : M S A) (k : A -> M S B) : M S B :=
  fun s =>
    match m s with
    | (s', Ok a) => k a s'
    | (s', Raise e) => (s', Raise e)
    end.

(** [try: body except ...: handler]: [handler e] is [None] when no clause
    matches [e], which then propagates. *)
Definition try_except {S A} (body : M S A) (handler : exn -> option (M S A))
  : M S A :=
  fun s =>
    match body s with
    | (s', Ok a) => (s', Ok a)
    | (s', Raise e) =>
        match handler e with
        | Some h => h s'
        | None => (s', Raise e)
        end
    end.

(** [if c: body] with no else branch. *)
Definition when {S} (c : bool) (body : M S unit) : M S unit :=
  if c then body else ret tt.

(** [traceback.format_exception(etype, value, tb)] (Python 3.4 to 3.9) and
    [traceback.format_exception(exc, /, value, tb)] (from 3.10): in every
    version the first parameter is positional and has no default, so a call
    without arguments raises TypeError. With arguments the result is the list
    of the formatted lines; no call of the scripts gets there, and the model
    returns the empty list. *)
Definition traceback_format_exception {S} (args : list pyval) : M S pyval :=
  match args with
  | [] => raise TypeError
  | _ => ret (PyList [])
  end.

End Py.

Notation "x <- m ;; k" := (Py.bind m (fun x => k))
  (at level 90, m at level 80, right associativity).
Notation "m ;;; k" := (Py.bind m (fun _ => k))
  (at level 90, right associativity).

(** ** The operating system *)

Module Posix.
Import Py.

(** A number written in octal, as the source writes modes. *)
Definition octal (digits : string) : Z :=
  (fix go (s : string) (acc : Z) : Z :=
     match s with
     | EmptyString => acc
     | String c rest => go rest (8 * acc + (Z.of_nat (nat_of_ascii c) - 48))
     end) digits 0.

(** The constants of the [stat] module. *)
Definition S_IFMT : Z := Eval cbv in octal "170000".
Definition S_IFDIR : Z := Eval cbv in octal "040000".
Definition S_IFREG : Z := Eval cbv in octal "100000".
Definition S_IFLNK : Z := Eval cbv in octal "120000".
Definition S_ISUID : Z := Eval cbv in octal "4000".
Definition S_ISGID : Z := Eval cbv in octal "2000".
Definition S_ISVTX : Z := Eval cbv in octal "1000".
Definition o7777 : Z := Eval cbv in octal "7777".
Definition o0777 : Z := Eval cbv in octal "0777".
Definition o0666 : Z := Eval cbv in octal "0666".

Definition S_ISDIR (mode : Z) : bool := Z.eqb (Z.land mode S_IFMT) S_IFDIR.
Definition S_ISLNK (mode : Z) : bool := Z.eqb (Z.land mode S_IFMT) S_IFLNK.

(** [s.startswith("/")]. *)
Definition startswith_slash (s : string) : bool :=
  match s with
  | EmptyString => false
  | String c _ => Ascii.eqb c "/"
  end.

(** [s.endswith("/")]. *)
Fixpoint endswith_slash (s : string) : bool :=
  match s with
  | EmptyString => false
  | String c rest =>
      match rest with
      | EmptyString => Ascii.eqb c "/"
      | String _ _ => endswith_slash rest
      end
  end.

(** [os.path.join(a, b)] (posixpath). *)
Definition join (a b : string) : string :=
  if startswith_slash b then b
  else if (String.eqb a EmptyString || endswith_slash a)%bool
       then a +:+ b
       else a +:+ "/" +:+ b.

(** POSIX.1e access control lists, as pylibacl presents them. *)
Inductive acl_tag :=
| ACL_USER_OBJ | ACL_USER | ACL_GROUP_OBJ | ACL_GROUP | ACL_MASK | ACL_OTHER.

Record acl_entry := {
  tag_type : acl_tag;
  qualifier : string;   (* the user or group of an ACL_USER or ACL_GROUP entry *)
  acl_read : bool;
  acl_write : bool;
  acl_execute : bool
}.

Inductive acl_type := ACL_TYPE_ACCESS | ACL_TYPE_DEFAULT.

Definition acl_tag_eqb (a b : acl_tag) : bool :=
  match a, b with
  | ACL_USER_OBJ, ACL_USER_OBJ | ACL_USER, ACL_USER
  | ACL_GROUP_OBJ, ACL_GROUP_OBJ | ACL_GROUP, ACL_GROUP
  | ACL_MASK, ACL_MASK | ACL_OTHER, ACL_OTHER => true
  | _, _ => false
  end.

(** [str(acl)]: the long text form, one line per entry. *)
Definition acl_tag_text (t : acl_tag) : string :=
  match t with
  | ACL_USER_OBJ | ACL_USER => "user"
  | ACL_GROUP_OBJ | ACL_GROUP => "group"
  | ACL_MASK => "mask"
  | ACL_OTHER => "other"
  end.

Definition acl_entry_text (e : acl_entry) : string :=
  acl_tag_text (tag_type e) +:+ ":" +:+ qualifier e +:+ ":"
  +:+ (if acl_read e then "r" else "-")
  +:+ (if acl_write e then "w" else "-")
  +:+ (if acl_execute e then "x" else "-")
  +:+ String (ascii_of_nat 10) EmptyString.

Fixpoint acl_to_text (a : list acl_entry) : string :=
  match a with
  | [] => EmptyString
  | e :: rest => acl_entry_text e +:+ acl_to_text rest
  end.

(** What a path names. A symbolic link holds the path it resolves to. *)
Inductive kind :=
| Regular
| Directory
| Symlink (target : string).

(** The metadata of one file. [i_acl] is the stored access ACL (empty when
    the file has only its permission bits), [i_dacl] the default ACL of a
    directory, [i_context] the SELinux label, [i_owned] whether the process
    may change the file's metadata (it owns the file or is privileged). *)
Record inode := {
  i_kind : kind;
  i_perm : Z;
  i_acl : list acl_entry;
  i_dacl : list acl_entry;
  i_context : option string;
  i_owned : bool
}.

Definition ifmt (k : kind) : Z :=
  match k with
  | Regular => S_IFREG
  | Directory => S_IFDIR
  | Symlink _ => S_IFLNK
  end.

(** [st_mode]: the file type and the twelve permission bits. *)
Definition st_mode (ino : inode) : Z :=
  Z.lor (ifmt (i_kind ino)) (Z.land (i_perm ino) o7777).

(** The calls that change metadata, as the scripts issue them. *)
Inductive call :=
| Chmod (path : string) (mode : Z)
| AclSet (path : string) (type : acl_type) (a : list acl_entry)
| AclDeleteDefault (path : string)
| SetFileCon (path : string) (context : string).

(** The state the scripts act on: file metadata by path, whether the file
    system is mounted read-only, the umask of the process, and the
    metadata-changing calls issued so far (oldest first). *)
Record sys := {
  fs : gmap string inode;
  mounted_ro : bool;
  umask : Z;
  calls : list call
}.

Definition set_fs (s : sys) (f : gmap string inode) : sys :=
  {| fs := f; mounted_ro := mounted_ro s; umask := umask s; calls := calls s |}.

Definition set_umask (s : sys) (u : Z) : sys :=
  {| fs := fs s; mounted_ro := mounted_ro s; umask := u; calls := calls s |}.

Definition log_call (c : call) : M sys unit :=
  fun s => ({| fs := fs s; mounted_ro := mounted_ro s; umask := umask s;
               calls := calls s ++ [c] |}, Ok tt).

(** Path resolution that follows a symbolic link in the last component, up
    to the kernel's limit of 40 links. Errors: ENOENT, ELOOP (errno 40). *)
Fixpoint resolve (f : gmap string inode) (fuel : nat) (path : string)
  : result (string * inode) :=
  match f !! path with
  | None => Raise FileNotFoundError
  | Some ino =>
      match i_kind ino with
      | Symlink target =>
          match fuel with
          | O => Raise (OSError 40)
          | S n => resolve f n target
          end
      | _ => Ok (path, ino)
      end
  end.

Definition MAXSYMLINKS : nat := 40.

(** [os.lstat(path)[stat.ST_MODE]]. *)
Definition os_lstat_mode (path : string) : M sys Z :=
  fun s =>
    match fs s !! path with
    | Some ino => (s, Ok (st_mode ino))
    | None => (s, Raise FileNotFoundError)
    end.

(** [os.stat(path)[stat.ST_MODE]]. *)
Definition os_stat_mode (path : string) : M sys Z :=
  fun s =>
    match resolve (fs s) MAXSYMLINKS path with
    | Ok (_, ino) => (s, Ok (st_mode ino))
    | Raise e => (s, Raise e)
    end.

(** [os.path.islink], [os.path.isdir], [os.path.exists]: false on any error. *)
Definition os_path_islink (path : string) : M sys bool :=
  fun s =>
    match fs s !! path with
    | Some ino => (s, Ok (match i_kind ino with Symlink _ => true | _ => false end))
    | None => (s, Ok false)
    end.

Definition os_path_isdir (path : string) : M sys bool :=
  fun s =>
    match resolve (fs s) MAXSYMLINKS path with
    | Ok (_, ino) => (s, Ok (match i_kind ino with Directory => true | _ => false end))
    | Raise _ => (s, Ok false)
    end.

Definition os_path_exists (path : string) : M sys bool :=
  fun s =>
    match resolve (fs s) MAXSYMLINKS path with
    | Ok _ => (s, Ok true)
    | Raise _ => (s, Ok false)
    end.

(** [os.umask(mask)]: installs [mask & 0o777], returns the previous umask. *)
Definition os_umask (mask : Z) : M sys Z :=
  fun s => (set_umask s (Z.land mask o0777), Ok (umask s)).

(** A change of the metadata of the file [path] resolves to: refused on a
    read-only file system (EROFS, errno 30) and to a process that may not
    change the file (EPERM). *)
Definition change_inode (follow : bool) (path : string)
    (change : inode -> result inode) : M sys unit :=
  fun s =>
    match (if follow then resolve (fs s) MAXSYMLINKS path
           else match fs s !! path with
                | Some ino => Ok (path, ino)
                | None => Raise FileNotFoundError
                end) with
    | Raise e => (s, Raise e)
    | Ok (p, ino) =>
        if mounted_ro s then (s, Raise (OSError 30))
        else if negb (i_owned ino) then (s, Raise PermissionError)
        else match change ino with
             | Ok ino' => (set_fs s (<[p := ino']> (fs s)), Ok tt)
             | Raise e => (s, Raise e)
             end
    end.

Definition with_perm (ino : inode) (perm : Z) : inode :=
  {| i_kind := i_kind ino; i_perm := perm; i_acl := i_acl ino;
     i_dacl := i_dacl ino; i_context := i_context ino; i_owned := i_owned ino |}.

Definition with_acl (ino : inode) (a : list acl_entry) : inode :=
  {| i_kind := i_kind ino; i_perm := i_perm ino; i_acl := a;
     i_dacl := i_dacl ino; i_context := i_context ino; i_owned := i_owned ino |}.

Definition with_dacl (ino : inode) (a : list acl_entry) : inode :=
  {| i_kind := i_kind ino; i_perm := i_perm ino; i_acl := i_acl ino;
     i_dacl := a; i_context := i_context ino; i_owned := i_owned ino |}.

Definition with_context (ino : inode) (c : string) : inode :=
  {| i_kind := i_kind ino; i_perm := i_perm ino; i_acl := i_acl ino;
     i_dacl := i_dacl ino; i_context := Some c; i_owned := i_owned ino |}.

(** [os.chmod(path, mode)]: follows links; the kernel keeps the twelve
    permission bits of [mode] ([mode & 0o7777]). *)
Definition os_chmod (path : string) (mode : Z) : M sys unit :=
  log_call (Chmod path mode) ;;;
  change_inode true path (fun ino => Ok (with_perm ino (Z.land mode o7777))).

(** [posix1e.ACL(filedef=path)]: the default ACL of a directory (EACCES on
    anything else). *)
Definition acl_get_default (path : string) : M sys (list acl_entry) :=
  fun s =>
    match resolve (fs s) MAXSYMLINKS path with
    | Ok (_, ino) =>
        match i_kind ino with
        | Directory => (s, Ok (i_dacl ino))
        | _ => (s, Raise PermissionError)
        end
    | Raise e => (s, Raise e)
    end.

(** [acl.applyto(path, type)]: follows links; a default ACL goes on
    directories only (EACCES otherwise). The coupling of the access ACL with
    the group permission bits is not part of the model. *)
Definition acl_applyto (a : list acl_entry) (path : string) (type : acl_type)
  : M sys unit :=
  log_call (AclSet path type a) ;;;
  change_inode true path (fun ino =>
    match type with
    | ACL_TYPE_ACCESS => Ok (with_acl ino a)
    | ACL_TYPE_DEFAULT =>
        match i_kind ino with
        | Directory => Ok (with_dacl ino a)
        | _ => Raise PermissionError
        end
    end).

(** [posix1e.delete_default(path)]. *)
Definition acl_delete_default (path : string) : M sys unit :=
  log_call (AclDeleteDefault path) ;;;
  change_inode true path (fun ino => Ok (with_dacl ino [])).

Definition base_tag (t : acl_tag) : bool :=
  match t with
  | ACL_USER_OBJ | ACL_GROUP_OBJ | ACL_OTHER => true
  | _ => false
  end.

(** [posix1e.has_extended(path)]: an access ACL beyond the three base
    entries, or a default ACL. *)
Definition acl_has_extended (path : string) : M sys bool :=
  fun s =>
    match resolve (fs s) MAXSYMLINKS path with
    | Ok (_, ino) =>
        (s, Ok (existsb (fun e => negb (base_tag (tag_type e))) (i_acl ino)
                || match i_dacl ino with [] => false | _ => true end))
    | Raise e => (s, Raise e)
    end.

(** [selinux.lgetfilecon(path)]: the binding returns the pair
    [[length, context]], like [selinux.matchpathcon], whose result the source
    unpacks. An unlabelled file gives ENODATA (errno 61). *)
Definition selinux_lgetfilecon (path : string) : M sys pyval :=
  fun s =>
    match fs s !! path with
    | None => (s, Raise FileNotFoundError)
    | Some ino =>
        match i_context ino with
        | Some c => (s, Ok (PyList [PyInt (Z.of_nat (String.length c)); PyStr c]))
        | None => (s, Raise (OSError 61))
        end
    end.

(** [selinux.lsetfilecon(path, context)]: does not follow links. *)
Definition selinux_lsetfilecon (path context : string) : M sys unit :=
  log_call (SetFileCon path context) ;;;
  change_inode false path (fun ino => Ok (with_context ino context)).

(** [selinux.matchpathcon(path, mode)] over the loaded file-context
    specification [policy]: the pair [[status, context]], or ENOENT when no
    specification matches. *)
Definition selinux_matchpathcon (policy : string -> Z -> option string)
    (path : string) (mode : Z) : M sys pyval :=
  match policy path mode with
  | Some c => ret (PyList [PyInt 0; PyStr c])
  | None => raise FileNotFoundError
  end.

(** *** Directory trees and os.walk *)

(** What a directory holds, as [os.walk] tells entries apart: [File] is
    anything that is not a directory (regular files, links to them, broken
    links), [DirLink] a symbolic link to a directory, [Dir] a directory with
    its entries in the order the system lists them. [scan_error] is the text
    of the OSError that listing the directory raises, if it does. *)
Inductive node :=
| File (name : string)
| DirLink (name : string)
| Dir (name : string) (scan_error : option string) (entries : list node).

Definition name_of (n : node) : string :=
  match n with
  | File name | DirLink name | Dir name _ _ => name
  end.

(** [entry.is_dir()] follows links. *)
Definition is_dir_entry (n : node) : bool :=
  match n with
  | File _ => false
  | DirLink _ | Dir _ _ _ => true
  end.

Definition dirnames (entries : list node) : list string :=
  map name_of (filter (fun n => is_dir_entry n = true) entries).

Definition filenames (entries : list node) : list string :=
  map name_of (filter (fun n => is_dir_entry n = false) entries).

(** What the generator [os.walk] produces, in order: the triples it yields
    and the errors it passes to [onerror]. *)
Inductive walk_item :=
| Triple (dirpath : string) (dirnames filenames : list string)
| WalkError (error : string).

(** The walk of one entry of the directory [dirpath]: [os.walk] recurses
    into the names of [dirs] that are not links. *)
Fixpoint walk_entry (dirpath : string) (n : node) : list walk_item :=
  match n with
  | Dir name scan_error entries =>
      let top := join dirpath name in
      match scan_error with
      | Some error => [WalkError error]
      | None =>
          Triple top (dirnames entries) (filenames entries)
          :: flat_map (walk_entry top) entries
      end
  | File _ | DirLink _ => []
  end.

(** [os.walk(top, onerror=onerror)] (top-down, links not followed) on a
    directory [top] that lists as [entries], or fails to list. *)
Definition os_walk (top : string) (scan_error : option string)
    (entries : list node) : list walk_item :=
  match scan_error with
  | Some error => [WalkError error]
  | None =>
      Triple top (dirnames entries) (filenames entries)
      :: flat_map (walk_entry top) entries
  end.

End Posix.

(** ** The utilities both scripts define *)

Module NZBGet.
Import Py Posix.

Inductive NZBGetPostProcessExitCode := parcheck | success | failure | none.

Definition value (code : NZBGetPostProcessExitCode) : Z :=
  match code with
  | parcheck => 92
  | success => 93
  | failure => 94
  | none => 95
  end.

Inductive NZBGetLogLevel := detail | info | warning | error.

Definition name (level : NZBGetLogLevel) : string :=
  match level with
  | detail => "detail"
  | info => "info"
  | warning => "warning"
  | error => "error"
  end.

(** What a run depends on and does not change: the environment NZBGet
    passes, path canonicalisation, the directory tree found at a path (as
    [os.walk] sees it: whether listing the path fails, and its entries), the
    capabilities pylibacl was built with, and the SELinux file contexts. *)
Record config := {
  environ : gmap string string;
  realpath : string -> string;
  expanduser : string -> string;
  tree : string -> option string * list node;
  HAS_ACL_ENTRY : bool;
  HAS_EXTENDED_CHECK : bool;
  policy : string -> Z -> option string
}.

(** The state of a running script: the system, the lines printed so far,
    and (a ghost of the model, no variable of the scripts) the calls of the
    per-path operation made so far, each with its result. *)
Record proc := {
  world : sys;
  stdout : list string;
  applied : list (string * result unit)
}.

(** A system call made by the script. *)
Definition lift {A} (m : M sys A) : M proc A :=
  fun p =>
    match m (world p) with
    | (w, r) => ({| world := w; stdout := stdout p; applied := applied p |}, r)
    end.

(** [print(line)]. *)
Definition print (line : string) : M proc unit :=
  fun p => ({| world := world p; stdout := stdout p ++ [line];
               applied := applied p |}, Ok tt).

Fixpoint print_all (lines : list string) : M proc unit :=
  match lines with
  | [] => ret tt
  | line :: rest => print line ;;; print_all rest
  end.

(** The lines [nzbget_log(level, message, prefix)] prints for a [str]. *)
Definition log_lines (level : NZBGetLogLevel) (message prefix : string)
  : list string :=
  map (fun line =>
         format "[{}] {}{}" [Some (upper (name level)); Some prefix; Some line])
      (splitlines (rstrip message)).

(** [nzbget_log]: only a [str] has [rstrip]. *)
Definition nzbget_log (level : NZBGetLogLevel) (message : pyval)
    (prefix : string) : M proc unit :=
  match message with
  | PyStr s => print_all (log_lines level s prefix)
  | _ => raise AttributeError
  end.

(** [nzbget_exit]: [sys.exit(code.value)] raises SystemExit. *)
Definition nzbget_exit {A} (code : NZBGetPostProcessExitCode) : M proc A :=
  raise (SystemExit (value code)).

(** [os.environ[key]]. *)
Definition os_environ (cfg : config) (key : string) : M proc string :=
  match environ cfg !! key with
  | Some v => ret v
  | None => raise KeyError
  end.

(** The message of [nzbget_variable]. A conditional expression binds weaker
    than [+], so the source's expression reads
    [(a + b) if version else (c + d)]. *)
Definition nzbget_variable_msg (version : option string) : string :=
  if truthy version
  then ("Variable " +:+ dq +:+ "{}" +:+ dq +:+ " required")
       +:+ ", please upgrade NZBGet to version {} or later"
  else EmptyString +:+ ".".

Definition nzbget_variable (cfg : config) (key : string)
    (version : option string)
  : M proc string :=
  try_except (os_environ cfg key)
    (fun e =>
       if is_KeyError e then
         Some (let msg := nzbget_variable_msg version in
               nzbget_log error (PyStr (format msg [Some key; version])) EmptyString ;;;
               nzbget_exit failure)
       else None).

(** What the loop over [descendants] meets, in order: a yielded path, or a
    call of [onerror] made by [os.walk] while the generator advances. *)
Inductive event :=
| Yield (path : string)
| OnError (err : string).

Definition item_events (item : walk_item) : list event :=
  match item with
  | Triple dirpath dirnames filenames =>
      map (fun name => Yield (join dirpath name)) (dirnames ++ filenames)
  | WalkError err => [OnError err]
  end.

(** [descendants(path, onerror)] on a [path] whose listing fails with
    [scan_error] or gives [entries]. *)
Definition descendants (path : string) (scan_error : option string)
    (entries : list node) : list event :=
  Yield path :: flat_map item_events (os_walk path scan_error entries).

(** The paths [descendants] yields. *)
Definition yielded (events : list event) : list string :=
  flat_map (fun ev => match ev with Yield p => [p] | OnError _ => [] end) events.

Definition descendants_handler (error_text : string) : M proc unit :=
  let msg := "Error while iterating over filesystem: {}" in
  nzbget_log warning (PyStr (format msg [Some error_text])) EmptyString.

(** [for path in descendants(directory, descendants_handler): body]. *)
Fixpoint for_path_in (events : list event) (body : string -> M proc unit)
  : M proc unit :=
  match events with
  | [] => ret tt
  | Yield path :: rest => body path ;;; for_path_in rest body
  | OnError error_text :: rest =>
      descendants_handler error_text ;;; for_path_in rest body
  end.

(** The call of the per-path operation inside the [try], recorded in
    [applied]. *)
Definition call_restore (restore : string -> M sys unit) (path : string)
  : M proc unit :=
  fun p =>
    match restore path (world p) with
    | (w, r) =>
        ({| world := w; stdout := stdout p; applied := applied p ++ [(path, r)] |}, r)
    end.

(** The three messages of the [except] clauses. *)
Definition msg_not_found : string :=
  "Expected path " +:+ dq +:+ "{}" +:+ dq +:+ " does not exist, aborting.".
Definition msg_denied : string :=
  "Permission denied for " +:+ dq +:+ "{}" +:+ dq +:+ ", skipping.".
Definition msg_unhandled : string := "Unhandled exception, aborting:".

(** The clause [except Exception:] of both scripts. *)
Definition unhandled : M proc unit :=
  let msg := msg_unhandled in
  tb <- traceback_format_exception [] ;;
  nzbget_log error (PyStr msg) EmptyString ;;;
  nzbget_log error tb "  " ;;;
  nzbget_exit failure.

(** How a run ends: the exit status of the interpreter. A script that ran
    off its end would exit with 0. *)
Definition status_of (r : result unit) : Z :=
  match r with
  | Ok _ => 0
  | Raise e => exit_status e
  end.

Definition start (w : sys) : proc := {| world := w; stdout := []; applied := [] |}.

End NZBGet.

(** ** post-process-restoremod.py *)

Module Restoremod.
Import Py Posix NZBGet.

Definition umask_get : M sys Z :=
  umask_current <- os_umask 0 ;;
  os_umask umask_current ;;;
  ret (Z.land umask_current o0777).

Definition parent_path (path : string) : string := join path "..".

Definition acl_has_mask (acl : list acl_entry) : bool :=
  existsb (fun entry => acl_tag_eqb (tag_type entry) ACL_MASK) acl.

(** [restoremode(path, followlinks=True, mask=None)]. *)
Definition restoremode (path : string) (followlinks : bool) (mask : option Z)
  : M sys unit :=
  let mask_mask := Z.lor S_ISUID S_ISGID in
  let mask :=
    match mask with
    | None => mask_mask
    | Some mask => Z.land mask mask_mask
    end in
  mode_stat <- os_lstat_mode path ;;
  if (S_ISLNK mode_stat && negb followlinks)%bool then ret tt
  else
    mode_stat <- os_stat_mode path ;;
    umask <- umask_get ;;
    let mode_perm :=
      if S_ISDIR mode_stat then
        let mode_attr := Z.land mode_stat mask in
        Z.lor (o0777 - umask) mode_attr
      else o0666 - umask in
    os_chmod path mode_perm.

(** [restoreattr(path, followlinks=True, mask=None)]. *)
Definition restoreattr (path : string) (followlinks : bool) (mask : option Z)
  : M sys unit :=
  let mask_attr := Z.lor (Z.lor S_ISUID S_ISGID) S_ISVTX in
  let mask_excl :=
    match mask with
    | None => S_ISGID
    | Some mask => Z.land mask mask_attr
    end in
  mode_stat <- os_lstat_mode path ;;
  if (S_ISLNK mode_stat && negb followlinks)%bool then ret tt
  else
    mode_stat <- os_stat_mode path ;;
    let mode_perm :=
      if S_ISDIR mode_stat
      then Z.land mode_stat (Z.lnot (Z.land mask_attr (Z.lnot mask_excl)))
      else Z.land mode_stat (Z.lnot mask_attr) in
    let mode_perm := Z.land o7777 mode_perm in
    if negb (Z.eqb mode_perm (Z.land mode_stat o7777))
    then os_chmod path mode_perm
    else ret tt.

(** [inheritattr(mode, path, mask=None)]. *)
Definition inheritattr (mode : Z) (path : string) (mask : option Z)
  : M sys unit :=
  let mask_attr := Z.lor (Z.lor S_ISUID S_ISGID) S_ISVTX in
  let mask_incl :=
    match mask with
    | None => S_ISGID
    | Some mask => Z.land mask mask_attr
    end in
  mode_stat <- os_lstat_mode path ;;
  if negb (S_ISDIR mode_stat) then ret tt
  else
    let mode_perm :=
      Z.lor (Z.land mode_stat (Z.lnot mask_incl)) (Z.land mode mask_incl) in
    let mode_perm := Z.land o7777 mode_perm in
    if negb (Z.eqb mode_perm (Z.land mode_stat o7777))
    then os_chmod path mode_perm
    else ret tt.

(** [entry.permset.delete(posix1e.ACL_EXECUTE)]. *)
Definition delete_execute (entry : acl_entry) : acl_entry :=
  {| tag_type := tag_type entry; qualifier := qualifier entry;
     acl_read := acl_read entry; acl_write := acl_write entry;
     acl_execute := false |}.

(** [inheritdacl(acl, path)]; the copy [posix1e.ACL(acl=acl)] is the value
    itself. *)
Definition inheritdacl (acl : list acl_entry) (path : string) : M sys unit :=
  let acl_masked_entries := [ACL_USER; ACL_GROUP_OBJ; ACL_GROUP] in
  mode_stat <- os_lstat_mode path ;;
  if S_ISLNK mode_stat then ret tt
  else
    let acl_masked := acl_has_mask acl in
    let acl :=
      if negb (S_ISDIR mode_stat) then
        map (fun entry =>
               if (negb (existsb (acl_tag_eqb (tag_type entry)) acl_masked_entries)
                   || negb acl_masked)%bool
               then delete_execute entry
               else entry) acl
      else acl in
    acl_applyto acl path ACL_TYPE_ACCESS ;;;
    when (S_ISDIR mode_stat) (acl_applyto acl path ACL_TYPE_DEFAULT).

(** [discardeacl(path, followlinks=True)]. *)
Definition discardeacl (cfg : config) (path : string) (followlinks : bool)
  : M sys unit :=
  islink <- os_path_islink path ;;
  if (islink && negb followlinks)%bool then ret tt
  else
    unextended <-
      (if HAS_EXTENDED_CHECK cfg
       then (extended <- acl_has_extended path ;; ret (negb extended))
       else ret false) ;;
    if (unextended : bool) then ret tt
    else
      let acl := [] in
      acl_applyto acl path ACL_TYPE_ACCESS ;;;
      acl_delete_default path.

Definition restore_from_ps (cfg : config) (mode : Z) (path : string)
  : M sys unit :=
  restoremode path false (Some S_ISGID) ;;;
  inheritattr mode path None ;;;
  discardeacl cfg path false.

Definition restore_from_fs (acl : list acl_entry) (mode : Z) (path : string)
  : M sys unit :=
  restoreattr path false None ;;;
  inheritattr mode path None ;;;
  inheritdacl acl path.

(** The [except] clauses of the loop, in the order of the source. *)
Definition on_exception (path : string) (e : exn) : option (M proc unit) :=
  if is_FileNotFoundError e then
    Some (nzbget_log error (PyStr (format msg_not_found [Some path])) EmptyString ;;;
          nzbget_exit failure)
  else if is_PermissionError e then
    Some (nzbget_log warning (PyStr (format msg_denied [Some path])) EmptyString)
  else if is_Exception e then Some unhandled
  else None.

Definition msg_status : string := "Download failed with status {}, skipping.".
Definition msg_nothing : string :=
  "Nothing to post-process, destination directory " +:+ dq +:+ "{}" +:+ dq
  +:+ " doesn't exist.".
Definition msg_no_acl_entry : string :=
  "Unable to alter ACLs: detected default ACL on " +:+ dq +:+ "{}" +:+ dq.
Definition msg_fs : string :=
  "Using default ACL to restore permissions of " +:+ dq +:+ "{}" +:+ dq.
Definition msg_ps : string :=
  "Using process umask to restore permissions of " +:+ dq +:+ "{}" +:+ dq.

(** The [try] statement in the loop. *)
Definition attempt (restore_permissions : string -> M sys unit) (path : string)
  : M proc unit :=
  try_except (call_restore restore_permissions path) (on_exception path).

(** The loop and the final exit. *)
Definition walk (cfg : config) (directory : string)
    (restore_permissions : string -> M sys unit) : M proc unit :=
  for_path_in
    (descendants directory (fst (tree cfg directory)) (snd (tree cfg directory)))
    (attempt restore_permissions) ;;;
  nzbget_exit success.

(** The choice of the mode, from the resolved directory on. *)
Definition choose (cfg : config) (directory : string)
  : M proc (string -> M sys unit) :=
  directory_dacl <- lift (acl_get_default directory) ;;
  directory_mode <- lift (os_stat_mode directory) ;;
  if truthy (Some (acl_to_text directory_dacl)) then
    let restore_permissions := restore_from_fs directory_dacl directory_mode in
    when (negb (HAS_ACL_ENTRY cfg))
      (nzbget_log error (PyStr (format msg_no_acl_entry [Some directory]))
         EmptyString ;;;
       nzbget_exit failure) ;;;
    nzbget_log info (PyStr (format msg_fs [Some directory])) EmptyString ;;;
    ret restore_permissions
  else
    let restore_permissions := restore_from_ps cfg directory_mode in
    nzbget_log info (PyStr (format msg_ps [Some directory])) EmptyString ;;;
    ret restore_permissions.

(** The script, top to bottom. *)
Definition script (cfg : config) : M proc unit :=
  status <- nzbget_variable cfg "NZBPP_TOTALSTATUS" (Some "13.0") ;;
  when (negb (String.eqb status "SUCCESS"))
    (nzbget_log info (PyStr (format msg_status [Some status])) EmptyString ;;;
     nzbget_exit none) ;;;
  directory <- nzbget_variable cfg "NZBPP_DIRECTORY" None ;;
  isdir <- lift (os_path_isdir directory) ;;
  when (negb isdir)
    (nzbget_log info (PyStr (format msg_nothing [Some directory])) EmptyString ;;;
     nzbget_exit none) ;;;
  let directory := realpath cfg directory in
  restore_permissions <- choose cfg directory ;;
  walk cfg directory restore_permissions.

End Restoremod.

(** ** post-process-restorecon.py *)

Module Restorecon.
Import Py Posix NZBGet.

(** [matchpathcon(path, mode)]: the wrapper of the script. *)
Definition matchpathcon (cfg : config) (path : string) (mode : Z)
  : M sys string :=
  try_except
    (r <- selinux_matchpathcon (policy cfg) path mode ;;
     match r with
     | PyList [_status; PyStr context] => ret context
     | _ => raise TypeError
     end)
    (fun e =>
       if is_FileNotFoundError e then
         Some (exists_ <- os_path_exists path ;;
               if (exists_ : bool) then raise LabelNotFoundError
               else raise FileNotFoundError)
       else None).

Definition lsetfilecon (path context : string) : M sys unit :=
  selinux_lsetfilecon path context.

(** [restorecon_single(path)]. *)
Definition restorecon_single (cfg : config) (path : string) : M sys unit :=
  pm <- try_except
          (mode <- os_lstat_mode path ;; ret (path, mode))
          (fun e =>
             if is_FileNotFoundError e then
               Some (let path := realpath cfg (expanduser cfg path) in
                     mode <- os_lstat_mode path ;; ret (path, mode))
             else None) ;;
  let path := fst pm in
  let mode := snd pm in
  context_default <- matchpathcon cfg path mode ;;
  context_old <- selinux_lgetfilecon path ;;
  if py_ne context_old (PyStr context_default)
  then lsetfilecon path context_default
  else ret tt.

Definition msg_no_label : string :=
  "No default SELinux context for " +:+ dq +:+ "{}" +:+ dq +:+ ", skipping.".
Definition msg_status : string := "Download failed with status {}, skipping.".
Definition msg_nothing : string :=
  "Nothing to post-process, destination " +:+ dq +:+ "{}" +:+ dq
  +:+ " doesn't exist.".

(** The [except] clauses of the loop, in the order of the source. *)
Definition on_exception (path : string) (e : exn) : option (M proc unit) :=
  if is_FileNotFoundError e then
    Some (nzbget_log error (PyStr (format msg_not_found [Some path])) EmptyString ;;;
          nzbget_exit failure)
  else if is_LabelNotFoundError e then
    Some (nzbget_log warning (PyStr (format msg_no_label [Some path])) EmptyString)
  else if is_PermissionError e then
    Some (nzbget_log warning (PyStr (format msg_denied [Some path])) EmptyString)
  else if is_Exception e then Some unhandled
  else None.

(** The [try] statement in the loop. *)
Definition attempt (cfg : config) (path : string) : M proc unit :=
  try_except (call_restore (restorecon_single cfg) path) (on_exception path).

(** The loop and the final exit. *)
Definition walk (cfg : config) (directory : string) : M proc unit :=
  for_path_in
    (descendants directory (fst (tree cfg directory)) (snd (tree cfg directory)))
    (attempt cfg) ;;;
  nzbget_exit success.

(** The script, top to bottom. *)
Definition script (cfg : config) : M proc unit :=
  status <- nzbget_variable cfg "NZBPP_TOTALSTATUS" (Some "13.0") ;;
  when (negb (String.eqb status "SUCCESS"))
    (nzbget_log info (PyStr (format msg_status [Some status])) EmptyString ;;;
     nzbget_exit none) ;;;
  directory <- nzbget_variable cfg "NZBPP_DIRECTORY" None ;;
  exists_ <- lift (os_path_exists directory) ;;
  when (negb exists_)
    (nzbget_log info (PyStr (format msg_nothing [Some directory])) EmptyString ;;;
     nzbget_exit none) ;;;
  walk cfg directory.

End Restorecon.

(** ** Notions the properties are stated with *)

Module Props.
Import Py Posix NZBGet.

(** The state after [lines] were printed. *)
Definition add_lines (p : proc) (lines : list string) : proc :=
  {| world := world p; stdout := stdout p ++ lines; applied := applied p |}.

(** A name a directory entry can have: not empty, no slash. *)
Fixpoint no_slash (s : string) : bool :=
  match s with
  | EmptyString => true
  | String c rest => negb (Ascii.eqb c "/") && no_slash rest
  end.

Definition valid_name (s : string) : bool :=
  negb (String.eqb s EmptyString) && no_slash s.

(** A tree as a file system holds it: valid names, no name twice in one
    directory. *)
Fixpoint wf_node (n : node) : bool :=
  valid_name (name_of n)
  && match n with
     | Dir _ _ entries =>
         bool_decide (NoDup (map name_of entries)) && forallb wf_node entries
     | File _ | DirLink _ => true
     end.

Definition wf_entries (entries : list node) : bool :=
  bool_decide (NoDup (map name_of entries)) && forallb wf_node entries.

(** What [join] puts before a valid name. *)
Definition lead (dirpath : string) : string :=
  if (String.eqb dirpath EmptyString || endswith_slash dirpath)%bool
  then dirpath else dirpath +:+ "/".

(** A text that is empty or starts with a slash: what follows a name in a
    longer path. *)
Definition rest_of_path (r : string) : Prop :=
  r = EmptyString \/ startswith_slash r = true.

(** Every directory of the tree can be listed. *)
Fixpoint listable (n : node) : bool :=
  match n with
  | Dir _ scan_error entries =>
      match scan_error with
      | None => forallb listable entries
      | Some _ => false
      end
  | File _ | DirLink _ => true
  end.

(** The path of the entry [n] of [dirpath] and of everything below it. *)
Fixpoint below (dirpath : string) (n : node) : list string :=
  join dirpath (name_of n)
  :: match n with
     | Dir name _ entries => flat_map (below (join dirpath name)) entries
     | File _ | DirLink _ => []
     end.

(** Every directory and file strictly below [top]. *)
Definition strictly_below (top : string) (entries : list node) : list string :=
  flat_map (below top) entries.

(** The same, leaving out what lies below a directory that cannot be
    listed. *)
Fixpoint reachable (dirpath : string) (n : node) : list string :=
  join dirpath (name_of n)
  :: match n with
     | Dir name None entries => flat_map (reachable (join dirpath name)) entries
     | Dir _ (Some _) _ | File _ | DirLink _ => []
     end.

Definition reachable_below (top : string) (entries : list node) : list string :=
  flat_map (reachable top) entries.

(** The paths a list of walk items makes [descendants] yield. *)
Definition item_paths (items : list walk_item) : list string :=
  yielded (flat_map item_events items).

(** Reading the items of a walk in order, every directory [os.walk] reports
    is among the paths yielded before ([seen] at the start). *)
Fixpoint dirs_seen_first (seen : list string) (items : list walk_item) : Prop :=
  match items with
  | [] => True
  | Triple dirpath dirnames filenames :: rest =>
      In dirpath seen
      /\ dirs_seen_first (seen ++ map (join dirpath) (dirnames ++ filenames)) rest
  | WalkError _ :: rest => dirs_seen_first seen rest
  end.

(** A run that skips the job: it prints [info] lines, at least one, exits
    with the code of [none], and leaves the system and the record of the
    per-path calls as they were. *)
Definition skipped (p : proc) (run : proc * result unit) : Prop :=
  exists lines,
    lines <> []
    /\ Forall (fun line => String.prefix "[INFO] " line = true) lines
    /\ run = (add_lines p lines, Raise (SystemExit 95)).

(** The state after the per-path operation on [path] left the system as [w]
    with the result [r], and [lines] were printed. *)
Definition after_call (p : proc) (w : sys) (path : string) (r : result unit)
    (lines : list string) : proc :=
  {| world := w; stdout := stdout p ++ lines; applied := applied p ++ [(path, r)] |}.

(** The results of the per-path operation that a run goes on after. *)
Definition tolerated (r : result unit) : Prop :=
  r = Ok tt \/ r = Raise PermissionError.

(** [path] names the file [ino], no link, whose metadata the process may
    change: it owns the file and the file system is not read-only. *)
Definition changeable (s : sys) (path : string) (ino : inode) : Prop :=
  fs s !! path = Some ino
  /\ (forall target, i_kind ino <> Symlink target)
  /\ mounted_ro s = false
  /\ i_owned ino = true.

(** The state after a metadata-changing call [c] that made [path] name
    [ino]. *)
Definition changed (s : sys) (path : string) (ino : inode) (c : call) : sys :=
  {| fs := <[path := ino]> (fs s); mounted_ro := mounted_ro s;
     umask := umask s; calls := calls s ++ [c] |}.

(** From [s] to [s'] nothing changed for any path but [path], and [path]
    names a file of the same kind and owner as before, if any; the umask, in
    the nine bits the kernel keeps of it, is the same. *)
Definition only_at (path : string) (s s' : sys) : Prop :=
  (forall q, q <> path -> fs s' !! q = fs s !! q)
  /\ (i_kind <$> fs s' !! path) = (i_kind <$> fs s !! path)
  /\ (i_owned <$> fs s' !! path) = (i_owned <$> fs s !! path)
  /\ mounted_ro s' = mounted_ro s
  /\ Z.land (umask s') o0777 = Z.land (umask s) o0777.

(** [path] names no symbolic link in [s]. *)
Definition no_link (path : string) (s : sys) : Prop :=
  forall ino target, fs s !! path = Some ino -> i_kind ino <> Symlink target.

(** Code that, where [path] names no symbolic link, changes no file but the
    one [path] names. *)
Definition confined_to {A} (path : string) (m : M sys A) : Prop :=
  forall s, no_link path s -> only_at path s (fst (m s)).

(** The file [restorecon_single(path)] works on: [path] if it exists, else
    its canonical form. *)
Definition relabelled (cfg : config) (s : sys) (path : string) : string :=
  match fs s !! path with
  | Some _ => path
  | None => realpath cfg (expanduser cfg path)
  end.

(** Code over the system that raises no SystemExit. *)
Definition raises_no_exit {A} (m : M sys A) : Prop :=
  forall s e, snd (m s) = Raise e -> is_Exception e = true.

(** The events of a walk without the calls of [onerror]. *)
Definition yields_only (events : list event) : list event :=
  map Yield (yielded events).

(** The exit statuses a run of the scripts can end with. *)
Definition final_status (z : Z) : Prop :=
  z = 1 \/ z = 93 \/ z = 94 \/ z = 95.

(** Code of the scripts that, when it raises, ends the run with one of the
    final statuses. *)
Definition ends_with_final_status {A} (m : M proc A) : Prop :=
  forall p e, snd (m p) = Raise e -> final_status (exit_status e).

End Props.

(** ** Sample runs *)

Module Sample.
Import Py Posix NZBGet.

Definition regular (perm : Z) : inode :=
  {| i_kind := Regular; i_perm := perm; i_acl := []; i_dacl := [];
     i_context := Some "system_u:object_r:public_content_t:s0";
     i_owned := true |}.

Definition directory (perm : Z) (dacl : list acl_entry) : inode :=
  {| i_kind := Directory; i_perm := perm; i_acl := []; i_dacl := dacl;
     i_context := Some "system_u:object_r:public_content_t:s0";
     i_owned := true |}.

Definition link (target : string) : inode :=
  {| i_kind := Symlink target; i_perm := octal "0777"; i_acl := []; i_dacl := [];
     i_context := Some "system_u:object_r:public_content_t:s0";
     i_owned := true |}.

Definition not_owned (ino : inode) : inode :=
  {| i_kind := i_kind ino; i_perm := i_perm ino; i_acl := i_acl ino;
     i_dacl := i_dacl ino; i_context := i_context ino; i_owned := false |}.

Definition unlabelled (ino : inode) : inode :=
  {| i_kind := i_kind ino; i_perm := i_perm ino; i_acl := i_acl ino;
     i_dacl := i_dacl ino; i_context := None; i_owned := i_owned ino |}.

(** A default ACL: user::rwx, group::r-x, other::r-x. *)
Definition dacl_755 : list acl_entry :=
  [ {| tag_type := ACL_USER_OBJ; qualifier := EmptyString;
       acl_read := true; acl_write := true; acl_execute := true |};
    {| tag_type := ACL_GROUP_OBJ; qualifier := EmptyString;
       acl_read := true; acl_write := false; acl_execute := true |};
    {| tag_type := ACL_OTHER; qualifier := EmptyString;
       acl_read := true; acl_write := false; acl_execute := true |} ].

(** The job directory /dl/job with a file, a link and a subdirectory. *)
Definition files (top : inode) (f : inode) : gmap string inode :=
  <["/dl/job" := top]>
  (<["/dl/job/sub" := directory (octal "0755") []]>
  (<["/dl/job/a.mkv" := f]>
  (<["/dl/job/latest" := link "/dl/job/a.mkv"]>
  (<["/dl/job/sub/b.nfo" := regular (octal "0644")]> ∅)))).

Definition system (top f : inode) (ro : bool) (mask : Z) : sys :=
  {| fs := files top f; mounted_ro := ro; umask := mask; calls := [] |}.

(** The job directory as NZBGet leaves it (setgid directory, mode 0o2755),
    under the umasks 0o022 and 0o077. *)
Definition system_022 : sys :=
  system (directory (octal "2755") []) (regular (octal "0777")) false (octal "022").

Definition system_077 : sys :=
  system (directory (octal "2755") []) (regular (octal "0777")) false (octal "077").

(** The same with the file a.mkv owned by someone else, and with a
    directory the process cannot relabel. *)
Definition system_foreign : sys :=
  system (directory (octal "2755") []) (not_owned (regular (octal "0777")))
    false (octal "022").

(** The same on a file system mounted read-only, and with a job directory
    that carries no SELinux label. *)
Definition system_readonly : sys :=
  system (directory (octal "2755") []) (regular (octal "0777")) true (octal "022").

Definition system_unlabelled : sys :=
  system (unlabelled (directory (octal "2755") [])) (regular (octal "0777"))
    false (octal "022").

(** The same with a default ACL on the job directory. *)
Definition system_dacl : sys :=
  system (directory (octal "2755") dacl_755) (regular (octal "0777")) false
    (octal "022").

(** The same with a setuid file, under the umask 0o022. *)
Definition system_setuid : sys :=
  system (directory (octal "2755") dacl_755) (regular (octal "4755")) false
    (octal "022").

Definition entries : list node :=
  [File "a.mkv"; Dir "sub" None [File "b.nfo"]; File "latest"].

(** The same tree when listing /dl/job/sub is refused. *)
Definition entries_unlisted : list node :=
  [File "a.mkv";
   Dir "sub" (Some "[Errno 13] Permission denied: '/dl/job/sub'") [File "b.nfo"];
   File "latest"].

Definition setup (env : gmap string string) (has_acl_entry : bool) : config :=
  {| environ := env;
     realpath := fun p => p;
     expanduser := fun p => p;
     tree := fun _ => (None, entries);
     HAS_ACL_ENTRY := has_acl_entry;
     HAS_EXTENDED_CHECK := true;
     policy := fun _ _ => Some "system_u:object_r:public_content_t:s0" |}.

(** The same setups with a policy that has no context for any path, and
    with one that has another context. *)
Definition setup_no_policy : config :=
  {| environ := <["NZBPP_TOTALSTATUS" := "SUCCESS"]>
                  (<["NZBPP_DIRECTORY" := "/dl/job"]> ∅);
     realpath := fun p => p;
     expanduser := fun p => p;
     tree := fun _ => (None, entries);
     HAS_ACL_ENTRY := true;
     HAS_EXTENDED_CHECK := true;
     policy := fun _ _ => None |}.

Definition setup_other_context : config :=
  {| environ := <["NZBPP_TOTALSTATUS" := "SUCCESS"]>
                  (<["NZBPP_DIRECTORY" := "/dl/job"]> ∅);
     realpath := fun p => p;
     expanduser := fun p => p;
     tree := fun _ => (None, entries);
     HAS_ACL_ENTRY := true;
     HAS_EXTENDED_CHECK := true;
     policy := fun _ _ => Some "system_u:object_r:user_home_t:s0" |}.

Definition env_ok : gmap string string :=
  <["NZBPP_TOTALSTATUS" := "SUCCESS"]> (<["NZBPP_DIRECTORY" := "/dl/job"]> ∅).

Definition env_failed : gmap string string :=
  <["NZBPP_TOTALSTATUS" := "FAILURE/PAR"]> (<["NZBPP_DIRECTORY" := "/dl/job"]> ∅).

Definition env_gone : gmap string string :=
  <["NZBPP_TOTALSTATUS" := "SUCCESS"]> (<["NZBPP_DIRECTORY" := "/dl/gone"]> ∅).

Definition env_no_directory : gmap string string :=
  <["NZBPP_TOTALSTATUS" := "SUCCESS"]> ∅.

(** The mode word of the job directory: a directory, setgid, 0o755. *)
Definition job_mode : Z := Eval cbv in octal "042755".

End Sample.

(** * Properties *)

Import Py Posix NZBGet Props.

#[local] Arguments String.append !_ _ / : simpl nomatch.

Local Close Scope string_scope.

(** ** Strings *)

Lemma append_empty_r (s : string) : s +:+ EmptyString = s.
Proof. induction s as [|c s IH]; simpl; [reflexivity | now rewrite IH]. Qed.

Lemma append_assoc (a b c : string) : (a +:+ b) +:+ c = a +:+ b +:+ c.
Proof. induction a as [|x a IH]; simpl; [reflexivity | now rewrite IH]. Qed.

Lemma append_not_empty (a b : string) : b <> EmptyString -> a +:+ b <> EmptyString.
Proof. destruct a; simpl; [tauto | discriminate]. Qed.

(** A text that ends in a character that is not white space is unchanged by
    [rstrip]. *)
Lemma rstrip_fixed_app (a b : string) :
  b <> EmptyString -> rstrip b = b -> rstrip (a +:+ b) = a +:+ b.
Proof.
  intros Hb Hfix. induction a as [|c a IH]; simpl; [exact Hfix |].
  rewrite IH. destruct (a +:+ b) eqn:E; [|reflexivity].
  exfalso. now apply (append_not_empty a b).
Qed.

Lemma splitlines_not_nil (s : string) : s <> EmptyString -> splitlines s <> [].
Proof.
  destruct s as [|c s]; [tauto | intros _; simpl].
  destruct (is_linebreak c).
  - destruct s as [|c' s']; [discriminate |].
    destruct (_ && _)%bool; discriminate.
  - destruct (splitlines s); discriminate.
Qed.

Lemma splitlines_one_line (s : string) :
  s <> EmptyString -> one_line s = true -> splitlines s = [s].
Proof.
  induction s as [|c s IH]; [tauto |]. intros _ H. simpl in H.
  apply andb_prop in H as [Hc Hs]. apply negb_true_iff in Hc.
  simpl. rewrite Hc. destruct s as [|c' s'] eqn:E; [reflexivity |].
  rewrite <- E in *. rewrite IH; [reflexivity | subst; discriminate | exact Hs].
Qed.

Lemma one_line_app (a b : string) :
  one_line (a +:+ b) = (one_line a && one_line b)%bool.
Proof.
  induction a as [|c a IH]; simpl; [reflexivity |].
  now rewrite IH, andb_assoc.
Qed.

Lemma prefix_app (a b : string) : String.prefix a (a +:+ b) = true.
Proof.
  induction a as [|c a IH]; simpl; [now destruct b |].
  destruct (ascii_dec c c); [exact IH | congruence].
Qed.

Lemma format_log (a b c : string) :
  format "[{}] {}{}" [Some a; Some b; Some c] = "[" +:+ a +:+ "] " +:+ b +:+ c.
Proof. simpl. now rewrite append_empty_r. Qed.

(** The lines of a log call all carry the level. *)
Lemma log_lines_level level message pre :
  Forall (fun line => String.prefix ("[" +:+ upper (name level) +:+ "] ") line = true)
         (log_lines level message pre).
Proof.
  unfold log_lines. apply Forall_map, Forall_forall. intros line _.
  rewrite format_log.
  replace ("[" +:+ upper (name level) +:+ "] " +:+ pre +:+ line)
    with (("[" +:+ upper (name level) +:+ "] ") +:+ pre +:+ line).
  - apply prefix_app.
  - simpl. now rewrite append_assoc.
Qed.

(** A message that ends in a non-blank text is logged on at least one
    line. *)
Lemma log_lines_not_nil level (a b : string) pre :
  b <> EmptyString -> rstrip b = b -> log_lines level (a +:+ b) pre <> [].
Proof.
  intros Hb Hfix. unfold log_lines. rewrite rstrip_fixed_app by assumption.
  intros H. apply map_eq_nil in H. revert H. apply splitlines_not_nil.
  now apply append_not_empty.
Qed.

(** A message without line boundary that ends in a non-blank character is
    logged as one line. *)
Lemma log_lines_single level (message tail_ : string) :
  tail_ <> EmptyString -> rstrip tail_ = tail_ ->
  one_line (message +:+ tail_) = true ->
  log_lines level (message +:+ tail_) EmptyString
  = ["[" +:+ upper (name level) +:+ "] " +:+ message +:+ tail_].
Proof.
  intros Hne Hfix Hone. unfold log_lines.
  rewrite rstrip_fixed_app by assumption.
  rewrite splitlines_one_line; [| now apply append_not_empty | exact Hone].
  cbn [map]. now rewrite format_log.
Qed.

(** ** The monad of the scripts *)

Lemma print_all_spec (lines : list string) (p : proc) :
  print_all lines p = (add_lines p lines, Ok tt).
Proof.
  revert p. induction lines as [|l ls IH]; intros [w out ap]; simpl.
  - unfold ret, add_lines. simpl. now rewrite app_nil_r.
  - unfold bind, print. simpl. rewrite IH. unfold add_lines. simpl.
    now rewrite <- app_assoc.
Qed.

Lemma nzbget_log_spec level (message pre : string) (p : proc) :
  nzbget_log level (PyStr message) pre p
  = (add_lines p (log_lines level message pre), Ok tt).
Proof. apply print_all_spec. Qed.

(** The call [traceback.format_exception()] makes the clause fail before it
    logs anything. *)
Lemma unhandled_raises (p : proc) : unhandled p = (p, Raise TypeError).
Proof. reflexivity. Qed.

(** ** File modes *)

Lemma type_of_st_mode (ino : inode) :
  Z.land (st_mode ino) S_IFMT = ifmt (i_kind ino).
Proof.
  unfold st_mode. rewrite Z.land_lor_distr_l, <- Z.land_assoc.
  change (Z.land o7777 S_IFMT) with 0. rewrite Z.land_0_r, Z.lor_0_r.
  now destruct (i_kind ino).
Qed.

Lemma S_ISLNK_st_mode (ino : inode) :
  S_ISLNK (st_mode ino)
  = match i_kind ino with Symlink _ => true | _ => false end.
Proof. unfold S_ISLNK. rewrite type_of_st_mode. now destruct (i_kind ino). Qed.

Lemma S_ISDIR_st_mode (ino : inode) :
  S_ISDIR (st_mode ino)
  = match i_kind ino with Directory => true | _ => false end.
Proof. unfold S_ISDIR. rewrite type_of_st_mode. now destruct (i_kind ino). Qed.

(** A property of every umask, checked on each of the 512 values. *)
Lemma for_every_umask (f : Z -> bool) :
  forallb f (map Z.of_nat (seq 0 512)) = true ->
  forall u, 0 <= u <= o0777 -> f u = true.
Proof.
  intros H u Hu. rewrite forallb_forall in H. apply H.
  apply in_map_iff. exists (Z.to_nat u). split; [lia |].
  apply in_seq. unfold o0777 in Hu. lia.
Qed.

(** On a directory the subtraction of the source removes the umask bits. *)
Lemma o0777_minus_umask (u : Z) :
  0 <= u <= o0777 -> o0777 - u = Z.land o0777 (Z.lnot u).
Proof.
  intros Hu. apply Z.eqb_eq.
  apply (for_every_umask (fun u => Z.eqb (o0777 - u) (Z.land o0777 (Z.lnot u))));
    [vm_compute; reflexivity | exact Hu].
Qed.

(** On other files it does so exactly when the umask has no execute bit. *)
Lemma o0666_minus_umask (u : Z) :
  0 <= u <= o0777 ->
  (o0666 - u = Z.land o0666 (Z.lnot u) <-> Z.land u (octal "0111") = 0).
Proof.
  intros Hu.
  assert (H : Bool.eqb (Z.eqb (o0666 - u) (Z.land o0666 (Z.lnot u)))
                        (Z.eqb (Z.land u (octal "0111")) 0) = true).
  { apply (for_every_umask
             (fun u => Bool.eqb (Z.eqb (o0666 - u) (Z.land o0666 (Z.lnot u)))
                                (Z.eqb (Z.land u (octal "0111")) 0)));
      [vm_compute; reflexivity | exact Hu]. }
  apply Bool.eqb_prop in H. rewrite <- !Z.eqb_eq, H. reflexivity.
Qed.

(** What [restoremode] does to a path that is no link, in the mode of the
    process umask ([followlinks=False, mask=stat.S_ISGID]). *)
Lemma restoremode_chmod (s : sys) (path : string) (ino : inode) :
  fs s !! path = Some ino ->
  (forall target, i_kind ino <> Symlink target) ->
  0 <= umask s <= o0777 ->
  Restoremod.restoremode path false (Some S_ISGID) s
  = os_chmod path
      (if S_ISDIR (st_mode ino)
       then Z.lor (o0777 - umask s) (Z.land (st_mode ino) S_ISGID)
       else o0666 - umask s) s.
Proof.
  intros Hp Hk Hu.
  assert (Hres : resolve (fs s) MAXSYMLINKS path = Ok (path, ino)).
  { simpl. rewrite Hp. destruct (i_kind ino) eqn:E; try reflexivity.
    now destruct (Hk target). }
  assert (Hmask : Z.land (umask s) o0777 = umask s).
  { change o0777 with (Z.ones 9). rewrite Z.land_ones by lia.
    apply Z.mod_small. unfold o0777 in Hu. lia. }
  unfold Restoremod.restoremode, bind, os_lstat_mode. rewrite Hp.
  rewrite S_ISLNK_st_mode.
  replace (match i_kind ino with Symlink _ => true | _ => false end) with false
    by (destruct (i_kind ino) eqn:E; try reflexivity; now destruct (Hk target)).
  cbn [andb]. unfold os_stat_mode. rewrite Hres.
  unfold Restoremod.umask_get, bind, os_umask, ret. cbn [umask set_umask].
  rewrite !Hmask. change (Z.land 0 o0777) with 0.
  change (Z.land S_ISGID (Z.lor S_ISUID S_ISGID)) with S_ISGID.
  destruct s as [f ro u c]. reflexivity.
Qed.

(** ** The process umask *)

(** C9. [umask_get] returns the umask of the process restricted to the bits
    0o777 and leaves the state of the process as it found it: it sets the
    umask to 0 for the time of the call and then puts the old value back.
    (The kernel keeps a umask within 0o777.) *)
Theorem umask_get_restores (s : sys) :
  0 <= umask s <= o0777 ->
  umask (fst (os_umask 0 s)) = 0
  /\ Restoremod.umask_get s = (s, Ok (Z.land (umask s) o0777))
  /\ Z.land (umask s) o0777 = umask s.
Proof.
  intros Hu.
  assert (Hmask : Z.land (umask s) o0777 = umask s).
  { change o0777 with (Z.ones 9). rewrite Z.land_ones by lia.
    apply Z.mod_small. unfold o0777 in Hu. lia. }
  split; [reflexivity | split; [| exact Hmask]].
  unfold Restoremod.umask_get, bind, os_umask, ret, set_umask.
  cbn [umask fs mounted_ro calls]. rewrite Hmask.
  destruct s as [f ro u c]. reflexivity.
Qed.

(** The statement at the sample system with the umask 0o022. *)
Lemma umask_get_restores_sample :
  Restoremod.umask_get (Sample.system_022)
  = (Sample.system_022, Ok (octal "022")).
Proof.
  apply (umask_get_restores Sample.system_022). vm_compute. split; discriminate.
Defined.

(** ** Symbolic links *)

Lemma lstat_mode_spec (s : sys) (path : string) (ino : inode) :
  fs s !! path = Some ino -> os_lstat_mode path s = (s, Ok (st_mode ino)).
Proof. intros H. unfold os_lstat_mode. now rewrite H. Qed.

(** C10. In both modes a walked path that is a symbolic link is neither
    modified nor followed: the per-path operation returns with the state of
    the system as it was (no file changed, no metadata-changing call issued,
    the link target included). And [inheritattr] leaves every path that is
    not a directory as it was. *)
Theorem links_and_non_directories_untouched
    (cfg : config) (s : sys) (path : string) (ino : inode) :
  fs s !! path = Some ino ->
  ((exists target, i_kind ino = Symlink target) ->
   (forall mask, Restoremod.restoremode path false mask s = (s, Ok tt))
   /\ (forall mask, Restoremod.restoreattr path false mask s = (s, Ok tt))
   /\ Restoremod.discardeacl cfg path false s = (s, Ok tt)
   /\ (forall acl, Restoremod.inheritdacl acl path s = (s, Ok tt))
   /\ (forall mode, Restoremod.restore_from_ps cfg mode path s = (s, Ok tt))
   /\ (forall acl mode, Restoremod.restore_from_fs acl mode path s = (s, Ok tt)))
  /\ (i_kind ino <> Directory ->
      forall mode mask, Restoremod.inheritattr mode path mask s = (s, Ok tt)).
Proof.
  intros Hp.
  assert (Hattr : i_kind ino <> Directory ->
            forall mode mask, Restoremod.inheritattr mode path mask s = (s, Ok tt)).
  { intros Hk mode mask. unfold Restoremod.inheritattr, bind.
    rewrite (lstat_mode_spec _ _ _ Hp), S_ISDIR_st_mode.
    destruct (i_kind ino); try reflexivity. now destruct Hk. }
  split; [| exact Hattr].
  intros [target Hk].
  assert (Hmode : forall mask, Restoremod.restoremode path false mask s = (s, Ok tt)).
  { intros mask. unfold Restoremod.restoremode, bind.
    rewrite (lstat_mode_spec _ _ _ Hp), S_ISLNK_st_mode, Hk. reflexivity. }
  assert (Hrattr : forall mask, Restoremod.restoreattr path false mask s = (s, Ok tt)).
  { intros mask. unfold Restoremod.restoreattr, bind.
    rewrite (lstat_mode_spec _ _ _ Hp), S_ISLNK_st_mode, Hk. reflexivity. }
  assert (Heacl : Restoremod.discardeacl cfg path false s = (s, Ok tt)).
  { unfold Restoremod.discardeacl, bind, os_path_islink. rewrite Hp, Hk.
    reflexivity. }
  assert (Hdacl : forall acl, Restoremod.inheritdacl acl path s = (s, Ok tt)).
  { intros acl. unfold Restoremod.inheritdacl, bind.
    rewrite (lstat_mode_spec _ _ _ Hp), S_ISLNK_st_mode, Hk. reflexivity. }
  assert (Hnd : i_kind ino <> Directory) by (rewrite Hk; discriminate).
  repeat split; try assumption.
  - intros mode. unfold Restoremod.restore_from_ps, bind.
    now rewrite Hmode, (Hattr Hnd), Heacl.
  - intros acl mode. unfold Restoremod.restore_from_fs, bind.
    now rewrite Hrattr, (Hattr Hnd), Hdacl.
Qed.

(** The statement at the link /dl/job/latest of the sample system. *)
Lemma links_untouched_sample :
  Restoremod.restore_from_ps (Sample.setup Sample.env_ok true) (octal "042755")
    "/dl/job/latest" Sample.system_022
  = (Sample.system_022, Ok tt)
  /\ Restoremod.inheritattr (octal "042755") "/dl/job/latest" None Sample.system_022
     = (Sample.system_022, Ok tt).
Proof.
  destruct (links_and_non_directories_untouched
              (Sample.setup Sample.env_ok true) Sample.system_022
              "/dl/job/latest" (Sample.link "/dl/job/a.mkv") eq_refl)
    as [Hlink Hattr].
  split.
  - apply Hlink. exists "/dl/job/a.mkv". reflexivity.
  - apply Hattr. discriminate.
Defined.

(** ** Permissions from the process umask *)

(** C1, where the code departs from it. With the umask 0o077 [restoremode]
    gives the file /dl/job/a.mkv the permission bits 0o567 (the number
    0o666 - 0o077), not 0o600 (0o666 with the umask bits removed); the
    directory /dl/job gets 0o700 with its setgid bit kept, as stated. *)
Theorem restoremode_umask_077 :
  i_perm <$> fs (fst (Restoremod.restoremode "/dl/job/a.mkv" false (Some S_ISGID)
                        Sample.system_077)) !! "/dl/job/a.mkv"
  = Some (octal "0567")
  /\ Z.land o0666 (Z.lnot (octal "077")) = octal "0600"
  /\ i_perm <$> fs (fst (Restoremod.restoremode "/dl/job" false (Some S_ISGID)
                           Sample.system_077)) !! "/dl/job"
     = Some (Z.lor (Z.land o0777 (Z.lnot (octal "077"))) S_ISGID).
Proof. vm_compute. repeat split; reflexivity. Qed.

(** ** Runs of the scripts *)

Lemma nzbget_variable_set cfg key version (v : string) (p : proc) :
  environ cfg !! key = Some v -> nzbget_variable cfg key version p = (p, Ok v).
Proof.
  intros H. unfold nzbget_variable, try_except, os_environ. now rewrite H.
Qed.

Lemma nzbget_variable_unset cfg key version (p : proc) :
  environ cfg !! key = None ->
  nzbget_variable cfg key version p
  = (add_lines p (log_lines error
                    (format (nzbget_variable_msg version) [Some key; version])
                    EmptyString),
     Raise (SystemExit 94)).
Proof.
  intros H. unfold nzbget_variable, try_except, os_environ. rewrite H.
  cbn [raise is_KeyError]. unfold bind. now rewrite nzbget_log_spec.
Qed.

Lemma format_status (status : string) :
  format Restoremod.msg_status [Some status]
  = ("Download failed with status " +:+ status) +:+ ", skipping.".
Proof. reflexivity. Qed.

Lemma format_nothing_mod (directory : string) :
  format Restoremod.msg_nothing [Some directory]
  = ("Nothing to post-process, destination directory " +:+ dq +:+ directory)
    +:+ dq +:+ " doesn't exist.".
Proof. reflexivity. Qed.

Lemma format_nothing_con (directory : string) :
  format Restorecon.msg_nothing [Some directory]
  = ("Nothing to post-process, destination " +:+ dq +:+ directory)
    +:+ dq +:+ " doesn't exist.".
Proof. reflexivity. Qed.

Lemma format_denied (path : string) :
  format msg_denied [Some path]
  = ("Permission denied for " +:+ dq +:+ path) +:+ dq +:+ ", skipping.".
Proof. reflexivity. Qed.

Lemma skipped_by_info (p : proc) (a b : string) :
  b <> EmptyString -> rstrip b = b ->
  skipped p (add_lines p (log_lines info (a +:+ b) EmptyString),
             Raise (SystemExit 95)).
Proof.
  intros Hb Hfix. exists (log_lines info (a +:+ b) EmptyString).
  split; [now apply log_lines_not_nil |].
  split; [apply (log_lines_level info) | reflexivity].
Qed.

Lemma skipped_status_mod cfg p status :
  environ cfg !! "NZBPP_TOTALSTATUS" = Some status -> status <> "SUCCESS" ->
  skipped p (Restoremod.script cfg p).
Proof.
  intros Henv Hne. unfold Restoremod.script, bind.
  rewrite (nzbget_variable_set _ _ _ _ _ Henv).
  apply String.eqb_neq in Hne. rewrite Hne. cbn [negb when].
  unfold bind. rewrite nzbget_log_spec, format_status.
  cbn [nzbget_exit raise value]. now apply skipped_by_info.
Qed.

Lemma skipped_status_con cfg p status :
  environ cfg !! "NZBPP_TOTALSTATUS" = Some status -> status <> "SUCCESS" ->
  skipped p (Restorecon.script cfg p).
Proof.
  intros Henv Hne. unfold Restorecon.script, bind.
  rewrite (nzbget_variable_set _ _ _ _ _ Henv).
  apply String.eqb_neq in Hne. rewrite Hne. cbn [negb when].
  unfold bind. rewrite nzbget_log_spec.
  change Restorecon.msg_status with Restoremod.msg_status.
  rewrite format_status.
  cbn [nzbget_exit raise value]. now apply skipped_by_info.
Qed.

Lemma lift_pure {A} (m : M sys A) (p : proc) (a : A) :
  m (world p) = (world p, Ok a) -> lift m p = (p, Ok a).
Proof. intros H. unfold lift. rewrite H. now destruct p. Qed.

Lemma pure_result {A} (m : M sys A) (s : sys) (a : A) :
  fst (m s) = s -> snd (m s) = Ok a -> m s = (s, Ok a).
Proof. destruct (m s). simpl. intros; subst; reflexivity. Qed.

Lemma os_path_isdir_pure path s : fst (os_path_isdir path s) = s.
Proof.
  unfold os_path_isdir. destruct (resolve _ _ _) as [[? ?]|]; reflexivity.
Qed.

Lemma os_path_exists_pure path s : fst (os_path_exists path s) = s.
Proof.
  unfold os_path_exists. destruct (resolve _ _ _) as [[? ?]|]; reflexivity.
Qed.

(** C5. A run in which NZBPP_TOTALSTATUS is set to something other than
    SUCCESS, or in which the destination is absent (for the SELinux script:
    the path does not exist; for the permission script: it is no directory
    and no link to one), logs at the info level and exits with code 95
    (none); no file's metadata is changed and no per-path call is made. The
    two variables are taken to be set: a missing one is another case of the
    scripts. *)
Theorem skipped_runs_exit_95 (cfg : config) (p : proc) (status : string) :
  environ cfg !! "NZBPP_TOTALSTATUS" = Some status ->
  (status <> "SUCCESS" ->
   skipped p (Restorecon.script cfg p) /\ skipped p (Restoremod.script cfg p))
  /\ (forall directory,
        environ cfg !! "NZBPP_DIRECTORY" = Some directory ->
        (snd (os_path_exists directory (world p)) = Ok false ->
         skipped p (Restorecon.script cfg p))
        /\ (snd (os_path_isdir directory (world p)) = Ok false ->
            skipped p (Restoremod.script cfg p))).
Proof.
  intros Henv. split.
  { intros Hne. split;
      [eapply skipped_status_con | eapply skipped_status_mod]; eassumption. }
  intros directory Hdir.
  destruct (String.eqb status "SUCCESS") eqn:E.
  2:{ apply String.eqb_neq in E. split; intros _;
        [eapply skipped_status_con | eapply skipped_status_mod]; eassumption. }
  split; intros Habsent.
  - unfold Restorecon.script, bind.
    rewrite (nzbget_variable_set _ _ _ _ _ Henv), E. cbn [negb when ret].
    rewrite (nzbget_variable_set _ _ _ _ _ Hdir).
    rewrite (lift_pure _ p false).
    2:{ apply pure_result; [apply os_path_exists_pure | exact Habsent]. }
    cbn [negb when]. unfold bind. rewrite nzbget_log_spec, format_nothing_con.
    cbn [nzbget_exit raise value]. now apply skipped_by_info.
  - unfold Restoremod.script, bind.
    rewrite (nzbget_variable_set _ _ _ _ _ Henv), E. cbn [negb when ret].
    rewrite (nzbget_variable_set _ _ _ _ _ Hdir).
    rewrite (lift_pure _ p false).
    2:{ apply pure_result; [apply os_path_isdir_pure | exact Habsent]. }
    cbn [negb when]. unfold bind. rewrite nzbget_log_spec, format_nothing_mod.
    cbn [nzbget_exit raise value]. now apply skipped_by_info.
Qed.

(** The statement at a failed job and at a job whose destination is gone. *)
Lemma skipped_runs_sample :
  (skipped (start Sample.system_022)
     (Restorecon.script (Sample.setup Sample.env_failed true)
        (start Sample.system_022))
   /\ skipped (start Sample.system_022)
        (Restoremod.script (Sample.setup Sample.env_failed true)
           (start Sample.system_022)))
  /\ skipped (start Sample.system_022)
       (Restorecon.script (Sample.setup Sample.env_gone true)
          (start Sample.system_022))
  /\ skipped (start Sample.system_022)
       (Restoremod.script (Sample.setup Sample.env_gone true)
          (start Sample.system_022)).
Proof.
  split.
  - refine (proj1 (skipped_runs_exit_95 (Sample.setup Sample.env_failed true)
                     (start Sample.system_022) "FAILURE/PAR" _) _).
    + vm_compute. reflexivity.
    + discriminate.
  - destruct (skipped_runs_exit_95 (Sample.setup Sample.env_gone true)
                (start Sample.system_022) "SUCCESS") as [_ Hgone].
    + vm_compute. reflexivity.
    + destruct (Hgone "/dl/gone") as [Hcon Hmod].
      * vm_compute. reflexivity.
      * split; [apply Hcon | apply Hmod]; vm_compute; reflexivity.
Defined.

(** ** The loop over the walked paths *)

(** What one pass through the [try] statement does, by the result of the
    per-path operation. *)
Lemma attempt_mod (restore : string -> M sys unit) (path : string) (p : proc) :
  Restoremod.attempt restore path p
  = match restore path (world p) with
    | (w, Ok _) => (after_call p w path (Ok tt) [], Ok tt)
    | (w, Raise e) =>
        if is_FileNotFoundError e then
          (after_call p w path (Raise e)
             (log_lines error (format msg_not_found [Some path]) EmptyString),
           Raise (SystemExit 94))
        else if is_PermissionError e then
          (after_call p w path (Raise e)
             (log_lines warning (format msg_denied [Some path]) EmptyString),
           Ok tt)
        else if is_Exception e then (after_call p w path (Raise e) [], Raise TypeError)
        else (after_call p w path (Raise e) [], Raise e)
    end.
Proof.
  unfold Restoremod.attempt, try_except, call_restore, after_call.
  destruct (restore path (world p)) as [w [[]|e]]; cbn [stdout world applied].
  - now rewrite app_nil_r.
  - unfold Restoremod.on_exception.
    destruct (is_FileNotFoundError e);
      [unfold bind; rewrite nzbget_log_spec; reflexivity |].
    destruct (is_PermissionError e); [rewrite nzbget_log_spec; reflexivity |].
    destruct (is_Exception e); rewrite ?unhandled_raises;
      cbn [stdout]; now rewrite app_nil_r.
Qed.

Lemma attempt_con (cfg : config) (path : string) (p : proc) :
  Restorecon.attempt cfg path p
  = match Restorecon.restorecon_single cfg path (world p) with
    | (w, Ok _) => (after_call p w path (Ok tt) [], Ok tt)
    | (w, Raise e) =>
        if is_FileNotFoundError e then
          (after_call p w path (Raise e)
             (log_lines error (format msg_not_found [Some path]) EmptyString),
           Raise (SystemExit 94))
        else if is_LabelNotFoundError e then
          (after_call p w path (Raise e)
             (log_lines warning (format Restorecon.msg_no_label [Some path])
                EmptyString),
           Ok tt)
        else if is_PermissionError e then
          (after_call p w path (Raise e)
             (log_lines warning (format msg_denied [Some path]) EmptyString),
           Ok tt)
        else if is_Exception e then (after_call p w path (Raise e) [], Raise TypeError)
        else (after_call p w path (Raise e) [], Raise e)
    end.
Proof.
  unfold Restorecon.attempt, try_except, call_restore, after_call.
  destruct (Restorecon.restorecon_single cfg path (world p)) as [w [[]|e]];
    cbn [stdout world applied].
  - now rewrite app_nil_r.
  - unfold Restorecon.on_exception.
    destruct (is_FileNotFoundError e);
      [unfold bind; rewrite nzbget_log_spec; reflexivity |].
    destruct (is_LabelNotFoundError e); [rewrite nzbget_log_spec; reflexivity |].
    destruct (is_PermissionError e); [rewrite nzbget_log_spec; reflexivity |].
    destruct (is_Exception e); rewrite ?unhandled_raises;
      cbn [stdout]; now rewrite app_nil_r.
Qed.

Section Loop.

(** A loop body that records its call of the per-path operation and goes
    on when the result is tolerated (both scripts' bodies do). *)
Variable body : string -> M proc unit.

Hypothesis body_records : forall path p,
  map fst (applied (fst (body path p))) = map fst (applied p) ++ [path]
  /\ (forall r, applied (fst (body path p)) = applied p ++ [(path, r)] ->
      tolerated r -> snd (body path p) = Ok tt)
  /\ exists r, applied (fst (body path p)) = applied p ++ [(path, r)].

Lemma descendants_handler_keeps (text : string) (p : proc) :
  applied (fst (descendants_handler text p)) = applied p
  /\ snd (descendants_handler text p) = Ok tt.
Proof. unfold descendants_handler. now rewrite nzbget_log_spec. Qed.

(** A loop in which every recorded result is tolerated runs to its end. *)
Lemma loop_completes (events : list event) (p : proc) :
  Forall (fun call => tolerated (snd call))
         (applied (fst (for_path_in events body p))) ->
  snd (for_path_in events body p) = Ok tt.
Proof.
  revert p. induction events as [|[path|text] rest IH]; intros p Hall.
  - reflexivity.
  - cbn [for_path_in] in *. unfold bind in *.
    destruct (body_records path p) as (_ & Hgo & r & Hr).
    destruct (body path p) as [p' [[]|e]] eqn:E; cbn [fst snd] in *.
    + now apply IH.
    + rewrite Hr in Hall. apply Forall_app in Hall as [_ Hall].
      apply Forall_inv in Hall. specialize (Hgo r Hr Hall). discriminate.
  - cbn [for_path_in] in *. unfold bind in *.
    destruct (descendants_handler_keeps text p) as [_ Hok].
    destruct (descendants_handler text p) as [p' r]. cbn [snd] in Hok. subst r.
    now apply IH.
Qed.

(** A loop that runs to its end has called the per-path operation on the
    yielded paths, once each, in the order of the walk. *)
Lemma loop_applies_once (events : list event) (p : proc) :
  snd (for_path_in events body p) = Ok tt ->
  map fst (applied (fst (for_path_in events body p)))
  = map fst (applied p) ++ yielded events.
Proof.
  revert p. induction events as [|[path|text] rest IH]; intros p Hend.
  - cbn. now rewrite app_nil_r.
  - cbn [for_path_in] in *. unfold bind in *.
    destruct (body_records path p) as (Hrec & _ & _).
    destruct (body path p) as [p' [[]|e]] eqn:E; cbn [fst snd] in *;
      [| discriminate].
    rewrite (IH p' Hend), Hrec, <- app_assoc. reflexivity.
  - cbn [for_path_in] in *. unfold bind in *.
    destruct (descendants_handler_keeps text p) as [Hkeep Hok].
    destruct (descendants_handler text p) as [p' r]. cbn [fst snd] in *. subst r.
    rewrite (IH p' Hend), Hkeep. reflexivity.
Qed.

End Loop.

Lemma attempt_mod_records (restore : string -> M sys unit) path p :
  map fst (applied (fst (Restoremod.attempt restore path p)))
  = map fst (applied p) ++ [path]
  /\ (forall r, applied (fst (Restoremod.attempt restore path p))
                = applied p ++ [(path, r)] ->
      tolerated r -> snd (Restoremod.attempt restore path p) = Ok tt)
  /\ exists r, applied (fst (Restoremod.attempt restore path p))
               = applied p ++ [(path, r)].
Proof.
  rewrite attempt_mod.
  destruct (restore path (world p)) as [w [[]|e]].
  - cbn. rewrite map_app. eauto 6.
  - assert (Hrec : forall lines (r' : result unit),
              applied (fst (after_call p w path (Raise e) lines, r'))
              = applied p ++ [(path, Raise e)]) by reflexivity.
    destruct e; cbn [is_FileNotFoundError is_PermissionError is_Exception];
      (split; [cbn; now rewrite map_app |]);
      (split; [| eexists; reflexivity]);
      intros r Hr; rewrite Hrec in Hr; apply app_inv_head in Hr;
      injection Hr as <-; intros [H|H]; try discriminate; reflexivity.
Qed.

Lemma attempt_con_records (cfg : config) path p :
  map fst (applied (fst (Restorecon.attempt cfg path p)))
  = map fst (applied p) ++ [path]
  /\ (forall r, applied (fst (Restorecon.attempt cfg path p))
                = applied p ++ [(path, r)] ->
      tolerated r -> snd (Restorecon.attempt cfg path p) = Ok tt)
  /\ exists r, applied (fst (Restorecon.attempt cfg path p))
               = applied p ++ [(path, r)].
Proof.
  rewrite attempt_con.
  destruct (Restorecon.restorecon_single cfg path (world p)) as [w [[]|e]].
  - cbn. rewrite map_app. eauto 6.
  - assert (Hrec : forall lines (r' : result unit),
              applied (fst (after_call p w path (Raise e) lines, r'))
              = applied p ++ [(path, Raise e)]) by reflexivity.
    destruct e;
      cbn [is_FileNotFoundError is_LabelNotFoundError is_PermissionError
           is_Exception];
      (split; [cbn; now rewrite map_app |]);
      (split; [| eexists; reflexivity]);
      intros r Hr; rewrite Hrec in Hr; apply app_inv_head in Hr;
      injection Hr as <-; intros [H|H]; try discriminate; reflexivity.
Qed.

(** C6. When the per-path operation raises PermissionError, the script logs
    the warning [Permission denied for "<path>", skipping.] (one line when
    the path holds no line boundary) and goes on with the remaining paths;
    and a run in which every per-path result is a success or a
    PermissionError ends with the exit code 93 (success). Stated for the
    loop of either script. *)
Theorem permission_denied_is_skipped
    (cfg : config) (directory : string) (restore : string -> M sys unit)
    (p : proc) :
  (forall path rest w,
     restore path (world p) = (w, Raise PermissionError) ->
     for_path_in (Yield path :: rest) (Restoremod.attempt restore) p
     = for_path_in rest (Restoremod.attempt restore)
         (after_call p w path (Raise PermissionError)
            (log_lines warning (format msg_denied [Some path]) EmptyString)))
  /\ (forall path rest w,
        Restorecon.restorecon_single cfg path (world p)
        = (w, Raise PermissionError) ->
        for_path_in (Yield path :: rest) (Restorecon.attempt cfg) p
        = for_path_in rest (Restorecon.attempt cfg)
            (after_call p w path (Raise PermissionError)
               (log_lines warning (format msg_denied [Some path]) EmptyString)))
  /\ (forall path,
        one_line path = true ->
        log_lines warning (format msg_denied [Some path]) EmptyString
        = ["[WARNING] Permission denied for " +:+ dq +:+ path +:+ dq
           +:+ ", skipping."])
  /\ (Forall (fun call => tolerated (snd call))
        (applied (fst (Restoremod.walk cfg directory restore p))) ->
      snd (Restoremod.walk cfg directory restore p) = Raise (SystemExit 93))
  /\ (Forall (fun call => tolerated (snd call))
        (applied (fst (Restorecon.walk cfg directory p))) ->
      snd (Restorecon.walk cfg directory p) = Raise (SystemExit 93)).
Proof.
  split; [| split; [| split; [| split]]].
  - intros path rest w H. cbn [for_path_in]. unfold bind at 1.
    now rewrite attempt_mod, H.
  - intros path rest w H. cbn [for_path_in]. unfold bind at 1.
    now rewrite attempt_con, H.
  - intros path Hone. rewrite format_denied, log_lines_single.
    + reflexivity.
    + discriminate.
    + reflexivity.
    + rewrite !one_line_app, Hone. reflexivity.
  - unfold Restoremod.walk, bind. intros Hall.
    pose proof (loop_completes (Restoremod.attempt restore)
                  (attempt_mod_records restore)
                  (descendants directory (tree cfg directory).1 (tree cfg directory).2)
                  p) as Hend.
    destruct (for_path_in _ _ p) as [p' [[]|e]]; cbn [fst snd] in *.
    + reflexivity.
    + specialize (Hend Hall). discriminate.
  - unfold Restorecon.walk, bind. intros Hall.
    pose proof (loop_completes (Restorecon.attempt cfg)
                  (attempt_con_records cfg)
                  (descendants directory (tree cfg directory).1 (tree cfg directory).2)
                  p) as Hend.
    destruct (for_path_in _ _ p) as [p' [[]|e]]; cbn [fst snd] in *.
    + reflexivity.
    + specialize (Hend Hall). discriminate.
Qed.

(** The statement at a job with a file the process does not own. *)
Lemma permission_denied_sample :
  snd (Restoremod.walk (Sample.setup Sample.env_ok true) "/dl/job"
         (Restoremod.restore_from_ps (Sample.setup Sample.env_ok true)
            Sample.job_mode)
         (start Sample.system_foreign))
  = Raise (SystemExit 93).
Proof.
  apply (permission_denied_is_skipped (Sample.setup Sample.env_ok true) "/dl/job"
           (Restoremod.restore_from_ps (Sample.setup Sample.env_ok true)
              Sample.job_mode)
           (start Sample.system_foreign)).
  vm_compute.
  repeat (constructor; [first [left; reflexivity | right; reflexivity] |]).
  constructor.
Defined.

(** ** Where the code departs from what is stated *)

(** C2, where the code departs from it. An exception that no other clause
    handles reaches [except Exception], whose first statement,
    [traceback.format_exception()], raises TypeError: nothing is logged and
    the interpreter ends with status 1, not 94. Here: the permission script on
    a read-only file system (chmod fails with EROFS), the SELinux script on a
    directory without label (lgetfilecon fails with ENODATA). *)
Theorem unhandled_exception_ends_in_TypeError :
  (let run := Restoremod.script (Sample.setup Sample.env_ok true)
                (start Sample.system_readonly) in
   stdout (fst run)
   = ["[INFO] Using process umask to restore permissions of " +:+ dq
      +:+ "/dl/job" +:+ dq]
   /\ applied (fst run) = [("/dl/job", Raise (OSError 30))]
   /\ snd run = Raise TypeError
   /\ status_of (snd run) = 1)
  /\ (let run := Restorecon.script (Sample.setup Sample.env_ok true)
                   (start Sample.system_unlabelled) in
      stdout (fst run) = []
      /\ applied (fst run) = [("/dl/job", Raise (OSError 61))]
      /\ snd run = Raise TypeError
      /\ status_of (snd run) = 1).
Proof. vm_compute. repeat split; reflexivity. Qed.

(** Without a minimum version the message of [nzbget_variable] is a full
    stop, whatever the variable. *)
Lemma nzbget_variable_msg_no_version (key : string) :
  log_lines error (format (nzbget_variable_msg None) [Some key; None])
    EmptyString
  = ["[ERROR] ."].
Proof. reflexivity. Qed.

(** C3, where the code departs from it. With NZBPP_DIRECTORY missing both
    scripts exit with 94 after the line [[ERROR] .], which does not name the
    variable; with NZBPP_TOTALSTATUS missing (a version is given) the line
    names the variable and the version. *)
Theorem missing_directory_variable_is_not_named :
  Restoremod.script (Sample.setup Sample.env_no_directory true)
    (start Sample.system_022)
  = (add_lines (start Sample.system_022) ["[ERROR] ."], Raise (SystemExit 94))
  /\ Restorecon.script (Sample.setup Sample.env_no_directory true)
       (start Sample.system_022)
     = (add_lines (start Sample.system_022) ["[ERROR] ."], Raise (SystemExit 94))
  /\ contains "NZBPP_DIRECTORY" "[ERROR] ." = false
  /\ Restoremod.script (Sample.setup ∅ true) (start Sample.system_022)
     = (add_lines (start Sample.system_022)
          ["[ERROR] Variable " +:+ dq +:+ "NZBPP_TOTALSTATUS" +:+ dq
           +:+ " required, please upgrade NZBGet to version 13.0 or later"],
        Raise (SystemExit 94)).
Proof. vm_compute. repeat split; reflexivity. Qed.

(** ** SELinux contexts *)

(** [restorecon_single] on a labelled path for which the policy has a
    context: [lsetfilecon] is called whatever the current label, because
    the list [lgetfilecon] returns never equals a string. *)
Lemma restorecon_single_always_sets
    (cfg : config) (s : sys) (path : string) (ino : inode) (old new : string) :
  fs s !! path = Some ino ->
  i_context ino = Some old ->
  policy cfg path (st_mode ino) = Some new ->
  Restorecon.restorecon_single cfg path s
  = Restorecon.lsetfilecon path new s.
Proof.
  intros Hp Hold Hnew.
  unfold Restorecon.restorecon_single, bind, try_except.
  rewrite (lstat_mode_spec _ _ _ Hp). cbn [ret fst snd].
  unfold Restorecon.matchpathcon, try_except, bind, selinux_matchpathcon.
  rewrite Hnew. cbn [ret].
  unfold selinux_lgetfilecon. rewrite Hp, Hold. reflexivity.
Qed.

(** C8, where the code departs from it. The file /dl/job/a.mkv already
    carries the default context; [restorecon_single] writes the context
    all the same (one [lsetfilecon] call), and so does a second run. *)
Theorem restorecon_single_writes_equal_context :
  i_context <$> fs Sample.system_022 !! "/dl/job/a.mkv"
  = Some (policy (Sample.setup Sample.env_ok true) "/dl/job/a.mkv"
            (st_mode (Sample.regular (octal "0777"))))
  /\ Restorecon.restorecon_single (Sample.setup Sample.env_ok true)
       "/dl/job/a.mkv" Sample.system_022
     = ({| fs := fs Sample.system_022;
           mounted_ro := false;
           umask := umask Sample.system_022;
           calls := [SetFileCon "/dl/job/a.mkv"
                       "system_u:object_r:public_content_t:s0"] |},
        Ok tt)
  /\ calls (fst (Restorecon.restorecon_single (Sample.setup Sample.env_ok true)
                   "/dl/job/a.mkv"
                   (fst (Restorecon.restorecon_single
                           (Sample.setup Sample.env_ok true)
                           "/dl/job/a.mkv" Sample.system_022))))
     = [SetFileCon "/dl/job/a.mkv" "system_u:object_r:public_content_t:s0";
        SetFileCon "/dl/job/a.mkv" "system_u:object_r:public_content_t:s0"].
Proof. vm_compute. repeat split; reflexivity. Qed.

(** ** The choice of the restoration mode *)

Lemma acl_to_text_truthy (acl : list acl_entry) :
  truthy (Some (acl_to_text acl)) = match acl with [] => false | _ => true end.
Proof.
  destruct acl as [|entry rest]; [reflexivity |].
  cbn [acl_to_text]. unfold acl_entry_text.
  destruct (tag_type entry); reflexivity.
Qed.

Lemma format_fs (directory : string) :
  format Restoremod.msg_fs [Some directory]
  = ("Using default ACL to restore permissions of " +:+ dq +:+ directory) +:+ dq.
Proof. reflexivity. Qed.

Lemma format_ps (directory : string) :
  format Restoremod.msg_ps [Some directory]
  = ("Using process umask to restore permissions of " +:+ dq +:+ directory) +:+ dq.
Proof. reflexivity. Qed.

(** The script up to the choice of the mode, for a successful job whose
    destination is a directory. *)
Lemma script_reaches_choose (cfg : config) (p : proc) (given : string) :
  environ cfg !! "NZBPP_TOTALSTATUS" = Some "SUCCESS" ->
  environ cfg !! "NZBPP_DIRECTORY" = Some given ->
  snd (os_path_isdir given (world p)) = Ok true ->
  Restoremod.script cfg p
  = (restore_permissions <- Restoremod.choose cfg (realpath cfg given) ;;
     Restoremod.walk cfg (realpath cfg given) restore_permissions) p.
Proof.
  intros Hstatus Hdir Hisdir. unfold Restoremod.script.
  unfold bind at 1. rewrite (nzbget_variable_set _ _ _ _ _ Hstatus).
  unfold bind at 1. change (String.eqb "SUCCESS" "SUCCESS") with true.
  cbn [negb when ret].
  unfold bind at 1. rewrite (nzbget_variable_set _ _ _ _ _ Hdir).
  unfold bind at 1. rewrite (lift_pure _ p true)
    by (apply pure_result; [apply os_path_isdir_pure | exact Hisdir]).
  unfold bind at 1. reflexivity.
Qed.

(** What [choose] does on a directory. *)
Lemma choose_spec (cfg : config) (p : proc) (directory found : string)
    (ino : inode) :
  resolve (fs (world p)) MAXSYMLINKS directory = Ok (found, ino) ->
  i_kind ino = Directory ->
  Restoremod.choose cfg directory p
  = match i_dacl ino with
    | [] =>
        (add_lines p (log_lines info (format Restoremod.msg_ps [Some directory])
                        EmptyString),
         Ok (Restoremod.restore_from_ps cfg (st_mode ino)))
    | _ :: _ =>
        if HAS_ACL_ENTRY cfg then
          (add_lines p (log_lines info (format Restoremod.msg_fs [Some directory])
                          EmptyString),
           Ok (Restoremod.restore_from_fs (i_dacl ino) (st_mode ino)))
        else
          (add_lines p (log_lines error
                          (format Restoremod.msg_no_acl_entry [Some directory])
                          EmptyString),
           Raise (SystemExit 94))
    end.
Proof.
  intros Hres Hkind.
  assert (Hdacl : acl_get_default directory (world p)
                  = (world p, Ok (i_dacl ino)))
    by (unfold acl_get_default; now rewrite Hres, Hkind).
  assert (Hmode : os_stat_mode directory (world p) = (world p, Ok (st_mode ino)))
    by (unfold os_stat_mode; now rewrite Hres).
  unfold Restoremod.choose.
  unfold bind at 1. rewrite (lift_pure _ _ _ Hdacl).
  unfold bind at 1. rewrite (lift_pure _ _ _ Hmode).
  rewrite acl_to_text_truthy.
  destruct (i_dacl ino) as [|entry rest].
  - unfold bind. now rewrite nzbget_log_spec.
  - destruct (HAS_ACL_ENTRY cfg); cbn [negb when]; unfold bind, ret;
      now rewrite nzbget_log_spec.
Qed.

(** C4 as stated fails: with a default ACL on the job directory and a
    pylibacl that cannot edit ACL entries ([HAS_ACL_ENTRY] false), the script
    logs an error line and exits with 94: no info line, no walk. *)
Lemma no_info_line_without_acl_entries :
  i_dacl <$> fs Sample.system_dacl !! "/dl/job" = Some Sample.dacl_755
  /\ Restoremod.script (Sample.setup Sample.env_ok false) (start Sample.system_dacl)
     = (add_lines (start Sample.system_dacl)
          ["[ERROR] Unable to alter ACLs: detected default ACL on " +:+ dq
           +:+ "/dl/job" +:+ dq],
        Raise (SystemExit 94))
  /\ String.prefix "[INFO] "
       ("[ERROR] Unable to alter ACLs: detected default ACL on " +:+ dq
        +:+ "/dl/job" +:+ dq) = false.
Proof. vm_compute. repeat split; reflexivity. Qed.

(** C4, amended. For a successful job whose destination is a directory, the
    permission script goes by the default ACL of the resolved directory:
    - not empty, and pylibacl can edit ACL entries: it logs the info message
      [Using default ACL ...] and then walks with [restore_from_fs] on that
      ACL and the directory's mode;
    - not empty, and pylibacl cannot: it logs an error and exits with 94
      without walking;
    - empty: it logs the info message [Using process umask ...] and then
      walks with [restore_from_ps] on the directory's mode.
    Each info message is one line when the directory's path holds no line
    boundary. *)
Theorem mode_chosen_by_default_acl
    (cfg : config) (p : proc) (given found : string) (ino : inode) :
  environ cfg !! "NZBPP_TOTALSTATUS" = Some "SUCCESS" ->
  environ cfg !! "NZBPP_DIRECTORY" = Some given ->
  snd (os_path_isdir given (world p)) = Ok true ->
  resolve (fs (world p)) MAXSYMLINKS (realpath cfg given) = Ok (found, ino) ->
  i_kind ino = Directory ->
  let directory := realpath cfg given in
  (i_dacl ino <> [] -> HAS_ACL_ENTRY cfg = true ->
   Restoremod.script cfg p
   = Restoremod.walk cfg directory
       (Restoremod.restore_from_fs (i_dacl ino) (st_mode ino))
       (add_lines p (log_lines info (format Restoremod.msg_fs [Some directory])
                       EmptyString)))
  /\ (i_dacl ino <> [] -> HAS_ACL_ENTRY cfg = false ->
      Restoremod.script cfg p
      = (add_lines p (log_lines error
                        (format Restoremod.msg_no_acl_entry [Some directory])
                        EmptyString),
         Raise (SystemExit 94)))
  /\ (i_dacl ino = [] ->
      Restoremod.script cfg p
      = Restoremod.walk cfg directory
          (Restoremod.restore_from_ps cfg (st_mode ino))
          (add_lines p (log_lines info (format Restoremod.msg_ps [Some directory])
                          EmptyString)))
  /\ (one_line directory = true ->
      log_lines info (format Restoremod.msg_fs [Some directory]) EmptyString
      = ["[INFO] Using default ACL to restore permissions of " +:+ dq
         +:+ directory +:+ dq]
      /\ log_lines info (format Restoremod.msg_ps [Some directory]) EmptyString
         = ["[INFO] Using process umask to restore permissions of " +:+ dq
            +:+ directory +:+ dq]).
Proof.
  intros Hstatus Hdir Hisdir Hres Hkind directory.
  pose proof (script_reaches_choose cfg p given Hstatus Hdir Hisdir) as Hscript.
  fold directory in Hscript. unfold bind in Hscript.
  rewrite (choose_spec cfg p directory found ino Hres Hkind) in Hscript.
  split; [| split; [| split]].
  - intros Hacl Hcan. rewrite Hscript, Hcan.
    destruct (i_dacl ino); [congruence | reflexivity].
  - intros Hacl Hcannot. rewrite Hscript, Hcannot.
    destruct (i_dacl ino); [congruence | reflexivity].
  - intros Hacl. rewrite Hscript, Hacl. reflexivity.
  - intros Hone. split.
    + rewrite format_fs, log_lines_single; try reflexivity; try discriminate.
      rewrite !one_line_app, Hone. reflexivity.
    + rewrite format_ps, log_lines_single; try reflexivity; try discriminate.
      rewrite !one_line_app, Hone. reflexivity.
Qed.

(** The statement at a job directory that carries a default ACL. *)
Lemma mode_chosen_sample :
  Restoremod.script (Sample.setup Sample.env_ok true) (start Sample.system_dacl)
  = Restoremod.walk (Sample.setup Sample.env_ok true)
      (realpath (Sample.setup Sample.env_ok true) "/dl/job")
      (Restoremod.restore_from_fs
         (i_dacl (Sample.directory (octal "2755") Sample.dacl_755))
         (st_mode (Sample.directory (octal "2755") Sample.dacl_755)))
      (add_lines (start Sample.system_dacl)
         (log_lines info
            (format Restoremod.msg_fs
               [Some (realpath (Sample.setup Sample.env_ok true) "/dl/job")])
            EmptyString)).
Proof.
  refine (proj1 (mode_chosen_by_default_acl (Sample.setup Sample.env_ok true)
                   (start Sample.system_dacl) "/dl/job" "/dl/job"
                   (Sample.directory (octal "2755") Sample.dacl_755)
                   _ _ _ _ _) _ _).
  - vm_compute. reflexivity.
  - vm_compute. reflexivity.
  - vm_compute. reflexivity.
  - vm_compute. reflexivity.
  - reflexivity.
  - discriminate.
  - reflexivity.
Defined.

(** ** The walk *)

(** Induction on trees, with the hypothesis for every entry of a
    directory. *)
Lemma node_induction (P : node -> Prop) :
  (forall name, P (File name)) ->
  (forall name, P (DirLink name)) ->
  (forall name scan_error entries,
     Forall P entries -> P (Dir name scan_error entries)) ->
  forall n, P n.
Proof.
  intros HF HL HD. fix IH 1. intros [name|name|name scan_error entries].
  - apply HF.
  - apply HL.
  - apply HD. induction entries as [|n rest IHrest]; constructor;
      [apply IH | exact IHrest].
Qed.

(** *** Paths and names *)

Lemma append_same_l (a b : string) : a +:+ b = a -> b = EmptyString.
Proof.
  intros H. apply (String.app_inj a). now rewrite append_empty_r.
Qed.

Lemma valid_name_inv (name : string) :
  valid_name name = true ->
  name <> EmptyString /\ no_slash name = true.
Proof.
  unfold valid_name. intros H. apply andb_prop in H as [H1 H2].
  split; [| exact H2]. intros ->. discriminate.
Qed.

Lemma no_slash_first (name : string) :
  no_slash name = true -> startswith_slash name = false.
Proof.
  destruct name as [|c rest]; [reflexivity |]. cbn [no_slash startswith_slash].
  intros H. apply andb_prop in H as [H _]. now apply negb_true_iff in H.
Qed.

Lemma endswith_slash_app (a name : string) :
  name <> EmptyString -> no_slash name = true ->
  endswith_slash (a +:+ name) = false /\ a +:+ name <> EmptyString.
Proof.
  intros Hne Hns. split; [| now apply append_not_empty].
  assert (Hname : endswith_slash name = false).
  { clear Hne. induction name as [|c rest IH]; [reflexivity |].
    cbn [no_slash] in Hns. apply andb_prop in Hns as [Hc Hrest].
    apply negb_true_iff in Hc. cbn [endswith_slash].
    destruct rest; [exact Hc | now apply IH]. }
  induction a as [|c a IH]; [exact Hname |].
  cbn [String.append endswith_slash].
  destruct (a +:+ name) eqn:E; [| exact IH].
  exfalso. now apply (append_not_empty a name).
Qed.

Lemma join_valid (dirpath name : string) :
  valid_name name = true -> join dirpath name = lead dirpath +:+ name.
Proof.
  intros Hv. apply valid_name_inv in Hv as [_ Hns].
  unfold join, lead. rewrite (no_slash_first _ Hns).
  destruct (_ || _)%bool; [reflexivity | now rewrite append_assoc].
Qed.

Lemma join_join (dirpath name name' : string) :
  valid_name name = true -> valid_name name' = true ->
  join (join dirpath name) name' = join dirpath name +:+ "/" +:+ name'.
Proof.
  intros Hv Hv'. rewrite (join_valid dirpath name Hv).
  apply valid_name_inv in Hv as [Hne Hns].
  destruct (endswith_slash_app (lead dirpath) name Hne Hns) as [Hend Hnonempty].
  apply valid_name_inv in Hv' as [_ Hns'].
  unfold join at 1. rewrite (no_slash_first _ Hns'), Hend.
  apply String.eqb_neq in Hnonempty. now rewrite Hnonempty.
Qed.

Lemma name_of_path (a b r1 r2 : string) :
  no_slash a = true -> no_slash b = true ->
  rest_of_path r1 -> rest_of_path r2 ->
  a +:+ r1 = b +:+ r2 -> a = b.
Proof.
  revert b. induction a as [|c a IH]; intros [|c' b] Ha Hb H1 H2 Heq.
  - reflexivity.
  - exfalso. cbn [String.append] in Heq. subst r1.
    cbn [no_slash] in Hb. apply andb_prop in Hb as [Hc _].
    apply negb_true_iff in Hc.
    destruct H1 as [H1|H1]; [discriminate |].
    cbn [startswith_slash] in H1. congruence.
  - exfalso. cbn [String.append] in Heq. subst r2.
    cbn [no_slash] in Ha. apply andb_prop in Ha as [Hc _].
    apply negb_true_iff in Hc.
    destruct H2 as [H2|H2]; [discriminate |].
    cbn [startswith_slash] in H2. congruence.
  - cbn [String.append] in Heq. injection Heq as <- Heq.
    cbn [no_slash] in Ha, Hb.
    apply andb_prop in Ha as [_ Ha]. apply andb_prop in Hb as [_ Hb].
    f_equal. now apply (IH b).
Qed.

Lemma wf_node_dir (name : string) (scan_error : option string)
    (entries : list node) :
  wf_node (Dir name scan_error entries) = true ->
  valid_name name = true
  /\ NoDup (map name_of entries)
  /\ forallb wf_node entries = true.
Proof.
  cbn [wf_node name_of]. intros H.
  apply andb_prop in H as [Hname H]. apply andb_prop in H as [Hnodup Hall].
  apply bool_decide_eq_true in Hnodup. auto.
Qed.

Lemma wf_node_name (n : node) : wf_node n = true -> valid_name (name_of n) = true.
Proof.
  destruct n; cbn [wf_node]; intros H; now apply andb_prop in H as [H _].
Qed.

(** *** The shape of the yielded paths *)

(** Below an entry, every path is the entry's path followed by a slash
    and more. *)
Lemma reachable_shape (n : node) :
  wf_node n = true ->
  forall dirpath q,
    In q (reachable dirpath n) ->
    q = join dirpath (name_of n)
    \/ exists r, q = join dirpath (name_of n) +:+ r /\ startswith_slash r = true.
Proof.
  induction n as [name|name|name scan_error entries IH] using node_induction;
    intros Hwf dirpath q Hq.
  - destruct Hq as [<- | []]. now left.
  - destruct Hq as [<- | []]. now left.
  - apply wf_node_dir in Hwf as (Hname & _ & Hall).
    cbn [reachable name_of] in *. destruct Hq as [<- | Hq]; [now left |].
    right. destruct scan_error; [destruct Hq |].
    apply in_flat_map in Hq as (c & Hc & Hq).
    rewrite List.Forall_forall in IH. rewrite forallb_forall in Hall.
    pose proof (wf_node_name c (Hall c Hc)) as Hcname.
    destruct (IH c Hc (Hall c Hc) _ q Hq) as [-> | (r & -> & Hr)].
    + rewrite (join_join _ _ _ Hname Hcname). eexists. split; reflexivity.
    + rewrite (join_join _ _ _ Hname Hcname), !append_assoc.
      eexists. split; reflexivity.
Qed.

Lemma reachable_rest (n : node) (dirpath q : string) :
  wf_node n = true -> In q (reachable dirpath n) ->
  exists r, q = lead dirpath +:+ name_of n +:+ r /\ rest_of_path r.
Proof.
  intros Hwf Hq. pose proof (wf_node_name n Hwf) as Hname.
  destruct (reachable_shape n Hwf dirpath q Hq) as [-> | (r & -> & Hr)].
  - exists EmptyString. rewrite append_empty_r. split; [| now left].
    now apply join_valid.
  - exists r. rewrite (join_valid _ _ Hname), append_assoc. split; [reflexivity |].
    now right.
Qed.

(** Two entries of one directory with a path in common have the same
    name. *)
Lemma reachable_same_name (n n' : node) (dirpath q : string) :
  wf_node n = true -> wf_node n' = true ->
  In q (reachable dirpath n) -> In q (reachable dirpath n') ->
  name_of n = name_of n'.
Proof.
  intros Hwf Hwf' Hq Hq'.
  destruct (reachable_rest n dirpath q Hwf Hq) as (r & -> & Hr).
  destruct (reachable_rest n' dirpath _ Hwf' Hq') as (r' & Heq & Hr').
  apply String.app_inj in Heq.
  apply wf_node_name, valid_name_inv in Hwf as [_ Hns].
  apply wf_node_name, valid_name_inv in Hwf' as [_ Hns'].
  exact (name_of_path _ _ _ _ Hns Hns' Hr Hr' Heq).
Qed.

(** *** No path twice *)

Lemma NoDup_reachable_entries (top : string) (entries : list node) :
  NoDup (map name_of entries) ->
  forallb wf_node entries = true ->
  Forall (fun c => forall dirpath, NoDup (reachable dirpath c)) entries ->
  NoDup (flat_map (reachable top) entries).
Proof.
  induction entries as [|c rest IH]; intros Hnames Hwf Hsub; [constructor |].
  cbn [flat_map map forallb] in *.
  apply NoDup_cons in Hnames as [Hfresh Hnames].
  apply andb_prop in Hwf as [Hc Hrest].
  apply Forall_cons in Hsub as [Hsubc Hsub].
  apply NoDup_app. split; [apply Hsubc | split; [| now apply IH]].
  intros q Hq Hq'. apply list_elem_of_In in Hq, Hq'.
  apply in_flat_map in Hq' as (c' & Hc' & Hq').
  rewrite forallb_forall in Hrest.
  apply Hfresh. apply list_elem_of_In.
  rewrite (reachable_same_name c c' top q Hc (Hrest c' Hc') Hq Hq').
  now apply in_map.
Qed.

Lemma NoDup_reachable (n : node) :
  wf_node n = true -> forall dirpath, NoDup (reachable dirpath n).
Proof.
  induction n as [name|name|name scan_error entries IH] using node_induction;
    intros Hwf dirpath.
  - cbn. apply NoDup_singleton.
  - cbn. apply NoDup_singleton.
  - pose proof (reachable_shape _ Hwf dirpath) as Hshape.
    pose proof Hwf as Hwf'. apply wf_node_dir in Hwf' as (Hname & Hnames & Hall).
    cbn [reachable name_of] in *. apply NoDup_cons. split.
    + intros Hin. apply list_elem_of_In in Hin.
      destruct scan_error; [destruct Hin |].
      apply in_flat_map in Hin as (c & Hc & Hq).
      rewrite forallb_forall in Hall.
      pose proof (wf_node_name c (Hall c Hc)) as Hcname.
      destruct (reachable_shape c (Hall c Hc) _ _ Hq) as [Heq | (r & Heq & Hr)];
        rewrite (join_join _ _ _ Hname Hcname) in Heq; symmetry in Heq;
        rewrite ?append_assoc in Heq; apply append_same_l in Heq; discriminate.
    + destruct scan_error; [constructor |].
      apply NoDup_reachable_entries; try assumption.
      rewrite Forall_forall in *. rewrite forallb_forall in Hall.
      intros c Hc. apply list_elem_of_In in Hc. apply IH; auto.
      apply list_elem_of_In. exact Hc.
Qed.

(** The top of the walk is not among the paths below it. *)
Lemma top_not_below (top : string) (entries : list node) :
  forallb wf_node entries = true -> ~ In top (reachable_below top entries).
Proof.
  intros Hall Hin. apply in_flat_map in Hin as (c & Hc & Hq).
  rewrite forallb_forall in Hall.
  destruct (reachable_rest c top top (Hall c Hc) Hq) as (r & Heq & _).
  destruct (valid_name_inv _ (wf_node_name c (Hall c Hc))) as [Hne _].
  unfold lead in Heq. destruct (_ || _)%bool.
  - symmetry in Heq. apply append_same_l in Heq.
    destruct (name_of c); [now apply Hne | discriminate].
  - symmetry in Heq. rewrite append_assoc in Heq. apply append_same_l in Heq.
    discriminate.
Qed.

(** *** Every reachable path *)

Lemma yielded_app (a b : list event) : yielded (a ++ b) = yielded a ++ yielded b.
Proof. unfold yielded. apply flat_map_app. Qed.

Lemma yielded_yields (dirpath : string) (names : list string) :
  yielded (map (fun name => Yield (join dirpath name)) names)
  = map (join dirpath) names.
Proof. induction names as [|n rest IH]; cbn; [reflexivity | now f_equal]. Qed.

Lemma item_paths_app (a b : list walk_item) :
  item_paths (a ++ b) = item_paths a ++ item_paths b.
Proof. unfold item_paths. now rewrite flat_map_app, yielded_app. Qed.

Lemma item_paths_triple (dirpath : string) (dn fn : list string)
    (rest : list walk_item) :
  item_paths (Triple dirpath dn fn :: rest)
  = map (join dirpath) (dn ++ fn) ++ item_paths rest.
Proof.
  change (Triple dirpath dn fn :: rest) with ([Triple dirpath dn fn] ++ rest).
  rewrite item_paths_app. f_equal. unfold item_paths. cbn [flat_map item_events].
  now rewrite app_nil_r, yielded_yields.
Qed.

Lemma item_paths_flat_map {A} (h : A -> list walk_item) (l : list A) :
  item_paths (flat_map h l) = flat_map (fun c => item_paths (h c)) l.
Proof.
  induction l as [|c rest IH]; [reflexivity |].
  cbn [flat_map]. now rewrite item_paths_app, IH.
Qed.

Lemma dirnames_cons (c : node) (rest : list node) :
  dirnames (c :: rest)
  = if is_dir_entry c then name_of c :: dirnames rest else dirnames rest.
Proof.
  unfold dirnames. rewrite filter_cons.
  destruct (is_dir_entry c); now rewrite ?decide_True, ?decide_False by congruence.
Qed.

Lemma filenames_cons (c : node) (rest : list node) :
  filenames (c :: rest)
  = if is_dir_entry c then filenames rest else name_of c :: filenames rest.
Proof.
  unfold filenames. rewrite filter_cons.
  destruct (is_dir_entry c); now rewrite ?decide_True, ?decide_False by congruence.
Qed.

(** The names of the triple are the names of the entries, directories
    first. *)
Lemma names_split (entries : list node) :
  Permutation (dirnames entries ++ filenames entries) (map name_of entries).
Proof.
  induction entries as [|c rest IH]; [constructor |].
  rewrite dirnames_cons, filenames_cons. cbn [map].
  destruct (is_dir_entry c).
  - cbn. now constructor.
  - rewrite <- Permutation_middle. now constructor.
Qed.

Lemma reachable_head (dirpath : string) (n : node) :
  reachable dirpath n = join dirpath (name_of n) :: tl (reachable dirpath n).
Proof. now destruct n. Qed.

Lemma entries_perm (top : string) (entries : list node) :
  Forall (fun c => forall dirpath,
            Permutation (item_paths (walk_entry dirpath c))
                        (tl (reachable dirpath c))) entries ->
  Permutation
    (map (join top) (dirnames entries ++ filenames entries)
     ++ item_paths (flat_map (walk_entry top) entries))
    (flat_map (reachable top) entries).
Proof.
  intros Hsub. rewrite (Permutation_map (join top) (names_split entries)).
  rewrite item_paths_flat_map.
  induction Hsub as [|c rest Hc _ IH]; [constructor |].
  cbn [map flat_map]. rewrite (reachable_head top c), <- !app_comm_cons.
  constructor. rewrite Permutation_app_swap_app, (Hc top).
  apply Permutation_app_head, IH.
Qed.

Lemma walk_entry_perm (n : node) (dirpath : string) :
  Permutation (item_paths (walk_entry dirpath n)) (tl (reachable dirpath n)).
Proof.
  revert dirpath.
  induction n as [name|name|name scan_error entries IH] using node_induction;
    intros dirpath; try constructor.
  cbn [walk_entry reachable tl]. destruct scan_error; [constructor |].
  rewrite item_paths_triple. now apply entries_perm.
Qed.

(** *** Directories before their entries *)

Lemma dirs_seen_first_mono (seen seen' : list string) (items : list walk_item) :
  (forall x, In x seen -> In x seen') ->
  dirs_seen_first seen items -> dirs_seen_first seen' items.
Proof.
  revert seen seen'.
  induction items as [|[d dn fn|err] rest IH]; intros seen seen' Hsub H.
  - exact I.
  - destruct H as [Hd Hrest]. split; [now apply Hsub |].
    apply (IH (seen ++ map (join d) (dn ++ fn))); [| exact Hrest].
    intros x Hx. apply in_app_or in Hx as [Hx|Hx]; apply in_or_app; auto.
  - now apply (IH seen).
Qed.

Lemma dirs_seen_first_app (seen : list string) (a b : list walk_item) :
  dirs_seen_first seen a ->
  dirs_seen_first (seen ++ item_paths a) b ->
  dirs_seen_first seen (a ++ b).
Proof.
  revert seen. induction a as [|[d dn fn|err] rest IH]; intros seen Ha Hb.
  - cbn in Hb. now rewrite app_nil_r in Hb.
  - destruct Ha as [Hd Ha]. split; [exact Hd |]. apply IH; [exact Ha |].
    now rewrite item_paths_triple, app_assoc in Hb.
  - apply IH; assumption.
Qed.

Lemma in_dirnames (c : node) (entries : list node) :
  In c entries -> is_dir_entry c = true -> In (name_of c) (dirnames entries).
Proof.
  intros Hc Hdir. induction entries as [|c' rest IH]; [destruct Hc |].
  rewrite dirnames_cons. destruct Hc as [-> | Hc].
  - rewrite Hdir. now left.
  - destruct (is_dir_entry c'); [right |]; now apply IH.
Qed.

Lemma dirs_seen_first_entries (top : string) (entries : list node) :
  Forall (fun c => forall dirpath seen,
            In (join dirpath (name_of c)) seen ->
            dirs_seen_first seen (walk_entry dirpath c)) entries ->
  forall seen,
    (forall c, In c entries -> is_dir_entry c = true ->
               In (join top (name_of c)) seen) ->
    dirs_seen_first seen (flat_map (walk_entry top) entries).
Proof.
  induction 1 as [|c rest Hc _ IH]; intros seen Hseen; [exact I |].
  cbn [flat_map]. apply dirs_seen_first_app.
  - destruct c as [name|name|name scan_error sub]; try exact I.
    apply Hc, Hseen; [now left | reflexivity].
  - apply IH. intros c' Hc' Hdir. apply in_or_app. left.
    apply Hseen; [now right | exact Hdir].
Qed.

Lemma dirs_seen_first_entry (n : node) (dirpath : string) (seen : list string) :
  In (join dirpath (name_of n)) seen ->
  dirs_seen_first seen (walk_entry dirpath n).
Proof.
  revert dirpath seen.
  induction n as [name|name|name scan_error entries IH] using node_induction;
    intros dirpath seen Hseen; try exact I.
  cbn [walk_entry name_of] in *. destruct scan_error; [exact I |].
  split; [exact Hseen |].
  apply dirs_seen_first_entries; [exact IH |].
  intros c Hc Hdir. apply in_or_app. right.
  apply in_map, in_or_app. left. now apply in_dirnames.
Qed.

Lemma dirs_seen_first_split (seen : list string) (before : list walk_item)
    (d : string) (dn fn : list string) (after : list walk_item) :
  dirs_seen_first seen (before ++ Triple d dn fn :: after) ->
  In d (seen ++ item_paths before).
Proof.
  revert seen. induction before as [|[d' dn' fn'|err] rest IH]; intros seen H.
  - destruct H as [Hd _]. cbn. now rewrite app_nil_r.
  - destruct H as [_ H]. apply IH in H.
    now rewrite item_paths_triple, app_assoc.
  - now apply IH in H.
Qed.

(** *** Trees whose directories can all be listed *)

Lemma reachable_all_listable (n : node) (dirpath : string) :
  listable n = true -> reachable dirpath n = below dirpath n.
Proof.
  revert dirpath.
  induction n as [name|name|name scan_error entries IH] using node_induction;
    intros dirpath Hl; try reflexivity.
  cbn [listable reachable below] in *. destruct scan_error; [discriminate |].
  f_equal. induction IH as [|c rest Hc _ IHrest]; [reflexivity |].
  cbn [forallb flat_map] in *. apply andb_prop in Hl as [Hlc Hlrest].
  now rewrite (Hc _ Hlc), (IHrest Hlrest).
Qed.

Lemma reachable_below_all_listable (top : string) (entries : list node) :
  forallb listable entries = true ->
  reachable_below top entries = strictly_below top entries.
Proof.
  unfold reachable_below, strictly_below.
  induction entries as [|c rest IH]; intros Hl; [reflexivity |].
  cbn [forallb flat_map] in *. apply andb_prop in Hl as [Hlc Hlrest].
  now rewrite (reachable_all_listable c top Hlc), (IH Hlrest).
Qed.

(** C7 as stated fails: when a directory below the top cannot be listed
    ([os.walk] hands the error to [onerror]), the files below it are not
    yielded. Here /dl/job/sub/b.nfo is strictly below /dl/job and is not
    among the yielded paths. *)
Lemma unlisted_directory_is_not_descended :
  wf_entries Sample.entries_unlisted = true
  /\ strictly_below "/dl/job" Sample.entries_unlisted
     = ["/dl/job/a.mkv"; "/dl/job/sub"; "/dl/job/sub/b.nfo"; "/dl/job/latest"]
  /\ descendants "/dl/job" None Sample.entries_unlisted
     = [Yield "/dl/job"; Yield "/dl/job/sub"; Yield "/dl/job/a.mkv";
        Yield "/dl/job/latest";
        OnError "[Errno 13] Permission denied: '/dl/job/sub'"]
  /\ ~ In "/dl/job/sub/b.nfo"
         (yielded (descendants "/dl/job" None Sample.entries_unlisted)).
Proof.
  split; [vm_compute; reflexivity |].
  split; [vm_compute; reflexivity |].
  split; [vm_compute; reflexivity |].
  vm_compute. intros H. repeat (destruct H as [H|H]; [discriminate |]). exact H.
Qed.

(** C7, amended. For a directory tree rooted at [top] (valid names, no name
    twice in a directory) whose top can be listed, [descendants(top)] yields
    [top] first and then, exactly once each, the directories and files below
    [top] that can be reached through directories that can be listed; a
    directory that cannot be listed is still yielded itself. When [os.walk]
    reports a directory, and only then yields its entries, the directory has
    been yielded before. If every directory can be listed, the paths after
    [top] are all the directories and files strictly below [top]. A loop of
    either script that runs to its end has called the per-path operation on
    the yielded paths, once each, in that order. *)
Theorem descendants_yields_reachable_paths_once
    (top : string) (entries : list node) :
  wf_entries entries = true ->
  let paths := yielded (descendants top None entries) in
  paths = top :: item_paths (os_walk top None entries)
  /\ Permutation (item_paths (os_walk top None entries))
                 (reachable_below top entries)
  /\ NoDup paths
  /\ (forall before d dn fn after,
        os_walk top None entries = before ++ Triple d dn fn :: after ->
        paths = (top :: item_paths before)
                ++ map (join d) (dn ++ fn) ++ item_paths after
        /\ In d (top :: item_paths before))
  /\ (forallb listable entries = true ->
      reachable_below top entries = strictly_below top entries)
  /\ (forall restore p,
        let run := for_path_in (descendants top None entries)
                     (Restoremod.attempt restore) p in
        snd run = Ok tt ->
        map fst (applied (fst run)) = map fst (applied p) ++ paths)
  /\ (forall cfg p,
        let run := for_path_in (descendants top None entries)
                     (Restorecon.attempt cfg) p in
        snd run = Ok tt ->
        map fst (applied (fst run)) = map fst (applied p) ++ paths).
Proof.
  intros Hwf paths. unfold wf_entries in Hwf.
  apply andb_prop in Hwf as [Hnames Hall]. apply bool_decide_eq_true in Hnames.
  assert (Hpaths : paths = top :: item_paths (os_walk top None entries))
    by reflexivity.
  assert (Hperm : Permutation (item_paths (os_walk top None entries))
                              (reachable_below top entries)).
  { cbn [os_walk]. rewrite item_paths_triple. apply entries_perm.
    apply List.Forall_forall. intros c _ dirpath. apply walk_entry_perm. }
  split; [exact Hpaths |]. split; [exact Hperm |].
  split; [| split; [| split; [| split]]].
  - rewrite Hpaths. apply NoDup_cons. split.
    + intros Hin. apply list_elem_of_In in Hin.
      apply (top_not_below top entries Hall).
      now apply (Permutation_in _ Hperm).
    + rewrite Hperm. apply NoDup_reachable_entries; try assumption.
      apply List.Forall_forall. rewrite forallb_forall in Hall.
      intros c Hc dirpath. now apply NoDup_reachable, Hall.
  - intros before d dn fn after Hsplit. split.
    + rewrite Hpaths, Hsplit, item_paths_app, item_paths_triple. reflexivity.
    + apply (dirs_seen_first_split [top] before d dn fn after).
      rewrite <- Hsplit. cbn [os_walk]. split; [now left |].
      apply dirs_seen_first_entries.
      * apply List.Forall_forall. intros c _ dirpath seen.
        apply dirs_seen_first_entry.
      * intros c Hc Hdir. apply in_or_app. right.
        apply in_map, in_or_app. left. now apply in_dirnames.
  - apply reachable_below_all_listable.
  - intros restore p run Hend.
    apply (loop_applies_once (Restoremod.attempt restore)
             (attempt_mod_records restore)); exact Hend.
  - intros cfg p run Hend.
    apply (loop_applies_once (Restorecon.attempt cfg)
             (attempt_con_records cfg)); exact Hend.
Qed.

(** The statement at the sample tree, all of whose directories list. *)
Lemma descendants_sample :
  NoDup (yielded (descendants "/dl/job" None Sample.entries))
  /\ Permutation (item_paths (os_walk "/dl/job" None Sample.entries))
                 (strictly_below "/dl/job" Sample.entries).
Proof.
  assert (Hwf : wf_entries Sample.entries = true) by (vm_compute; reflexivity).
  destruct (descendants_yields_reachable_paths_once "/dl/job" Sample.entries Hwf)
    as (_ & Hperm & Hnodup & _ & Hall & _).
  split; [exact Hnodup |].
  rewrite <- Hall; [exact Hperm | reflexivity].
Defined.

(** * Further properties of the code *)

(** ** Changing one file *)

Lemma resolve_self (s : sys) (path : string) (ino : inode) :
  fs s !! path = Some ino ->
  (forall target, i_kind ino <> Symlink target) ->
  resolve (fs s) MAXSYMLINKS path = Ok (path, ino).
Proof.
  intros Hp Hk. cbn [resolve MAXSYMLINKS]. rewrite Hp.
  destruct (i_kind ino) eqn:E; try reflexivity. now destruct (Hk target).
Qed.

Lemma change_inode_spec (s : sys) (path : string) (ino ino' : inode)
    (follow : bool) (change : inode -> result inode) :
  changeable s path ino -> change ino = Ok ino' ->
  change_inode follow path change s = (set_fs s (<[path := ino']> (fs s)), Ok tt).
Proof.
  intros (Hp & Hk & Hro & Hown) Hch. unfold change_inode.
  rewrite (resolve_self s path ino Hp Hk), Hp.
  destruct follow; now rewrite Hro, Hown, Hch.
Qed.

Lemma os_chmod_spec (s : sys) (path : string) (ino : inode) (mode : Z) :
  changeable s path ino ->
  os_chmod path mode s
  = (changed s path (with_perm ino (Z.land mode o7777)) (Chmod path mode), Ok tt).
Proof.
  intros (Hp & Hk & Hro & Hown). unfold os_chmod, bind, log_call.
  erewrite change_inode_spec; [reflexivity | | reflexivity].
  repeat split; assumption.
Qed.

Lemma os_stat_mode_self (s : sys) (path : string) (ino : inode) :
  fs s !! path = Some ino ->
  (forall target, i_kind ino <> Symlink target) ->
  os_stat_mode path s = (s, Ok (st_mode ino)).
Proof.
  intros Hp Hk. unfold os_stat_mode. now rewrite (resolve_self s path ino Hp Hk).
Qed.

Lemma not_link (ino : inode) :
  (forall target, i_kind ino <> Symlink target) ->
  S_ISLNK (st_mode ino) = false.
Proof.
  intros Hk. rewrite S_ISLNK_st_mode. destruct (i_kind ino); try reflexivity.
  now destruct (Hk target).
Qed.

(** ** Permission bits *)

(** A property of the twelve permission bits, checked on each value. *)
Lemma for_every_perm (f : Z -> bool) :
  forallb f (map Z.of_nat (seq 0 4096)) = true ->
  forall q, f (Z.land q o7777) = true.
Proof.
  intros H q. rewrite forallb_forall in H. apply H.
  assert (Hq : 0 <= Z.land q o7777 < 4096).
  { change o7777 with (Z.ones 12). rewrite Z.land_ones by lia.
    apply Z.mod_pos_bound. reflexivity. }
  apply in_map_iff. exists (Z.to_nat (Z.land q o7777)). split; [lia |].
  apply in_seq. lia.
Qed.

(** The bits [restoreattr] leaves: the nine access bits, and on a
    directory the setgid bit. *)
Lemma restoreattr_bits (ino : inode) :
  Z.land o7777
    (if S_ISDIR (st_mode ino)
     then Z.land (st_mode ino)
            (Z.lnot (Z.land (Z.lor (Z.lor S_ISUID S_ISGID) S_ISVTX)
                       (Z.lnot S_ISGID)))
     else Z.land (st_mode ino) (Z.lnot (Z.lor (Z.lor S_ISUID S_ISGID) S_ISVTX)))
  = Z.land (i_perm ino)
      (match i_kind ino with Directory => octal "2777" | _ => octal "0777" end).
Proof.
  rewrite S_ISDIR_st_mode. unfold st_mode.
  destruct (i_kind ino).
  - replace (Z.land (i_perm ino) (octal "0777"))
      with (Z.land (Z.land (i_perm ino) o7777) (octal "0777"))
      by (now rewrite <- Z.land_assoc).
    apply Z.eqb_eq.
    apply (for_every_perm (fun r =>
       Z.eqb (Z.land o7777
                (Z.land (Z.lor (ifmt Regular) r)
                   (Z.lnot (Z.lor (Z.lor S_ISUID S_ISGID) S_ISVTX))))
             (Z.land r (octal "0777")))).
    vm_compute. reflexivity.
  - replace (Z.land (i_perm ino) (octal "2777"))
      with (Z.land (Z.land (i_perm ino) o7777) (octal "2777"))
      by (now rewrite <- Z.land_assoc).
    apply Z.eqb_eq.
    apply (for_every_perm (fun r =>
       Z.eqb (Z.land o7777
                (Z.land (Z.lor (ifmt Directory) r)
                   (Z.lnot (Z.land (Z.lor (Z.lor S_ISUID S_ISGID) S_ISVTX)
                              (Z.lnot S_ISGID)))))
             (Z.land r (octal "2777")))).
    vm_compute. reflexivity.
  - replace (Z.land (i_perm ino) (octal "0777"))
      with (Z.land (Z.land (i_perm ino) o7777) (octal "0777"))
      by (now rewrite <- Z.land_assoc).
    apply Z.eqb_eq.
    apply (for_every_perm (fun r =>
       Z.eqb (Z.land o7777
                (Z.land (Z.lor (ifmt (Symlink target)) r)
                   (Z.lnot (Z.lor (Z.lor S_ISUID S_ISGID) S_ISVTX))))
             (Z.land r (octal "0777")))).
    vm_compute. reflexivity.
Qed.

Lemma perm_of_st_mode (ino : inode) :
  Z.land (st_mode ino) o7777 = Z.land (i_perm ino) o7777.
Proof.
  unfold st_mode. rewrite Z.land_lor_distr_l, <- Z.land_assoc, Z.land_diag.
  replace (Z.land (ifmt (i_kind ino)) o7777) with 0 by (now destruct (i_kind ino)).
  apply Z.lor_0_l.
Qed.

Lemma changeable_changed (s : sys) (path : string) (ino : inode) (perm : Z)
    (c : call) :
  changeable s path ino ->
  changeable (changed s path (with_perm ino perm) c) path (with_perm ino perm).
Proof.
  intros (Hp & Hk & Hro & Hown). repeat split; try assumption.
  cbn. apply lookup_insert_eq.
Qed.

(** What [restoreattr] does to a file that is no link, with the default
    mask. *)
Lemma restoreattr_spec (s : sys) (path : string) (ino : inode) :
  changeable s path ino ->
  let kept := match i_kind ino with
              | Directory => octal "2777"
              | _ => octal "0777"
              end in
  Restoremod.restoreattr path false None s
  = if Z.eqb (Z.land (i_perm ino) kept) (Z.land (i_perm ino) o7777)
    then (s, Ok tt)
    else (changed s path (with_perm ino (Z.land (i_perm ino) kept))
            (Chmod path (Z.land (i_perm ino) kept)), Ok tt).
Proof.
  intros Hch kept. pose proof Hch as (Hp & Hk & _).
  unfold Restoremod.restoreattr, bind.
  rewrite (lstat_mode_spec _ _ _ Hp), (not_link _ Hk). cbn [andb].
  rewrite (os_stat_mode_self _ _ _ Hp Hk), perm_of_st_mode.
  rewrite restoreattr_bits. fold kept.
  destruct (Z.eqb (Z.land (i_perm ino) kept) (Z.land (i_perm ino) o7777));
    cbn [negb]; [reflexivity |].
  rewrite (os_chmod_spec _ _ _ _ Hch). do 3 f_equal.
  subst kept. destruct (i_kind ino); now rewrite <- Z.land_assoc.
Qed.

(** X1. In the mode of the default ACL, [restoreattr] on a file the process
    may change (no link) clears the setuid, setgid and sticky bits of a
    non-directory and the setuid and sticky bits of a directory, keeps all
    other permission bits, issues no chmod when those bits are already
    clear, and does nothing when run again. *)
Theorem restoreattr_clears_attribute_bits
    (s : sys) (path : string) (ino : inode) :
  changeable s path ino ->
  let kept := match i_kind ino with
              | Directory => octal "2777"
              | _ => octal "0777"
              end in
  let s' := fst (Restoremod.restoreattr path false None s) in
  snd (Restoremod.restoreattr path false None s) = Ok tt
  /\ (exists ino',
        fs s' !! path = Some ino'
        /\ Z.land (st_mode ino') o7777 = Z.land (i_perm ino) kept
        /\ with_perm ino' (i_perm ino) = with_perm ino (i_perm ino))
  /\ (Z.land (i_perm ino) o7777 = Z.land (i_perm ino) kept -> s' = s)
  /\ Restoremod.restoreattr path false None s' = (s', Ok tt).
Proof.
  intros Hch kept s'. subst s'. rewrite (restoreattr_spec s path ino Hch).
  fold kept. pose proof Hch as (Hp & _).
  destruct (Z.eqb_spec (Z.land (i_perm ino) kept) (Z.land (i_perm ino) o7777))
    as [Heq | Hne]; cbn [fst snd].
  - split; [reflexivity |]. split; [| split; [reflexivity |]].
    + exists ino. rewrite perm_of_st_mode. auto.
    + rewrite (restoreattr_spec s path ino Hch). fold kept.
      apply Z.eqb_eq in Heq. now rewrite Heq.
  - split; [reflexivity |]. split; [| split; [congruence |]].
    + eexists. split; [apply lookup_insert_eq |]. split; [| reflexivity].
      rewrite perm_of_st_mode. cbn [i_perm with_perm].
      subst kept. destruct (i_kind ino); now rewrite <- Z.land_assoc.
    + rewrite (restoreattr_spec _ path _ (changeable_changed _ _ _ _ _ Hch)).
      cbn [i_kind i_perm with_perm].
      replace (Z.eqb _ _) with true; [reflexivity |].
      symmetry. apply Z.eqb_eq. fold kept.
      subst kept. destruct (i_kind ino); now rewrite <- !Z.land_assoc.
Qed.

(** The statement at the setuid file /dl/job/a.mkv. *)
Lemma restoreattr_sample :
  snd (Restoremod.restoreattr "/dl/job/a.mkv" false None Sample.system_setuid)
  = Ok tt
  /\ Restoremod.restoreattr "/dl/job/a.mkv" false None
       (fst (Restoremod.restoreattr "/dl/job/a.mkv" false None
               Sample.system_setuid))
     = (fst (Restoremod.restoreattr "/dl/job/a.mkv" false None
               Sample.system_setuid), Ok tt).
Proof.
  assert (H : changeable Sample.system_setuid "/dl/job/a.mkv"
                (Sample.regular (octal "4755")))
    by (repeat split; discriminate || reflexivity).
  destruct (restoreattr_clears_attribute_bits _ _ _ H) as (H1 & _ & _ & H4).
  split; [exact H1 | exact H4].
Defined.

Lemma land_S_ISGID_cases (m : Z) :
  Z.land m S_ISGID = 0 \/ Z.land m S_ISGID = S_ISGID.
Proof.
  change S_ISGID with (2 ^ 10).
  destruct (Z.testbit m 10) eqn:E; [right | left];
    apply Z.bits_inj'; intros n Hn;
    rewrite Z.land_spec, ?Z.bits_0, Z.pow2_bits_eqb by lia;
    destruct (Z.eqb_spec 10 n) as [<- |];
    rewrite ?E, ?andb_false_r; reflexivity.
Qed.

(** A property of the permission bits and of a setgid bit, checked on each
    value. *)
Lemma for_every_perm_and_setgid (f : Z -> Z -> bool) :
  forallb (fun r => f r 0 && f r S_ISGID) (map Z.of_nat (seq 0 4096)) = true ->
  forall q m, f (Z.land q o7777) (Z.land m S_ISGID) = true.
Proof.
  intros H q m.
  pose proof (for_every_perm (fun r => f r 0 && f r S_ISGID) H q) as Hq.
  cbv beta in Hq. apply andb_prop in Hq as [H0 H1].
  destruct (land_S_ISGID_cases m) as [-> | ->]; assumption.
Qed.

Lemma for_every_umask_and_setgid (f : Z -> Z -> bool) :
  forallb (fun u => f u 0 && f u S_ISGID) (map Z.of_nat (seq 0 512)) = true ->
  forall u m, 0 <= u <= o0777 -> f u (Z.land m S_ISGID) = true.
Proof.
  intros H u m Hu.
  pose proof (for_every_umask (fun u => f u 0 && f u S_ISGID) H u Hu) as Hq.
  cbv beta in Hq. apply andb_prop in Hq as [H0 H1].
  destruct (land_S_ISGID_cases m) as [-> | ->]; assumption.
Qed.

Lemma setgid_of_st_mode (ino : inode) :
  Z.land (st_mode ino) S_ISGID = Z.land (i_perm ino) S_ISGID.
Proof.
  unfold st_mode. rewrite Z.land_lor_distr_l, <- Z.land_assoc.
  replace (Z.land (ifmt (i_kind ino)) S_ISGID) with 0
    by (now destruct (i_kind ino)).
  now rewrite Z.lor_0_l.
Qed.

Lemma part_of_st_mode (ino : inode) (m : Z) :
  Z.land o7777 m = m -> Z.land (st_mode ino) m = Z.land (i_perm ino) m.
Proof.
  intros Hm. rewrite <- Hm, !Z.land_assoc, perm_of_st_mode. reflexivity.
Qed.

Lemma inherit_bits_within (q m : Z) :
  Z.land (Z.lor (Z.land q (octal "5777")) (Z.land m S_ISGID)) o7777
  = Z.lor (Z.land q (octal "5777")) (Z.land m S_ISGID).
Proof.
  replace (Z.land q (octal "5777"))
    with (Z.land (Z.land q o7777) (octal "5777"))
    by (now rewrite <- Z.land_assoc).
  apply Z.eqb_eq.
  apply (for_every_perm_and_setgid (fun r b =>
     Z.eqb (Z.land (Z.lor (Z.land r (octal "5777")) b) o7777)
           (Z.lor (Z.land r (octal "5777")) b))).
  vm_compute. reflexivity.
Qed.

(** What [inheritattr] does to a directory, with the default mask. *)
Lemma inheritattr_spec (s : sys) (path : string) (ino : inode) (mode : Z) :
  changeable s path ino -> i_kind ino = Directory ->
  let wanted := Z.lor (Z.land (i_perm ino) (octal "5777")) (Z.land mode S_ISGID) in
  Restoremod.inheritattr mode path None s
  = if Z.eqb wanted (Z.land (i_perm ino) o7777)
    then (s, Ok tt)
    else (changed s path (with_perm ino wanted) (Chmod path wanted), Ok tt).
Proof.
  intros Hch Hdir wanted. pose proof Hch as (Hp & Hk & _).
  unfold Restoremod.inheritattr, bind.
  rewrite (lstat_mode_spec _ _ _ Hp), S_ISDIR_st_mode, Hdir. cbn [negb].
  rewrite perm_of_st_mode.
  assert (Hbits : Z.land o7777
                    (Z.lor (Z.land (st_mode ino) (Z.lnot S_ISGID))
                           (Z.land mode S_ISGID)) = wanted).
  { subst wanted. unfold st_mode. rewrite Hdir.
    replace (Z.land (i_perm ino) (octal "5777"))
      with (Z.land (Z.land (i_perm ino) o7777) (octal "5777"))
      by (now rewrite <- Z.land_assoc).
    apply Z.eqb_eq.
    apply (for_every_perm_and_setgid (fun r b =>
       Z.eqb (Z.land o7777
                (Z.lor (Z.land (Z.lor (ifmt Directory) r) (Z.lnot S_ISGID)) b))
             (Z.lor (Z.land r (octal "5777")) b))).
    vm_compute. reflexivity. }
  rewrite Hbits.
  destruct (Z.eqb wanted (Z.land (i_perm ino) o7777)); cbn [negb];
    [reflexivity |].
  rewrite (os_chmod_spec _ _ _ _ Hch). subst wanted.
  now rewrite inherit_bits_within.
Qed.

(** X2. [inheritattr] gives a directory the process may change the setgid
    bit of [mode] (the destination directory's mode) and keeps its other
    permission bits; it issues no chmod when the bit is already as in
    [mode], and does nothing when run again. *)
Theorem inheritattr_inherits_setgid
    (s : sys) (path : string) (ino : inode) (mode : Z) :
  changeable s path ino -> i_kind ino = Directory ->
  let s' := fst (Restoremod.inheritattr mode path None s) in
  snd (Restoremod.inheritattr mode path None s) = Ok tt
  /\ (exists ino',
        fs s' !! path = Some ino'
        /\ Z.land (st_mode ino') S_ISGID = Z.land mode S_ISGID
        /\ Z.land (st_mode ino') (octal "5777")
           = Z.land (i_perm ino) (octal "5777")
        /\ with_perm ino' (i_perm ino) = with_perm ino (i_perm ino))
  /\ (Z.land (i_perm ino) S_ISGID = Z.land mode S_ISGID -> s' = s)
  /\ Restoremod.inheritattr mode path None s' = (s', Ok tt).
Proof.
  intros Hch Hdir s'. subst s'.
  rewrite (inheritattr_spec s path ino mode Hch Hdir).
  set (wanted := Z.lor (Z.land (i_perm ino) (octal "5777")) (Z.land mode S_ISGID)).
  assert (Hgid : Z.land wanted S_ISGID = Z.land mode S_ISGID).
  { subst wanted.
    replace (Z.land (i_perm ino) (octal "5777"))
      with (Z.land (Z.land (i_perm ino) o7777) (octal "5777"))
      by (now rewrite <- Z.land_assoc).
    apply Z.eqb_eq.
    apply (for_every_perm_and_setgid (fun r b =>
       Z.eqb (Z.land (Z.lor (Z.land r (octal "5777")) b) S_ISGID) b)).
    vm_compute. reflexivity. }
  assert (Hrest : Z.land wanted (octal "5777")
                  = Z.land (i_perm ino) (octal "5777")).
  { subst wanted.
    replace (Z.land (i_perm ino) (octal "5777"))
      with (Z.land (Z.land (i_perm ino) o7777) (octal "5777"))
      by (now rewrite <- Z.land_assoc).
    apply Z.eqb_eq.
    apply (for_every_perm_and_setgid (fun r b =>
       Z.eqb (Z.land (Z.lor (Z.land r (octal "5777")) b) (octal "5777"))
             (Z.land r (octal "5777")))).
    vm_compute. reflexivity. }
  assert (Hwithin : Z.land wanted o7777 = wanted)
    by apply inherit_bits_within.
  assert (Hsame : Z.land (i_perm ino) S_ISGID = Z.land mode S_ISGID ->
                  wanted = Z.land (i_perm ino) o7777).
  { intros H. subst wanted. rewrite <- H.
    replace (Z.land (i_perm ino) (octal "5777"))
      with (Z.land (Z.land (i_perm ino) o7777) (octal "5777"))
      by (now rewrite <- Z.land_assoc).
    replace (Z.land (i_perm ino) S_ISGID)
      with (Z.land (Z.land (i_perm ino) o7777) S_ISGID)
      by (now rewrite <- Z.land_assoc).
    apply Z.eqb_eq.
    apply (for_every_perm (fun r =>
       Z.eqb (Z.lor (Z.land r (octal "5777")) (Z.land r S_ISGID)) r)).
    vm_compute. reflexivity. }
  pose proof Hch as (Hp & _).
  destruct (Z.eqb_spec wanted (Z.land (i_perm ino) o7777)) as [Heq | Hne];
    cbn [fst snd].
  - split; [reflexivity |]. split; [| split; [reflexivity |]].
    + exists ino. split; [exact Hp |].
      rewrite setgid_of_st_mode, (part_of_st_mode ino (octal "5777")) by reflexivity.
      split; [| split; reflexivity].
      rewrite <- Hgid, Heq, <- Z.land_assoc. reflexivity.
    + rewrite (inheritattr_spec s path ino mode Hch Hdir). fold wanted.
      apply Z.eqb_eq in Heq. now rewrite Heq.
  - split; [reflexivity |]. split; [| split].
    + eexists. split; [apply lookup_insert_eq |].
      rewrite setgid_of_st_mode, (part_of_st_mode _ (octal "5777")) by reflexivity.
      cbn [i_perm with_perm]. auto.
    + intros H. now destruct Hne; apply Hsame.
    + rewrite (inheritattr_spec _ path _ mode
                 (changeable_changed _ _ _ _ _ Hch) Hdir).
      cbn [i_perm with_perm]. fold wanted. rewrite Hrest, Hwithin.
      fold wanted. now rewrite Z.eqb_refl.
Qed.

(** The statement at /dl/job/sub, which lacks the setgid bit of /dl/job. *)
Lemma inheritattr_sample :
  snd (Restoremod.inheritattr Sample.job_mode "/dl/job/sub" None
         Sample.system_022) = Ok tt
  /\ Restoremod.inheritattr Sample.job_mode "/dl/job/sub" None
       (fst (Restoremod.inheritattr Sample.job_mode "/dl/job/sub" None
               Sample.system_022))
     = (fst (Restoremod.inheritattr Sample.job_mode "/dl/job/sub" None
               Sample.system_022), Ok tt).
Proof.
  assert (H : changeable Sample.system_022 "/dl/job/sub"
                (Sample.directory (octal "0755") []))
    by (repeat split; discriminate || reflexivity).
  destruct (inheritattr_inherits_setgid _ _ _ Sample.job_mode H eq_refl)
    as (H1 & _ & _ & H4).
  split; [exact H1 | exact H4].
Defined.

(** X3. In the mode of the process umask, [restoremode] on a file the
    process may change (no link) leaves the umask of the process as it was
    and sets the permission bits: on a directory the access bits are 0o777
    without the umask bits, the setgid bit is kept, setuid and sticky are
    cleared; on another file, if the umask has no execute bit, the bits are
    0o666 without the umask bits. *)
Theorem restoremode_applies_umask (s : sys) (path : string) (ino : inode) :
  changeable s path ino ->
  0 <= umask s <= o0777 ->
  let s' := fst (Restoremod.restoremode path false (Some S_ISGID) s) in
  snd (Restoremod.restoremode path false (Some S_ISGID) s) = Ok tt
  /\ umask s' = umask s
  /\ exists ino',
       fs s' !! path = Some ino'
       /\ with_perm ino' (i_perm ino) = with_perm ino (i_perm ino)
       /\ (i_kind ino = Directory ->
           Z.land (st_mode ino') S_ISGID = Z.land (i_perm ino) S_ISGID
           /\ Z.land (st_mode ino') (octal "5777")
              = Z.land o0777 (Z.lnot (umask s)))
       /\ (i_kind ino <> Directory ->
           Z.land (umask s) (octal "0111") = 0 ->
           Z.land (st_mode ino') o7777 = Z.land o0666 (Z.lnot (umask s))).
Proof.
  intros Hch Hu s'. subst s'. pose proof Hch as (Hp & Hk & _).
  rewrite (restoremode_chmod s path ino Hp Hk Hu), (os_chmod_spec _ _ _ _ Hch).
  cbn [fst snd]. split; [reflexivity |]. split; [reflexivity |].
  eexists. split; [apply lookup_insert_eq |]. split; [reflexivity |].
  rewrite S_ISDIR_st_mode. split.
  - intros Hdir. rewrite Hdir, setgid_of_st_mode.
    rewrite (part_of_st_mode _ (octal "5777")) by reflexivity.
    cbn [i_perm with_perm]. rewrite setgid_of_st_mode.
    split; apply Z.eqb_eq.
    + apply (for_every_umask_and_setgid (fun u b =>
         Z.eqb (Z.land (Z.land (Z.lor (o0777 - u) b) o7777) S_ISGID) b));
        [vm_compute; reflexivity | exact Hu].
    + apply (for_every_umask_and_setgid (fun u b =>
         Z.eqb (Z.land (Z.land (Z.lor (o0777 - u) b) o7777) (octal "5777"))
               (Z.land o0777 (Z.lnot u))));
        [vm_compute; reflexivity | exact Hu].
  - intros Hnd Hx.
    replace (match i_kind ino with Directory => true | _ => false end) with false
      by (destruct (i_kind ino); congruence).
    rewrite perm_of_st_mode. cbn [i_perm with_perm].
    apply (o0666_minus_umask _ Hu) in Hx. rewrite Hx.
    rewrite <- !Z.land_assoc, Z.land_diag.
    rewrite (Z.land_comm (Z.lnot (umask s))), Z.land_assoc. reflexivity.
Qed.

(** The statement at the directory /dl/job/sub under the umask 0o022. *)
Lemma restoremode_sample :
  snd (Restoremod.restoremode "/dl/job/sub" false (Some S_ISGID)
         Sample.system_022) = Ok tt
  /\ umask (fst (Restoremod.restoremode "/dl/job/sub" false (Some S_ISGID)
                   Sample.system_022))
     = umask Sample.system_022.
Proof.
  assert (H : changeable Sample.system_022 "/dl/job/sub"
                (Sample.directory (octal "0755") []))
    by (repeat split; discriminate || reflexivity).
  assert (Hu : 0 <= umask Sample.system_022 <= o0777)
    by (vm_compute; split; discriminate).
  destruct (restoremode_applies_umask _ _ _ H Hu) as (H1 & H2 & _).
  split; [exact H1 | exact H2].
Defined.

(** ** Access control lists *)

Lemma changeable_after (s : sys) (path : string) (ino ino' : inode) (c : call) :
  changeable s path ino ->
  (forall target, i_kind ino' <> Symlink target) ->
  i_owned ino' = true ->
  changeable (changed s path ino' c) path ino'.
Proof.
  intros (Hp & Hk & Hro & Hown) Hk' Hown'. repeat split; try assumption.
  cbn. apply lookup_insert_eq.
Qed.

Lemma acl_applyto_access (s : sys) (path : string) (ino : inode)
    (acl : list acl_entry) :
  changeable s path ino ->
  acl_applyto acl path ACL_TYPE_ACCESS s
  = (changed s path (with_acl ino acl) (AclSet path ACL_TYPE_ACCESS acl), Ok tt).
Proof.
  intros Hch. unfold acl_applyto, bind, log_call.
  erewrite change_inode_spec; [reflexivity | | reflexivity].
  destruct Hch as (Hp & Hk & Hro & Hown). repeat split; assumption.
Qed.


Lemma acl_delete_default_spec (s : sys) (path : string) (ino : inode) :
  changeable s path ino ->
  acl_delete_default path s
  = (changed s path (with_dacl ino []) (AclDeleteDefault path), Ok tt).
Proof.
  intros Hch. unfold acl_delete_default, bind, log_call.
  erewrite change_inode_spec; [reflexivity | | reflexivity].
  destruct Hch as (Hp & Hk & Hro & Hown). repeat split; assumption.
Qed.



Lemma acl_has_extended_self (s : sys) (path : string) (ino : inode) :
  fs s !! path = Some ino ->
  (forall target, i_kind ino <> Symlink target) ->
  acl_has_extended path s
  = (s, Ok (existsb (fun e => negb (base_tag (tag_type e))) (i_acl ino)
            || match i_dacl ino with [] => false | _ => true end)).
Proof.
  intros Hp Hk. unfold acl_has_extended.
  now rewrite (resolve_self s path ino Hp Hk).
Qed.

(** X5. [discardeacl] on a file the process may change (no link) succeeds
    and leaves the file without extended ACL and without default ACL
    ([has_extended] is false afterwards), with its permission bits as they
    were; when pylibacl can check for extended ACLs and the file has none,
    it makes no call at all. *)
Theorem discardeacl_leaves_no_extended_acl
    (cfg : config) (s : sys) (path : string) (ino : inode) :
  changeable s path ino ->
  let s' := fst (Restoremod.discardeacl cfg path false s) in
  snd (Restoremod.discardeacl cfg path false s) = Ok tt
  /\ acl_has_extended path s' = (s', Ok false)
  /\ (exists ino',
        fs s' !! path = Some ino'
        /\ with_dacl (with_acl ino' []) [] = with_dacl (with_acl ino []) [])
  /\ (HAS_EXTENDED_CHECK cfg = true ->
      acl_has_extended path s = (s, Ok false) -> s' = s).
Proof.
  intros Hch s'. subst s'. pose proof Hch as (Hp & Hk & Hro & Hown).
  unfold Restoremod.discardeacl, bind, os_path_islink. rewrite Hp.
  replace (match i_kind ino with Symlink _ => true | _ => false end) with false
    by (destruct (i_kind ino) eqn:E; try reflexivity; now destruct (Hk target)).
  cbn [andb].
  assert (Hgone :
    (acl_applyto [] path ACL_TYPE_ACCESS ;;; acl_delete_default path) s
    = (changed (changed s path (with_acl ino []) (AclSet path ACL_TYPE_ACCESS []))
         path (with_dacl (with_acl ino []) []) (AclDeleteDefault path), Ok tt)).
  { unfold bind. rewrite (acl_applyto_access _ _ _ _ Hch).
    now rewrite (acl_delete_default_spec _ path (with_acl ino []))
      by (apply (changeable_after _ _ _ _ _ Hch); assumption). }
  unfold bind in Hgone.
  assert (Hafter : forall s0 c,
            acl_has_extended path
              (changed s0 path (with_dacl (with_acl ino []) []) c)
            = (changed s0 path (with_dacl (with_acl ino []) []) c, Ok false)).
  { intros s0 c. rewrite (acl_has_extended_self _ path
                            (with_dacl (with_acl ino []) []));
      [reflexivity | apply lookup_insert_eq | exact Hk]. }
  destruct (HAS_EXTENDED_CHECK cfg) eqn:Hcheck.
  - rewrite (acl_has_extended_self s path ino Hp Hk). cbn [ret].
    destruct (existsb _ (i_acl ino) || _)%bool eqn:Hext; cbn [negb].
    + rewrite Hgone. cbn [fst snd]. split; [reflexivity |].
      split; [apply Hafter |]. split.
      * eexists. split; [apply lookup_insert_eq | reflexivity].
      * intros _ H. discriminate.
    + unfold ret. cbn [fst snd]. split; [reflexivity |].
      split; [now rewrite (acl_has_extended_self s path ino Hp Hk), Hext |].
      split; [| reflexivity]. exists ino. auto.
  - cbn [ret]. rewrite Hgone. cbn [fst snd]. split; [reflexivity |].
    split; [apply Hafter |]. split; [| discriminate].
    eexists. split; [apply lookup_insert_eq | reflexivity].
Qed.

(** The statement at the job directory with its default ACL. *)
Lemma discardeacl_sample :
  snd (Restoremod.discardeacl (Sample.setup Sample.env_ok true) "/dl/job" false
         Sample.system_dacl) = Ok tt
  /\ acl_has_extended "/dl/job"
       (fst (Restoremod.discardeacl (Sample.setup Sample.env_ok true) "/dl/job"
               false Sample.system_dacl))
     = (fst (Restoremod.discardeacl (Sample.setup Sample.env_ok true) "/dl/job"
               false Sample.system_dacl), Ok false).
Proof.
  assert (H : changeable Sample.system_dacl "/dl/job"
                (Sample.directory (octal "2755") Sample.dacl_755))
    by (repeat split; discriminate || reflexivity).
  destruct (discardeacl_leaves_no_extended_acl
              (Sample.setup Sample.env_ok true) _ _ _ H) as (H1 & H2 & _).
  split; [exact H1 | exact H2].
Defined.

(** ** Logging *)

Lemma rstrip_blank (s : string) :
  forallb is_space (list_ascii_of_string s) = true -> rstrip s = EmptyString.
Proof.
  induction s as [|c s IH]; [reflexivity |]. cbn [list_ascii_of_string forallb].
  intros H. apply andb_prop in H as [Hc Hs]. cbn [rstrip].
  now rewrite (IH Hs), Hc.
Qed.

Lemma splitlines_lines_upto (n : nat) (s : string) :
  (String.length s <= n)%nat ->
  Forall (fun line => one_line line = true) (splitlines s).
Proof.
  revert s. induction n as [|n IH]; intros [|c s] Hlen; try constructor;
    cbn [String.length] in Hlen; [lia |].
  cbn [splitlines].
  assert (Hs : Forall (fun line => one_line line = true) (splitlines s))
    by (apply IH; lia).
  destruct (is_linebreak c) eqn:Hc.
  - destruct s as [|c' s']; [repeat constructor |].
    destruct (_ && _)%bool; constructor; try reflexivity; [| exact Hs].
    apply IH. cbn [String.length] in Hlen. lia.
  - destruct (splitlines s) as [|l ls]; constructor.
    + cbn [one_line]. now rewrite Hc.
    + constructor.
    + apply Forall_inv in Hs. cbn [one_line]. now rewrite Hc, Hs.
    + now apply Forall_inv_tail in Hs.
Qed.

Lemma splitlines_lines (s : string) :
  Forall (fun line => one_line line = true) (splitlines s).
Proof. apply (splitlines_lines_upto (String.length s)). lia. Qed.

Lemma one_line_upper (s : string) : one_line (upper s) = one_line s.
Proof.
  induction s as [|c s IH]; [reflexivity |]. cbn [upper one_line]. rewrite IH.
  f_equal. f_equal. unfold upper_ascii.
  destruct ((97 <=? nat_of_ascii c)%nat && (nat_of_ascii c <=? 122)%nat) eqn:E;
    [| reflexivity].
  apply andb_prop in E as [Hlo Hhi].
  apply Nat.leb_le in Hlo, Hhi. unfold is_linebreak.
  rewrite nat_ascii_embedding by lia.
  repeat match goal with
         | |- context [(?a <=? ?b)%nat] =>
             destruct (Nat.leb_spec a b); try lia
         | |- context [(?a =? ?b)%nat] =>
             destruct (Nat.eqb_spec a b); try lia
         end; reflexivity.
Qed.

(** X6. What [nzbget_log] prints for a text: nothing but lines, so the
    system and the record of calls stay as they were; every printed line
    starts with the level in capitals between brackets, a blank and the
    prefix, and holds no line boundary when the prefix holds none; and a
    message of white space only (the empty message too) prints nothing. *)
Theorem nzbget_log_prints_tagged_lines
    (level : NZBGetLogLevel) (message pre : string) (p : proc) :
  nzbget_log level (PyStr message) pre p
  = (add_lines p (log_lines level message pre), Ok tt)
  /\ Forall (fun line =>
               String.prefix ("[" +:+ upper (name level) +:+ "] " +:+ pre) line
               = true
               /\ (one_line pre = true -> one_line line = true))
            (log_lines level message pre)
  /\ (forallb is_space (list_ascii_of_string message) = true ->
      log_lines level message pre = []).
Proof.
  split; [apply nzbget_log_spec |]. split.
  - unfold log_lines. apply Forall_map.
    eapply List.Forall_impl; [| apply splitlines_lines].
    intros line Hline. cbv beta. rewrite format_log. split.
    + replace ("[" +:+ upper (name level) +:+ "] " +:+ pre +:+ line)
        with (("[" +:+ upper (name level) +:+ "] " +:+ pre) +:+ line)
        by (cbn; now rewrite !append_assoc).
      apply prefix_app.
    + intros Hpre.
      change ("[" +:+ upper (name level) +:+ "] " +:+ pre +:+ line)
        with ("[" +:+ (upper (name level) +:+ "] " +:+ pre +:+ line)).
      rewrite !one_line_app, one_line_upper, Hpre, Hline.
      now destruct level.
  - intros Hblank. unfold log_lines. now rewrite (rstrip_blank _ Hblank).
Qed.

(** The statement at a message of blanks. *)
Lemma nzbget_log_sample : log_lines info "   " EmptyString = [].
Proof.
  apply (nzbget_log_prints_tagged_lines info "   " EmptyString
           (start Sample.system_022)).
  reflexivity.
Defined.

Lemma format_variable (key version : string) :
  String.eqb version EmptyString = false ->
  format (nzbget_variable_msg (Some version)) [Some key; Some version]
  = ("Variable " +:+ dq +:+ key +:+ dq
     +:+ " required, please upgrade NZBGet to version " +:+ version)
    +:+ " or later".
Proof.
  intros Hv. unfold nzbget_variable_msg, truthy. rewrite Hv. cbn [negb].
  cbn. now rewrite ?append_assoc.
Qed.

(** X7. [nzbget_variable] with a minimum version: a variable that is set is
    returned and nothing is printed; for one that is not set the script
    prints the error line that names the variable and the version (one line
    when neither holds a line boundary) and exits with 94. *)
Theorem nzbget_variable_with_version
    (cfg : config) (key version : string) (p : proc) :
  String.eqb version EmptyString = false ->
  (forall v, environ cfg !! key = Some v ->
             nzbget_variable cfg key (Some version) p = (p, Ok v))
  /\ (environ cfg !! key = None ->
      one_line key = true -> one_line version = true ->
      nzbget_variable cfg key (Some version) p
      = (add_lines p
           ["[ERROR] Variable " +:+ dq +:+ key +:+ dq
            +:+ " required, please upgrade NZBGet to version " +:+ version
            +:+ " or later"],
         Raise (SystemExit 94))).
Proof.
  intros Hv. split; [intros v; apply nzbget_variable_set |].
  intros Hnone Hkey Hver. rewrite (nzbget_variable_unset _ _ _ _ Hnone).
  rewrite (format_variable _ _ Hv), log_lines_single.
  - cbn. now rewrite !append_assoc.
  - discriminate.
  - reflexivity.
  - rewrite !one_line_app, Hkey, Hver. reflexivity.
Qed.

(** The statement at an empty environment. *)
Lemma nzbget_variable_sample :
  nzbget_variable (Sample.setup ∅ true) "NZBPP_TOTALSTATUS" (Some "13.0")
    (start Sample.system_022)
  = (add_lines (start Sample.system_022)
       ["[ERROR] Variable " +:+ dq +:+ "NZBPP_TOTALSTATUS" +:+ dq
        +:+ " required, please upgrade NZBGet to version " +:+ "13.0"
        +:+ " or later"],
     Raise (SystemExit 94)).
Proof.
  apply (nzbget_variable_with_version (Sample.setup ∅ true) "NZBPP_TOTALSTATUS"
           "13.0" (start Sample.system_022)); reflexivity.
Defined.

(** ** SELinux contexts, continued *)

(** X8. The wrapper [matchpathcon] changes nothing and tells a path without
    default context from a path that does not exist: with a context in the
    policy it returns the context; without one it raises LabelNotFoundError
    when the path exists (following links) and FileNotFoundError when it
    does not. *)
Theorem matchpathcon_tells_missing_label_from_missing_path
    (cfg : config) (path : string) (mode : Z) (s : sys) :
  fst (Restorecon.matchpathcon cfg path mode s) = s
  /\ (forall context,
        policy cfg path mode = Some context ->
        snd (Restorecon.matchpathcon cfg path mode s) = Ok context)
  /\ (policy cfg path mode = None ->
      snd (Restorecon.matchpathcon cfg path mode s)
      = Raise (match snd (os_path_exists path s) with
               | Ok true => LabelNotFoundError
               | _ => FileNotFoundError
               end)).
Proof.
  unfold Restorecon.matchpathcon, try_except, bind, selinux_matchpathcon.
  destruct (policy cfg path mode) as [context|].
  - cbn. split; [reflexivity |]. split; [| discriminate].
    now intros c [= ->].
  - cbn [raise is_FileNotFoundError]. unfold os_path_exists.
    destruct (resolve (fs s) MAXSYMLINKS path) as [[found ino]|e]; cbn;
      (split; [reflexivity |]); (split; [discriminate | reflexivity]).
Qed.

(** The statement at a policy without context for the path. *)
Lemma matchpathcon_sample :
  snd (Restorecon.matchpathcon Sample.setup_no_policy "/dl/job/a.mkv"
         (octal "0100777") Sample.system_022)
  = Raise LabelNotFoundError.
Proof.
  apply (matchpathcon_tells_missing_label_from_missing_path
           Sample.setup_no_policy "/dl/job/a.mkv" (octal "0100777")
           Sample.system_022).
  reflexivity.
Defined.

Lemma selinux_lsetfilecon_spec (s : sys) (path context : string) (ino : inode) :
  fs s !! path = Some ino -> mounted_ro s = false -> i_owned ino = true ->
  selinux_lsetfilecon path context s
  = (changed s path (with_context ino context) (SetFileCon path context), Ok tt).
Proof.
  intros Hp Hro Hown. unfold selinux_lsetfilecon, bind, log_call, change_inode.
  cbn [fs mounted_ro]. unfold changed. now rewrite Hp, Hro, Hown.
Qed.

(** X9. [restorecon_single] on a labelled file the process may relabel, for
    which the policy has a default context: the file itself (a link is not
    followed) gets that context, nothing else of it and no other file
    changes, [lgetfilecon] then returns the context, and a second run leaves
    every file as the first run left it. *)
Theorem restorecon_single_sets_default_context
    (cfg : config) (s : sys) (path : string) (ino : inode) (old new : string) :
  fs s !! path = Some ino ->
  mounted_ro s = false ->
  i_owned ino = true ->
  i_context ino = Some old ->
  policy cfg path (st_mode ino) = Some new ->
  let s' := fst (Restorecon.restorecon_single cfg path s) in
  Restorecon.restorecon_single cfg path s
  = (changed s path (with_context ino new) (SetFileCon path new), Ok tt)
  /\ selinux_lgetfilecon path s'
     = (s', Ok (PyList [PyInt (Z.of_nat (String.length new)); PyStr new]))
  /\ snd (Restorecon.restorecon_single cfg path s') = Ok tt
  /\ fs (fst (Restorecon.restorecon_single cfg path s')) = fs s'.
Proof.
  intros Hp Hro Hown Hold Hnew s'.
  assert (Hrun : Restorecon.restorecon_single cfg path s
                 = (changed s path (with_context ino new) (SetFileCon path new),
                    Ok tt)).
  { rewrite (restorecon_single_always_sets cfg s path ino old new Hp Hold Hnew).
    now apply selinux_lsetfilecon_spec. }
  subst s'. rewrite Hrun. cbn [fst].
  assert (Hp' : fs (changed s path (with_context ino new) (SetFileCon path new))
                !! path = Some (with_context ino new))
    by apply lookup_insert_eq.
  split; [reflexivity |]. split.
  { unfold selinux_lgetfilecon. now rewrite Hp'. }
  rewrite (restorecon_single_always_sets cfg _ path (with_context ino new)
             new new Hp' eq_refl Hnew).
  unfold Restorecon.lsetfilecon.
  rewrite (selinux_lsetfilecon_spec _ path new (with_context ino new) Hp' Hro Hown).
  cbn [fst snd fs changed]. split; [reflexivity |].
  now rewrite insert_insert_eq.
Qed.

(** The statement at the link /dl/job/latest. *)
Lemma restorecon_single_sample :
  Restorecon.restorecon_single Sample.setup_other_context "/dl/job/latest"
    Sample.system_022
  = (changed Sample.system_022 "/dl/job/latest"
       (with_context (Sample.link "/dl/job/a.mkv")
          "system_u:object_r:user_home_t:s0")
       (SetFileCon "/dl/job/latest" "system_u:object_r:user_home_t:s0"),
     Ok tt).
Proof.
  refine (proj1 (restorecon_single_sets_default_context
                   Sample.setup_other_context Sample.system_022 "/dl/job/latest"
                   (Sample.link "/dl/job/a.mkv")
                   "system_u:object_r:public_content_t:s0"
                   "system_u:object_r:user_home_t:s0" _ _ _ _ _));
    reflexivity.
Defined.

(** ** The loop, continued *)

Lemma format_not_found (path : string) :
  format msg_not_found [Some path]
  = ("Expected path " +:+ dq +:+ path) +:+ dq +:+ " does not exist, aborting.".
Proof. reflexivity. Qed.

Lemma format_no_label (path : string) :
  format Restorecon.msg_no_label [Some path]
  = ("No default SELinux context for " +:+ dq +:+ path) +:+ dq +:+ ", skipping.".
Proof. reflexivity. Qed.

Lemma lstat_mode_missing (s : sys) (path : string) :
  fs s !! path = None -> os_lstat_mode path s = (s, Raise FileNotFoundError).
Proof. intros H. unfold os_lstat_mode. now rewrite H. Qed.

Lemma matchpathcon_no_policy (cfg : config) (path : string) (mode : Z) (s : sys) :
  policy cfg path mode = None ->
  fst (Restorecon.matchpathcon cfg path mode s) = s
  /\ snd (Restorecon.matchpathcon cfg path mode s)
     = Raise (match snd (os_path_exists path s) with
              | Ok true => LabelNotFoundError
              | _ => FileNotFoundError
              end).
Proof.
  intros Hpol.
  unfold Restorecon.matchpathcon, try_except, bind, selinux_matchpathcon.
  rewrite Hpol. cbn [raise is_FileNotFoundError]. unfold os_path_exists.
  destruct (resolve (fs s) MAXSYMLINKS path) as [[found ino]|e]; cbn;
    split; reflexivity.
Qed.

(** X10. A walked path that no longer exists when its turn comes ends the
    run: the per-path operation of either mode of the permission script, and
    of the SELinux script (if the canonical path is missing too), raises
    FileNotFoundError without changing anything; the script logs the error
    [Expected path "<path>" does not exist, aborting.] (one line when the
    path holds no line boundary) and exits with 94, the remaining paths
    untouched. *)
Theorem vanished_path_aborts_the_run
    (cfg : config) (p : proc) (path : string) (rest : list event) :
  fs (world p) !! path = None ->
  let aborted :=
    (after_call p (world p) path (Raise FileNotFoundError)
       (log_lines error (format msg_not_found [Some path]) EmptyString),
     Raise (SystemExit 94)) in
  (forall mode,
     for_path_in (Yield path :: rest)
       (Restoremod.attempt (Restoremod.restore_from_ps cfg mode)) p = aborted)
  /\ (forall acl mode,
        for_path_in (Yield path :: rest)
          (Restoremod.attempt (Restoremod.restore_from_fs acl mode)) p = aborted)
  /\ (fs (world p) !! realpath cfg (expanduser cfg path) = None ->
      for_path_in (Yield path :: rest) (Restorecon.attempt cfg) p = aborted)
  /\ (one_line path = true ->
      log_lines error (format msg_not_found [Some path]) EmptyString
      = ["[ERROR] Expected path " +:+ dq +:+ path +:+ dq
         +:+ " does not exist, aborting."]).
Proof.
  intros Hp aborted.
  assert (Hps : forall mode, Restoremod.restore_from_ps cfg mode path (world p)
                             = (world p, Raise FileNotFoundError)).
  { intros mode. unfold Restoremod.restore_from_ps, Restoremod.restoremode, bind.
    now rewrite (lstat_mode_missing _ _ Hp). }
  assert (Hfs : forall acl mode,
            Restoremod.restore_from_fs acl mode path (world p)
            = (world p, Raise FileNotFoundError)).
  { intros acl mode.
    unfold Restoremod.restore_from_fs, Restoremod.restoreattr, bind.
    now rewrite (lstat_mode_missing _ _ Hp). }
  split; [| split; [| split]].
  - intros mode. cbn [for_path_in]. unfold bind.
    now rewrite attempt_mod, Hps.
  - intros acl mode. cbn [for_path_in]. unfold bind.
    now rewrite attempt_mod, Hfs.
  - intros Hreal. cbn [for_path_in]. unfold bind. rewrite attempt_con.
    unfold Restorecon.restorecon_single, bind at 1, try_except, bind.
    rewrite (lstat_mode_missing _ _ Hp). cbn [fst snd is_FileNotFoundError].
    now rewrite (lstat_mode_missing _ _ Hreal).
  - intros Hone. rewrite format_not_found, log_lines_single;
      try reflexivity; try discriminate.
    rewrite !one_line_app, Hone. reflexivity.
Qed.

(** The statement at a path that is not in the sample system. *)
Lemma vanished_path_sample :
  for_path_in [Yield "/dl/job/gone"; Yield "/dl/job/a.mkv"]
    (Restoremod.attempt
       (Restoremod.restore_from_ps (Sample.setup Sample.env_ok true)
          Sample.job_mode))
    (start Sample.system_022)
  = (after_call (start Sample.system_022) Sample.system_022 "/dl/job/gone"
       (Raise FileNotFoundError)
       (log_lines error (format msg_not_found [Some "/dl/job/gone"]) EmptyString),
     Raise (SystemExit 94)).
Proof.
  refine (proj1 (vanished_path_aborts_the_run (Sample.setup Sample.env_ok true)
                   (start Sample.system_022) "/dl/job/gone"
                   [Yield "/dl/job/a.mkv"] _) Sample.job_mode).
  reflexivity.
Defined.

(** X11. In the SELinux script a walked path for which the policy has no
    default context is skipped when it exists: nothing is changed, the
    warning [No default SELinux context for "<path>", skipping.] is logged
    (one line when the path holds no line boundary) and the loop goes on.
    A dangling symbolic link without default context instead ends the run
    as a missing path does, with exit code 94. *)
Theorem path_without_default_context
    (cfg : config) (p : proc) (path : string) (ino : inode) (rest : list event) :
  fs (world p) !! path = Some ino ->
  policy cfg path (st_mode ino) = None ->
  ((forall target, i_kind ino <> Symlink target) ->
   for_path_in (Yield path :: rest) (Restorecon.attempt cfg) p
   = for_path_in rest (Restorecon.attempt cfg)
       (after_call p (world p) path (Raise LabelNotFoundError)
          (log_lines warning (format Restorecon.msg_no_label [Some path])
             EmptyString)))
  /\ (forall target,
        i_kind ino = Symlink target -> fs (world p) !! target = None ->
        for_path_in (Yield path :: rest) (Restorecon.attempt cfg) p
        = (after_call p (world p) path (Raise FileNotFoundError)
             (log_lines error (format msg_not_found [Some path]) EmptyString),
           Raise (SystemExit 94)))
  /\ (one_line path = true ->
      log_lines warning (format Restorecon.msg_no_label [Some path]) EmptyString
      = ["[WARNING] No default SELinux context for " +:+ dq +:+ path +:+ dq
         +:+ ", skipping."]).
Proof.
  intros Hp Hpol.
  assert (Hrun : forall b,
            snd (os_path_exists path (world p)) = Ok b ->
            Restorecon.restorecon_single cfg path (world p)
            = (world p, Raise (if b then LabelNotFoundError
                               else FileNotFoundError))).
  { intros b Hb.
    pose proof (matchpathcon_no_policy cfg path (st_mode ino) (world p) Hpol)
      as (H1 & H3).
    rewrite Hb in H3.
    unfold Restorecon.restorecon_single, bind at 1, try_except, bind at 1.
    rewrite (lstat_mode_spec _ _ _ Hp). cbn [ret fst snd]. unfold bind.
    destruct (Restorecon.matchpathcon cfg path (st_mode ino) (world p))
      as [s' r]. cbn [fst snd] in *. subst s' r. now destruct b. }
  split; [| split].
  - intros Hk. cbn [for_path_in]. unfold bind at 1.
    rewrite attempt_con, (Hrun true); [reflexivity |].
    unfold os_path_exists. now rewrite (resolve_self _ _ _ Hp Hk).
  - intros target Hk Htarget. cbn [for_path_in]. unfold bind at 1.
    rewrite attempt_con, (Hrun false); [reflexivity |].
    unfold os_path_exists. cbn [resolve MAXSYMLINKS].
    now rewrite Hp, Hk, Htarget.
  - intros Hone. rewrite format_no_label, log_lines_single;
      try reflexivity; try discriminate.
    rewrite !one_line_app, Hone. reflexivity.
Qed.

(** The statement at the file /dl/job/a.mkv under a policy without
    contexts. *)
Lemma path_without_default_context_sample :
  for_path_in [Yield "/dl/job/a.mkv"] (Restorecon.attempt Sample.setup_no_policy)
    (start Sample.system_022)
  = for_path_in [] (Restorecon.attempt Sample.setup_no_policy)
      (after_call (start Sample.system_022) Sample.system_022 "/dl/job/a.mkv"
         (Raise LabelNotFoundError)
         (log_lines warning
            (format Restorecon.msg_no_label [Some "/dl/job/a.mkv"]) EmptyString)).
Proof.
  refine (proj1 (path_without_default_context Sample.setup_no_policy
                   (start Sample.system_022) "/dl/job/a.mkv"
                   (Sample.regular (octal "0777")) [] _ _) _).
  - reflexivity.
  - reflexivity.
  - discriminate.
Defined.

Section Quiet.

(** A loop body whose effect on the system, on the record of calls and
    whose result do not depend on what was printed before. *)
Variable body : string -> M proc unit.

Hypothesis body_blind : forall path p1 p2,
  world p1 = world p2 -> applied p1 = applied p2 ->
  world (fst (body path p1)) = world (fst (body path p2))
  /\ applied (fst (body path p1)) = applied (fst (body path p2))
  /\ snd (body path p1) = snd (body path p2).

Lemma loop_without_walk_errors (events : list event) (p1 p2 : proc) :
  world p1 = world p2 -> applied p1 = applied p2 ->
  world (fst (for_path_in events body p1))
  = world (fst (for_path_in (yields_only events) body p2))
  /\ applied (fst (for_path_in events body p1))
     = applied (fst (for_path_in (yields_only events) body p2))
  /\ snd (for_path_in events body p1)
     = snd (for_path_in (yields_only events) body p2).
Proof.
  revert p1 p2. induction events as [|[path|text] rest IH]; intros p1 p2 Hw Ha.
  - cbn. auto.
  - change (yields_only (Yield path :: rest)) with (Yield path :: yields_only rest).
    cbn [for_path_in]. unfold bind.
    destruct (body_blind path p1 p2 Hw Ha) as (Hw' & Ha' & Hr').
    destruct (body path p1) as [q1 r1], (body path p2) as [q2 r2].
    cbn [fst snd] in *. subst r2. destruct r1; [now apply IH | auto].
  - change (yields_only (OnError text :: rest)) with (yields_only rest).
    cbn [for_path_in]. unfold bind, descendants_handler.
    rewrite nzbget_log_spec. apply IH; assumption.
Qed.

End Quiet.

Lemma attempt_mod_blind (restore : string -> M sys unit) path p1 p2 :
  world p1 = world p2 -> applied p1 = applied p2 ->
  world (fst (Restoremod.attempt restore path p1))
  = world (fst (Restoremod.attempt restore path p2))
  /\ applied (fst (Restoremod.attempt restore path p1))
     = applied (fst (Restoremod.attempt restore path p2))
  /\ snd (Restoremod.attempt restore path p1)
     = snd (Restoremod.attempt restore path p2).
Proof.
  intros Hw Ha. rewrite !attempt_mod, Hw.
  destruct (restore path (world p2)) as [w [[]|e]]; cbn; rewrite ?Ha; auto.
  destruct (is_FileNotFoundError e), (is_PermissionError e), (is_Exception e);
    cbn; rewrite ?Ha; auto.
Qed.

Lemma attempt_con_blind (cfg : config) path p1 p2 :
  world p1 = world p2 -> applied p1 = applied p2 ->
  world (fst (Restorecon.attempt cfg path p1))
  = world (fst (Restorecon.attempt cfg path p2))
  /\ applied (fst (Restorecon.attempt cfg path p1))
     = applied (fst (Restorecon.attempt cfg path p2))
  /\ snd (Restorecon.attempt cfg path p1)
     = snd (Restorecon.attempt cfg path p2).
Proof.
  intros Hw Ha. rewrite !attempt_con, Hw.
  destruct (Restorecon.restorecon_single cfg path (world p2)) as [w [[]|e]];
    cbn; rewrite ?Ha; auto.
  destruct (is_FileNotFoundError e), (is_LabelNotFoundError e),
    (is_PermissionError e), (is_Exception e); cbn; rewrite ?Ha; auto.
Qed.

(** X12. The errors [os.walk] reports while the tree is walked reach the
    log only: a loop of either script ends with the same result, the same
    system state and the same per-path calls as the loop over the yielded
    paths alone. *)
Theorem walk_errors_reach_the_log_only
    (cfg : config) (restore : string -> M sys unit) (events : list event)
    (p : proc) :
  (world (fst (for_path_in events (Restoremod.attempt restore) p))
   = world (fst (for_path_in (yields_only events) (Restoremod.attempt restore) p))
   /\ applied (fst (for_path_in events (Restoremod.attempt restore) p))
      = applied (fst (for_path_in (yields_only events)
                        (Restoremod.attempt restore) p))
   /\ snd (for_path_in events (Restoremod.attempt restore) p)
      = snd (for_path_in (yields_only events) (Restoremod.attempt restore) p))
  /\ (world (fst (for_path_in events (Restorecon.attempt cfg) p))
      = world (fst (for_path_in (yields_only events) (Restorecon.attempt cfg) p))
      /\ applied (fst (for_path_in events (Restorecon.attempt cfg) p))
         = applied (fst (for_path_in (yields_only events)
                           (Restorecon.attempt cfg) p))
      /\ snd (for_path_in events (Restorecon.attempt cfg) p)
         = snd (for_path_in (yields_only events) (Restorecon.attempt cfg) p)).
Proof.
  split.
  - apply (loop_without_walk_errors _ (attempt_mod_blind restore)); reflexivity.
  - apply (loop_without_walk_errors _ (attempt_con_blind cfg)); reflexivity.
Qed.

(** ** What a run leaves alone *)

Lemma same_files (path : string) (s s' : sys) :
  fs s' = fs s -> mounted_ro s' = mounted_ro s ->
  Z.land (umask s') o0777 = Z.land (umask s) o0777 ->
  only_at path s s'.
Proof.
  intros Hf Hr Hu. unfold only_at. rewrite Hf, Hr, Hu.
  split; [intros q _; reflexivity | repeat split].
Qed.

Lemma only_at_refl (path : string) (s : sys) : only_at path s s.
Proof. now apply same_files. Qed.

Lemma only_at_trans (path : string) (s1 s2 s3 : sys) :
  only_at path s1 s2 -> only_at path s2 s3 -> only_at path s1 s3.
Proof.
  intros (A1 & B1 & C1 & D1 & E1) (A2 & B2 & C2 & D2 & E2).
  split; [intros q Hq; rewrite (A2 q Hq); now apply A1 |].
  repeat split; congruence.
Qed.

Lemma only_at_no_link (path : string) (s s' : sys) :
  only_at path s s' -> no_link path s -> no_link path s'.
Proof.
  intros (_ & Hk & _) Hn ino target Hp. rewrite Hp in Hk.
  destruct (fs s !! path) as [ino0|] eqn:E; [| discriminate].
  injection Hk as Hk. rewrite Hk. now apply Hn.
Qed.

Lemma confined_same {A} (path : string) (m : M sys A) :
  (forall s, fs (fst (m s)) = fs s /\ mounted_ro (fst (m s)) = mounted_ro s
             /\ Z.land (umask (fst (m s))) o0777 = Z.land (umask s) o0777) ->
  confined_to path m.
Proof. intros H s _. destruct (H s) as (Hf & Hr & Hu). now apply same_files. Qed.

Lemma confined_ret {A} (path : string) (a : A) : confined_to path (ret a).
Proof. apply confined_same. now intros s. Qed.

Lemma confined_bind {A B} (path : string) (m : M sys A) (k : A -> M sys B) :
  confined_to path m -> (forall a, confined_to path (k a)) ->
  confined_to path (bind m k).
Proof.
  intros Hm Hk s Hs. unfold bind. specialize (Hm s Hs).
  destruct (m s) as [s' [a|e]]; cbn [fst] in *; [| exact Hm].
  apply only_at_trans with s'; [exact Hm |].
  apply Hk. now apply only_at_no_link with s.
Qed.

Lemma confined_lstat (path q : string) : confined_to path (os_lstat_mode q).
Proof.
  apply confined_same. intros s. unfold os_lstat_mode.
  now destruct (fs s !! q).
Qed.

Lemma confined_stat (path q : string) : confined_to path (os_stat_mode q).
Proof.
  apply confined_same. intros s. unfold os_stat_mode.
  now destruct (resolve (fs s) MAXSYMLINKS q) as [[found ino]|e].
Qed.

Lemma confined_islink (path q : string) : confined_to path (os_path_islink q).
Proof.
  apply confined_same. intros s. unfold os_path_islink.
  now destruct (fs s !! q).
Qed.

Lemma confined_has_extended (path q : string) :
  confined_to path (acl_has_extended q).
Proof.
  apply confined_same. intros s. unfold acl_has_extended.
  now destruct (resolve (fs s) MAXSYMLINKS q) as [[found ino]|e].
Qed.

Lemma confined_log_call (path : string) (c : call) : confined_to path (log_call c).
Proof. apply confined_same. now intros s. Qed.

Lemma umask_get_umask (s : sys) :
  fs (fst (Restoremod.umask_get s)) = fs s
  /\ mounted_ro (fst (Restoremod.umask_get s)) = mounted_ro s
  /\ Z.land (umask (fst (Restoremod.umask_get s))) o0777 = Z.land (umask s) o0777.
Proof.
  unfold Restoremod.umask_get, bind, os_umask, ret. cbn.
  repeat split. now rewrite <- Z.land_assoc, Z.land_diag.
Qed.

Lemma confined_umask_get (path : string) : confined_to path Restoremod.umask_get.
Proof. apply confined_same, umask_get_umask. Qed.

(** A change of the file a path names, not following links or with no link
    to follow, stays at the path. *)
Lemma change_inode_at (follow : bool) (path : string)
    (change : inode -> result inode) (s : sys) :
  (follow = true -> no_link path s) ->
  (forall ino ino', change ino = Ok ino' ->
                    i_kind ino' = i_kind ino /\ i_owned ino' = i_owned ino) ->
  only_at path s (fst (change_inode follow path change s)).
Proof.
  intros Hn Hch. unfold change_inode.
  assert (Hres : (if follow then resolve (fs s) MAXSYMLINKS path
                  else match fs s !! path with
                       | Some ino => Ok (path, ino)
                       | None => Raise FileNotFoundError
                       end)
                 = match fs s !! path with
                   | Some ino => Ok (path, ino)
                   | None => Raise FileNotFoundError
                   end).
  { destruct follow; [| reflexivity]. cbn [resolve MAXSYMLINKS].
    destruct (fs s !! path) as [ino|] eqn:E; [| reflexivity].
    destruct (i_kind ino) eqn:K; try reflexivity.
    now destruct (Hn eq_refl ino target E). }
  rewrite Hres. destruct (fs s !! path) as [ino|] eqn:E; [| apply only_at_refl].
  destruct (mounted_ro s) eqn:Hro; [apply only_at_refl |].
  destruct (negb (i_owned ino)); [apply only_at_refl |].
  destruct (change ino) as [ino'|e] eqn:C; [| apply only_at_refl].
  destruct (Hch ino ino' C) as [Hk Ho]. cbn [fst].
  unfold only_at, set_fs. cbn [fs mounted_ro umask].
  rewrite lookup_insert_eq, E. cbn. rewrite Hk, Ho.
  split; [| repeat split; assumption].
  intros q Hq. apply lookup_insert_ne. congruence.
Qed.

Lemma confined_change_inode (follow : bool) (path : string)
    (change : inode -> result inode) :
  (forall ino ino', change ino = Ok ino' ->
                    i_kind ino' = i_kind ino /\ i_owned ino' = i_owned ino) ->
  confined_to path (change_inode follow path change).
Proof. intros Hch s Hn. now apply change_inode_at. Qed.

Lemma confined_chmod (path : string) (mode : Z) :
  confined_to path (os_chmod path mode).
Proof.
  apply confined_bind; [apply confined_log_call | intros _].
  apply confined_change_inode. now intros ino ino' [= <-].
Qed.

Lemma confined_applyto (path : string) (a : list acl_entry) (type : acl_type) :
  confined_to path (acl_applyto a path type).
Proof.
  apply confined_bind; [apply confined_log_call | intros _].
  apply confined_change_inode. intros ino ino'.
  destruct type, (i_kind ino) eqn:K; try discriminate;
    intros [= <-]; split; reflexivity || (cbn; now rewrite K).
Qed.

Lemma confined_delete_default (path : string) :
  confined_to path (acl_delete_default path).
Proof.
  apply confined_bind; [apply confined_log_call | intros _].
  apply confined_change_inode. now intros ino ino' [= <-].
Qed.

Ltac confine :=
  repeat first
    [ apply confined_ret
    | apply confined_chmod
    | apply confined_applyto
    | apply confined_delete_default
    | apply confined_umask_get
    | apply confined_lstat
    | apply confined_stat
    | apply confined_islink
    | apply confined_has_extended
    | match goal with
      | |- confined_to _ (when ?c _) => destruct c; unfold when
      | |- confined_to _ (if ?c then _ else _) => destruct c
      | |- confined_to _ (bind _ _) => apply confined_bind; [| intros ?]
      end ].

Lemma confined_restoremode (path : string) (followlinks : bool) (mask : option Z) :
  confined_to path (Restoremod.restoremode path followlinks mask).
Proof. unfold Restoremod.restoremode. cbv zeta. confine. Qed.

Lemma confined_restoreattr (path : string) (followlinks : bool) (mask : option Z) :
  confined_to path (Restoremod.restoreattr path followlinks mask).
Proof. unfold Restoremod.restoreattr. cbv zeta. confine. Qed.

Lemma confined_inheritattr (mode : Z) (path : string) (mask : option Z) :
  confined_to path (Restoremod.inheritattr mode path mask).
Proof. unfold Restoremod.inheritattr. cbv zeta. confine. Qed.

Lemma confined_inheritdacl (acl : list acl_entry) (path : string) :
  confined_to path (Restoremod.inheritdacl acl path).
Proof. unfold Restoremod.inheritdacl. cbv zeta. confine. Qed.

Lemma confined_discardeacl (cfg : config) (path : string) (followlinks : bool) :
  confined_to path (Restoremod.discardeacl cfg path followlinks).
Proof. unfold Restoremod.discardeacl. cbv zeta. confine. Qed.

(** On a symbolic link both modes return at once. *)
Lemma restore_on_link (s : sys) (path target : string) (ino : inode) :
  fs s !! path = Some ino -> i_kind ino = Symlink target ->
  (forall cfg mode, Restoremod.restore_from_ps cfg mode path s = (s, Ok tt))
  /\ (forall acl mode, Restoremod.restore_from_fs acl mode path s = (s, Ok tt)).
Proof.
  intros Hp Hk.
  assert (Hattr : forall mode mask,
            Restoremod.inheritattr mode path mask s = (s, Ok tt)).
  { intros mode mask. unfold Restoremod.inheritattr, bind.
    now rewrite (lstat_mode_spec _ _ _ Hp), S_ISDIR_st_mode, Hk. }
  split.
  - intros cfg mode. unfold Restoremod.restore_from_ps, bind at 1.
    unfold Restoremod.restoremode, bind at 1.
    rewrite (lstat_mode_spec _ _ _ Hp), S_ISLNK_st_mode, Hk. cbn [andb negb ret].
    unfold bind. rewrite Hattr.
    unfold Restoremod.discardeacl, bind, os_path_islink. now rewrite Hp, Hk.
  - intros acl mode. unfold Restoremod.restore_from_fs, bind at 1.
    unfold Restoremod.restoreattr, bind at 1.
    rewrite (lstat_mode_spec _ _ _ Hp), S_ISLNK_st_mode, Hk. cbn [andb negb ret].
    unfold bind. rewrite Hattr.
    unfold Restoremod.inheritdacl, bind.
    now rewrite (lstat_mode_spec _ _ _ Hp), S_ISLNK_st_mode, Hk.
Qed.

Lemma no_link_cases (path : string) (s : sys) :
  no_link path s
  \/ exists ino target, fs s !! path = Some ino /\ i_kind ino = Symlink target.
Proof.
  destruct (fs s !! path) as [ino|] eqn:E.
  - destruct (i_kind ino) eqn:K.
    + left. intros ino' t H K'. congruence.
    + left. intros ino' t H K'. congruence.
    + right. now exists ino, target.
  - left. intros ino t H. congruence.
Qed.

Lemma restore_from_ps_frame (cfg : config) (mode : Z) (path : string) (s : sys) :
  only_at path s (fst (Restoremod.restore_from_ps cfg mode path s)).
Proof.
  destruct (no_link_cases path s) as [Hn | (ino & target & Hp & Hk)].
  - revert s Hn. change (confined_to path (Restoremod.restore_from_ps cfg mode path)).
    unfold Restoremod.restore_from_ps.
    apply confined_bind; [apply confined_restoremode | intros _].
    apply confined_bind; [apply confined_inheritattr | intros _].
    apply confined_discardeacl.
  - rewrite (proj1 (restore_on_link s path target ino Hp Hk)).
    apply only_at_refl.
Qed.

Lemma restore_from_fs_frame (acl : list acl_entry) (mode : Z) (path : string)
    (s : sys) :
  only_at path s (fst (Restoremod.restore_from_fs acl mode path s)).
Proof.
  destruct (no_link_cases path s) as [Hn | (ino & target & Hp & Hk)].
  - revert s Hn.
    change (confined_to path (Restoremod.restore_from_fs acl mode path)).
    unfold Restoremod.restore_from_fs.
    apply confined_bind; [apply confined_restoreattr | intros _].
    apply confined_bind; [apply confined_inheritattr | intros _].
    apply confined_inheritdacl.
  - rewrite (proj2 (restore_on_link s path target ino Hp Hk)).
    apply only_at_refl.
Qed.

Lemma matchpathcon_pure (cfg : config) (path : string) (mode : Z) (s : sys) :
  fst (Restorecon.matchpathcon cfg path mode s) = s.
Proof.
  unfold Restorecon.matchpathcon, try_except, bind, selinux_matchpathcon.
  destruct (policy cfg path mode) as [context|]; [reflexivity |].
  cbn [raise is_FileNotFoundError fst snd]. unfold os_path_exists.
  now destruct (resolve (fs s) MAXSYMLINKS path) as [[found ino]|e].
Qed.

Lemma lsetfilecon_at (path context : string) (s : sys) :
  only_at path s (fst (selinux_lsetfilecon path context s)).
Proof.
  unfold selinux_lsetfilecon, bind, log_call.
  apply only_at_trans
    with {| fs := fs s; mounted_ro := mounted_ro s; umask := umask s;
            calls := calls s ++ [SetFileCon path context] |};
    [now apply same_files |].
  apply change_inode_at; [discriminate | now intros ino ino' [= <-]].
Qed.

Lemma restorecon_single_frame (cfg : config) (path : string) (s : sys) :
  only_at (relabelled cfg s path) s
    (fst (Restorecon.restorecon_single cfg path s)).
Proof.
  assert (Hrest : forall q mode,
            only_at q s
              (fst ((context_default <- Restorecon.matchpathcon cfg q mode ;;
                     context_old <- selinux_lgetfilecon q ;;
                     if py_ne context_old (PyStr context_default)
                     then Restorecon.lsetfilecon q context_default
                     else ret tt) s))).
  { intros q mode. unfold bind at 1.
    pose proof (matchpathcon_pure cfg q mode s) as Hpure.
    destruct (Restorecon.matchpathcon cfg q mode s) as [s1 [context|e]];
      cbn [fst] in Hpure; subst s1; [| apply only_at_refl].
    unfold bind, selinux_lgetfilecon.
    destruct (fs s !! q) as [ino|]; [| apply only_at_refl].
    destruct (i_context ino) as [c|]; [| apply only_at_refl].
    destruct (py_ne _ _); [apply lsetfilecon_at | apply only_at_refl]. }
  unfold Restorecon.restorecon_single, relabelled, bind at 1, try_except, bind at 1.
  unfold os_lstat_mode at 1.
  destruct (fs s !! path) as [ino|] eqn:E.
  - cbn [ret fst snd]. apply Hrest.
  - cbn [fst snd is_FileNotFoundError]. unfold bind at 1, os_lstat_mode.
    destruct (fs s !! realpath cfg (expanduser cfg path)) as [ino|];
      [| apply only_at_refl].
    cbn [ret fst snd]. apply Hrest.
Qed.

(** X13. Whatever its result, a per-path operation changes no file but the
    one it is called for: [restore_from_ps] and [restore_from_fs] leave every
    other path as it was, [restorecon_single] every path but the one it
    relabels (the path, or its canonical form when the path does not exist);
    that file keeps its kind and owner, and the read-only state and the umask
    are as before. *)
Theorem per_path_operation_changes_one_file
    (cfg : config) (path : string) (s : sys) :
  (forall mode,
     only_at path s (fst (Restoremod.restore_from_ps cfg mode path s)))
  /\ (forall acl mode,
        only_at path s (fst (Restoremod.restore_from_fs acl mode path s)))
  /\ only_at (relabelled cfg s path) s
       (fst (Restorecon.restorecon_single cfg path s)).
Proof.
  split; [| split].
  - intros mode. apply restore_from_ps_frame.
  - intros acl mode. apply restore_from_fs_frame.
  - apply restorecon_single_frame.
Qed.

Section Untouched.

(** A loop body that leaves the path [q] alone when it runs on a path
    with [apart]. *)
Variable body : string -> M proc unit.
Variable q : string.
Variable apart : string -> Prop.

Hypothesis body_apart : forall path p,
  apart path -> fs (world (fst (body path p))) !! q = fs (world p) !! q.

Lemma loop_leaves_alone (events : list event) (p : proc) :
  Forall apart (yielded events) ->
  fs (world (fst (for_path_in events body p))) !! q = fs (world p) !! q.
Proof.
  revert p. induction events as [|[path|text] rest IH]; intros p Hall.
  - reflexivity.
  - apply List.Forall_cons_iff in Hall as [Hpath Hrest].
    cbn [for_path_in]. unfold bind.
    pose proof (body_apart path p Hpath) as Hb.
    destruct (body path p) as [p' [[]|e]]; cbn [fst] in *; [| exact Hb].
    rewrite (IH p' Hrest). exact Hb.
  - cbn [for_path_in]. unfold bind, descendants_handler.
    rewrite nzbget_log_spec. now rewrite (IH _ Hall).
Qed.

End Untouched.

Lemma attempt_mod_world (restore : string -> M sys unit) (path : string)
    (p : proc) :
  world (fst (Restoremod.attempt restore path p)) = fst (restore path (world p)).
Proof.
  rewrite attempt_mod. destruct (restore path (world p)) as [w [[]|e]];
    [reflexivity |].
  now destruct (is_FileNotFoundError e), (is_PermissionError e), (is_Exception e).
Qed.

Lemma attempt_con_world (cfg : config) (path : string) (p : proc) :
  world (fst (Restorecon.attempt cfg path p))
  = fst (Restorecon.restorecon_single cfg path (world p)).
Proof.
  rewrite attempt_con.
  destruct (Restorecon.restorecon_single cfg path (world p)) as [w [[]|e]];
    [reflexivity |].
  now destruct (is_FileNotFoundError e), (is_LabelNotFoundError e),
    (is_PermissionError e), (is_Exception e).
Qed.

Lemma not_in_apart {A} (q : A) (l : list A) :
  ~ In q l -> Forall (fun x => q <> x) l.
Proof.
  intros H. apply List.Forall_forall. intros x Hx ->. now apply H.
Qed.

(** X14. The loop of either script changes walked paths only: a path that
    the walk does not yield names the same file, with the same metadata,
    after the loop as before, however the loop ends. For the SELinux script
    the path must not be the canonical form of a walked path either. *)
Theorem loop_changes_walked_paths_only
    (cfg : config) (events : list event) (p : proc) (q : string) :
  ~ In q (yielded events) ->
  (forall mode,
     fs (world (fst (for_path_in events
                       (Restoremod.attempt (Restoremod.restore_from_ps cfg mode))
                       p))) !! q
     = fs (world p) !! q)
  /\ (forall acl mode,
        fs (world (fst (for_path_in events
                          (Restoremod.attempt
                             (Restoremod.restore_from_fs acl mode)) p))) !! q
        = fs (world p) !! q)
  /\ (~ In q (map (fun path => realpath cfg (expanduser cfg path))
                  (yielded events)) ->
      fs (world (fst (for_path_in events (Restorecon.attempt cfg) p))) !! q
      = fs (world p) !! q).
Proof.
  intros Hq. split; [| split].
  - intros mode.
    apply (loop_leaves_alone _ q (fun path => q <> path));
      [| now apply not_in_apart].
    intros path p' Hne. rewrite attempt_mod_world.
    now apply (restore_from_ps_frame cfg mode path (world p')).
  - intros acl mode.
    apply (loop_leaves_alone _ q (fun path => q <> path));
      [| now apply not_in_apart].
    intros path p' Hne. rewrite attempt_mod_world.
    now apply (restore_from_fs_frame acl mode path (world p')).
  - intros Hreal.
    apply (loop_leaves_alone _ q
             (fun path => q <> path
                          /\ q <> realpath cfg (expanduser cfg path))).
    + intros path p' [Hne Hne']. rewrite attempt_con_world.
      apply (restorecon_single_frame cfg path (world p')).
      unfold relabelled. now destruct (fs (world p') !! path).
    + apply List.Forall_forall. intros path Hpath. split.
      * intros ->. now apply Hq.
      * intros ->. apply Hreal.
        now apply (in_map (fun path => realpath cfg (expanduser cfg path))).
Qed.

(** The statement at the directory /dl/job, when only the file
    /dl/job/a.mkv is walked. *)
Lemma loop_changes_walked_paths_sample :
  fs (world (fst (for_path_in [Yield "/dl/job/a.mkv"]
                    (Restoremod.attempt
                       (Restoremod.restore_from_ps
                          (Sample.setup Sample.env_ok true) Sample.job_mode))
                    (start Sample.system_077)))) !! "/dl/job"
  = fs (world (start Sample.system_077)) !! "/dl/job".
Proof.
  refine (proj1 (loop_changes_walked_paths_only (Sample.setup Sample.env_ok true)
                   [Yield "/dl/job/a.mkv"] (start Sample.system_077)
                   "/dl/job" _) Sample.job_mode).
  intros [H | []]. discriminate.
Defined.

(** ** How a run ends *)

Lemma resolve_raises (f : gmap string inode) (fuel : nat) (path : string)
    (e : exn) :
  resolve f fuel path = Raise e -> is_Exception e = true.
Proof.
  revert path. induction fuel as [|n IH]; intros path; cbn [resolve];
    (destruct (f !! path) as [ino|]; [| now intros [= <-]]);
    destruct (i_kind ino); try discriminate; try (now intros [= <-]).
  apply IH.
Qed.

Lemma no_exit_ret {A} (a : A) : raises_no_exit (ret a).
Proof. intros s e. discriminate. Qed.

Lemma no_exit_raise {A} (e : exn) :
  is_Exception e = true -> raises_no_exit (@raise sys A e).
Proof. now intros He s e' [= <-]. Qed.

Lemma no_exit_bind {A B} (m : M sys A) (k : A -> M sys B) :
  raises_no_exit m -> (forall a, raises_no_exit (k a)) ->
  raises_no_exit (bind m k).
Proof.
  intros Hm Hk s e. unfold bind. specialize (Hm s).
  destruct (m s) as [s' [a|e']]; cbn [snd] in *; [apply Hk |].
  intros [= <-]. now apply Hm.
Qed.

Lemma no_exit_try {A} (body : M sys A) (handler : exn -> option (M sys A)) :
  raises_no_exit body ->
  (forall e h, handler e = Some h -> raises_no_exit h) ->
  raises_no_exit (try_except body handler).
Proof.
  intros Hb Hh s e. unfold try_except. specialize (Hb s).
  destruct (body s) as [s' [a|e']]; cbn [snd] in *; [discriminate |].
  destruct (handler e') as [h|] eqn:E; [now apply (Hh e' h) |].
  intros [= <-]. now apply Hb.
Qed.

Lemma no_exit_lstat (q : string) : raises_no_exit (os_lstat_mode q).
Proof.
  intros s e. unfold os_lstat_mode.
  destruct (fs s !! q); [discriminate | now intros [= <-]].
Qed.

Lemma no_exit_stat (q : string) : raises_no_exit (os_stat_mode q).
Proof.
  intros s e. unfold os_stat_mode.
  destruct (resolve (fs s) MAXSYMLINKS q) as [[found ino]|e'] eqn:E;
    [discriminate |].
  intros [= <-]. now apply (resolve_raises _ _ _ _ E).
Qed.

Lemma no_exit_islink (q : string) : raises_no_exit (os_path_islink q).
Proof.
  intros s e. unfold os_path_islink. now destruct (fs s !! q).
Qed.

Lemma no_exit_isdir (q : string) : raises_no_exit (os_path_isdir q).
Proof.
  intros s e. unfold os_path_isdir.
  now destruct (resolve (fs s) MAXSYMLINKS q) as [[found ino]|e'].
Qed.

Lemma no_exit_exists (q : string) : raises_no_exit (os_path_exists q).
Proof.
  intros s e. unfold os_path_exists.
  now destruct (resolve (fs s) MAXSYMLINKS q) as [[found ino]|e'].
Qed.

Lemma no_exit_has_extended (q : string) : raises_no_exit (acl_has_extended q).
Proof.
  intros s e. unfold acl_has_extended.
  destruct (resolve (fs s) MAXSYMLINKS q) as [[found ino]|e'] eqn:E;
    [discriminate |].
  intros [= <-]. now apply (resolve_raises _ _ _ _ E).
Qed.

Lemma no_exit_get_default (q : string) : raises_no_exit (acl_get_default q).
Proof.
  intros s e. unfold acl_get_default.
  destruct (resolve (fs s) MAXSYMLINKS q) as [[found ino]|e'] eqn:E.
  - destruct (i_kind ino); try discriminate; now intros [= <-].
  - intros [= <-]. now apply (resolve_raises _ _ _ _ E).
Qed.

Lemma no_exit_lgetfilecon (q : string) : raises_no_exit (selinux_lgetfilecon q).
Proof.
  intros s e. unfold selinux_lgetfilecon.
  destruct (fs s !! q) as [ino|]; [| now intros [= <-]].
  destruct (i_context ino); [discriminate | now intros [= <-]].
Qed.

Lemma no_exit_umask_get : raises_no_exit Restoremod.umask_get.
Proof. intros s e. discriminate. Qed.

Lemma no_exit_change_inode (follow : bool) (q : string)
    (change : inode -> result inode) :
  (forall ino e, change ino = Raise e -> is_Exception e = true) ->
  raises_no_exit (change_inode follow q change).
Proof.
  intros Hch s e. unfold change_inode.
  destruct (if follow then resolve (fs s) MAXSYMLINKS q
            else match fs s !! q with
                 | Some ino => Ok (q, ino)
                 | None => Raise FileNotFoundError
                 end) as [[found ino]|e'] eqn:E.
  - destruct (mounted_ro s); [now intros [= <-] |].
    destruct (negb (i_owned ino)); [now intros [= <-] |].
    destruct (change ino) as [ino'|e'] eqn:C; [discriminate |].
    intros [= <-]. now apply (Hch ino).
  - intros [= <-]. destruct follow; [now apply (resolve_raises _ _ _ _ E) |].
    destruct (fs s !! q); [discriminate | now injection E as <-].
Qed.

Lemma no_exit_logged (c : call) (q : string) (follow : bool)
    (change : inode -> result inode) :
  (forall ino e, change ino = Raise e -> is_Exception e = true) ->
  raises_no_exit (log_call c ;;; change_inode follow q change).
Proof.
  intros Hch. apply no_exit_bind; [intros s e; discriminate | intros _].
  now apply no_exit_change_inode.
Qed.

Lemma no_exit_chmod (q : string) (mode : Z) : raises_no_exit (os_chmod q mode).
Proof. apply no_exit_logged. discriminate. Qed.

Lemma no_exit_applyto (a : list acl_entry) (q : string) (type : acl_type) :
  raises_no_exit (acl_applyto a q type).
Proof.
  apply no_exit_logged. intros ino e.
  destruct type, (i_kind ino); try discriminate; now intros [= <-].
Qed.

Lemma no_exit_delete_default (q : string) :
  raises_no_exit (acl_delete_default q).
Proof. apply no_exit_logged. discriminate. Qed.

Lemma no_exit_lsetfilecon (q context : string) :
  raises_no_exit (selinux_lsetfilecon q context).
Proof. apply no_exit_logged. discriminate. Qed.

Ltac no_exit :=
  repeat first
    [ apply no_exit_ret
    | apply no_exit_chmod
    | apply no_exit_applyto
    | apply no_exit_delete_default
    | apply no_exit_umask_get
    | apply no_exit_lstat
    | apply no_exit_stat
    | apply no_exit_islink
    | apply no_exit_has_extended
    | apply no_exit_lgetfilecon
    | apply no_exit_lsetfilecon
    | match goal with
      | |- raises_no_exit (when ?c _) => destruct c; unfold when
      | |- raises_no_exit (if ?c then _ else _) => destruct c
      | |- raises_no_exit (bind _ _) => apply no_exit_bind; [| intros ?]
      end ].

Lemma no_exit_restore_from_ps (cfg : config) (mode : Z) (path : string) :
  raises_no_exit (Restoremod.restore_from_ps cfg mode path).
Proof.
  unfold Restoremod.restore_from_ps, Restoremod.restoremode,
    Restoremod.inheritattr, Restoremod.discardeacl.
  cbv zeta. no_exit.
Qed.

Lemma no_exit_restore_from_fs (acl : list acl_entry) (mode : Z) (path : string) :
  raises_no_exit (Restoremod.restore_from_fs acl mode path).
Proof.
  unfold Restoremod.restore_from_fs, Restoremod.restoreattr,
    Restoremod.inheritattr, Restoremod.inheritdacl.
  cbv zeta. no_exit.
Qed.

Lemma no_exit_matchpathcon (cfg : config) (q : string) (mode : Z) :
  raises_no_exit (Restorecon.matchpathcon cfg q mode).
Proof.
  unfold Restorecon.matchpathcon. apply no_exit_try.
  - apply no_exit_bind.
    + unfold selinux_matchpathcon.
      destruct (policy cfg q mode); [apply no_exit_ret | now apply no_exit_raise].
    + intros r. destruct r as [| | |[|status [|[| |context|] [|]]]];
        (apply no_exit_ret || now apply no_exit_raise).
  - intros e h. destruct (is_FileNotFoundError e); [| discriminate].
    intros [= <-]. apply no_exit_bind; [apply no_exit_exists |].
    intros []; now apply no_exit_raise.
Qed.

Lemma no_exit_restorecon_single (cfg : config) (path : string) :
  raises_no_exit (Restorecon.restorecon_single cfg path).
Proof.
  unfold Restorecon.restorecon_single, Restorecon.lsetfilecon.
  apply no_exit_bind.
  - apply no_exit_try; [no_exit |].
    intros e h. destruct (is_FileNotFoundError e); [| discriminate].
    intros [= <-]. cbv zeta. no_exit.
  - intros pm. cbv zeta.
    apply no_exit_bind; [apply no_exit_matchpathcon | intros context].
    no_exit.
Qed.

Lemma final_ret {A} (a : A) : ends_with_final_status (@ret proc A a).
Proof. intros p e. discriminate. Qed.

Lemma final_bind {A B} (m : M proc A) (k : A -> M proc B) (post : A -> Prop) :
  ends_with_final_status m ->
  (forall p a, snd (m p) = Ok a -> post a) ->
  (forall a, post a -> ends_with_final_status (k a)) ->
  ends_with_final_status (bind m k).
Proof.
  intros Hm Hpost Hk p e. unfold bind. specialize (Hm p). specialize (Hpost p).
  destruct (m p) as [p' [a|e']]; cbn [snd] in *.
  - apply Hk. now apply Hpost.
  - intros [= <-]. now apply Hm.
Qed.

Lemma final_seq {A B} (m : M proc A) (k : A -> M proc B) :
  ends_with_final_status m -> (forall a, ends_with_final_status (k a)) ->
  ends_with_final_status (bind m k).
Proof.
  intros Hm Hk. apply (final_bind m k (fun _ => True)); auto.
Qed.

Lemma final_lift {A} (m : M sys A) :
  raises_no_exit m -> ends_with_final_status (lift m).
Proof.
  intros Hm p e. unfold lift. specialize (Hm (world p)).
  destruct (m (world p)) as [w [a|e']]; cbn [snd] in *; [discriminate |].
  intros [= <-]. specialize (Hm e' eq_refl). left.
  now destruct e'.
Qed.

Lemma final_log level (message : pyval) (pre : string) :
  ends_with_final_status (nzbget_log level message pre).
Proof.
  intros p e. destruct message; try (intros [= <-]; now left).
  rewrite nzbget_log_spec. discriminate.
Qed.

Lemma final_exit {A} (code : NZBGetPostProcessExitCode) :
  code <> parcheck -> ends_with_final_status (@nzbget_exit A code).
Proof.
  intros Hc p e [= <-]. unfold final_status.
  destruct code; cbn; auto. now destruct Hc.
Qed.

Lemma final_variable (cfg : config) (key : string) (version : option string) :
  ends_with_final_status (nzbget_variable cfg key version).
Proof.
  intros p e. unfold nzbget_variable, try_except, os_environ.
  destruct (environ cfg !! key); [discriminate |].
  cbn [raise snd fst is_KeyError]. cbv zeta.
  apply final_seq; [apply final_log | intros _].
  now apply final_exit.
Qed.

Lemma final_attempt_mod (restore : string -> M sys unit) (path : string) :
  raises_no_exit (restore path) ->
  ends_with_final_status (Restoremod.attempt restore path).
Proof.
  intros Hr p e. rewrite attempt_mod. specialize (Hr (world p)).
  destruct (restore path (world p)) as [w [[]|e']]; cbn [snd] in *;
    [discriminate |].
  specialize (Hr e' eq_refl). rewrite Hr. unfold final_status.
  destruct (is_FileNotFoundError e'); [intros [= <-]; cbn; auto |].
  destruct (is_PermissionError e'); [discriminate |].
  intros [= <-]; cbn; auto.
Qed.

Lemma final_attempt_con (cfg : config) (path : string) :
  ends_with_final_status (Restorecon.attempt cfg path).
Proof.
  intros p e. rewrite attempt_con.
  pose proof (no_exit_restorecon_single cfg path (world p)) as Hr.
  destruct (Restorecon.restorecon_single cfg path (world p)) as [w [[]|e']];
    cbn [snd] in *; [discriminate |].
  specialize (Hr e' eq_refl). rewrite Hr. unfold final_status.
  destruct (is_FileNotFoundError e'); [intros [= <-]; cbn; auto |].
  destruct (is_LabelNotFoundError e'); [discriminate |].
  destruct (is_PermissionError e'); [discriminate |].
  intros [= <-]; cbn; auto.
Qed.

Lemma final_loop (body : string -> M proc unit) (events : list event) :
  (forall path, ends_with_final_status (body path)) ->
  ends_with_final_status (for_path_in events body).
Proof.
  intros Hb. induction events as [|[path|text] rest IH]; cbn [for_path_in].
  - apply final_ret.
  - apply final_seq; [apply Hb | intros _; exact IH].
  - apply final_seq; [apply final_log | intros _; exact IH].
Qed.

Lemma final_skip (c : bool) (message : string) :
  ends_with_final_status
    (when c (nzbget_log info (PyStr message) EmptyString ;;; nzbget_exit none)).
Proof.
  destruct c; [| apply final_ret].
  apply final_seq; [apply final_log | intros _]. now apply final_exit.
Qed.

Lemma final_walk_mod (cfg : config) (directory : string)
    (restore : string -> M sys unit) :
  (forall path, raises_no_exit (restore path)) ->
  ends_with_final_status (Restoremod.walk cfg directory restore).
Proof.
  intros Hr. apply final_seq; [| intros _; now apply final_exit].
  apply final_loop. intros path. now apply final_attempt_mod.
Qed.

Lemma choose_no_exit (cfg : config) (directory : string) (p : proc)
    (restore : string -> M sys unit) :
  snd (Restoremod.choose cfg directory p) = Ok restore ->
  forall path, raises_no_exit (restore path).
Proof.
  unfold Restoremod.choose, bind at 1, lift.
  destruct (acl_get_default directory (world p)) as [w1 [dacl|e1]];
    [| discriminate].
  unfold bind at 1, lift. cbn [world].
  destruct (os_stat_mode directory w1) as [w2 [mode|e2]]; [| discriminate].
  destruct (truthy _).
  - unfold bind at 1. destruct (when _ _ _) as [p1 [[]|e3]]; [| discriminate].
    unfold bind. rewrite nzbget_log_spec. intros [= <-] path.
    apply no_exit_restore_from_fs.
  - unfold bind. rewrite nzbget_log_spec. intros [= <-] path.
    apply no_exit_restore_from_ps.
Qed.

Lemma final_choose (cfg : config) (directory : string) :
  ends_with_final_status (Restoremod.choose cfg directory).
Proof.
  unfold Restoremod.choose.
  apply final_seq; [apply final_lift, no_exit_get_default | intros dacl].
  apply final_seq; [apply final_lift, no_exit_stat | intros mode].
  destruct (truthy _); cbv zeta.
  - apply final_seq.
    + destruct (negb (HAS_ACL_ENTRY cfg)); [| apply final_ret].
      apply final_seq; [apply final_log | intros _]. now apply final_exit.
    + intros _. apply final_seq; [apply final_log | intros _; apply final_ret].
  - apply final_seq; [apply final_log | intros _; apply final_ret].
Qed.

Lemma final_script_mod (cfg : config) :
  ends_with_final_status (Restoremod.script cfg).
Proof.
  unfold Restoremod.script.
  apply final_seq; [apply final_variable | intros status].
  apply final_seq; [apply final_skip | intros _].
  apply final_seq; [apply final_variable | intros directory].
  apply final_seq; [apply final_lift, no_exit_isdir | intros isdir].
  apply final_seq; [apply final_skip | intros _]. cbv zeta.
  apply (final_bind _ _ (fun restore => forall path, raises_no_exit (restore path))).
  - apply final_choose.
  - intros p restore. apply choose_no_exit.
  - intros restore Hr. now apply final_walk_mod.
Qed.

Lemma final_script_con (cfg : config) :
  ends_with_final_status (Restorecon.script cfg).
Proof.
  unfold Restorecon.script.
  apply final_seq; [apply final_variable | intros status].
  apply final_seq; [apply final_skip | intros _].
  apply final_seq; [apply final_variable | intros directory].
  apply final_seq; [apply final_lift, no_exit_exists | intros exists_].
  apply final_seq; [apply final_skip | intros _].
  apply final_seq; [| intros _; now apply final_exit].
  apply final_loop. intros path. apply final_attempt_con.
Qed.

(** Code that ends in a call of [nzbget_exit] does not return. *)
Lemma bind_no_return {A B} (m : M proc A) (k : A -> M proc B) (p : proc) (b : B) :
  (forall a p', snd (k a p') <> Ok b) -> snd (bind m k p) <> Ok b.
Proof.
  intros Hk. unfold bind. destruct (m p) as [p' [a|e]]; [apply Hk | discriminate].
Qed.

Lemma script_mod_no_return (cfg : config) (p : proc) :
  snd (Restoremod.script cfg p) <> Ok tt.
Proof.
  unfold Restoremod.script.
  do 6 (apply bind_no_return; intros ? ?). unfold Restoremod.walk.
  apply bind_no_return. discriminate.
Qed.

Lemma script_con_no_return (cfg : config) (p : proc) :
  snd (Restorecon.script cfg p) <> Ok tt.
Proof.
  unfold Restorecon.script.
  do 5 (apply bind_no_return; intros ? ?). unfold Restorecon.walk.
  apply bind_no_return. discriminate.
Qed.

(** X15. Whatever the environment, the directory tree and the state of the
    system, a run of either script ends with one of four exit statuses: 93,
    94 or 95 through [nzbget_exit], or 1 when an exception reaches the top
    level. No run ends with 0 (the scripts do not run off their end) or with
    92, the code of [parcheck]. *)
Theorem scripts_end_with_final_status (cfg : config) (p : proc) :
  final_status (status_of (snd (Restoremod.script cfg p)))
  /\ final_status (status_of (snd (Restorecon.script cfg p))).
Proof.
  split.
  - pose proof (script_mod_no_return cfg p) as Hno.
    pose proof (final_script_mod cfg p) as Hfin.
    destruct (snd (Restoremod.script cfg p)) as [[]|e]; [now destruct Hno |].
    now apply Hfin.
  - pose proof (script_con_no_return cfg p) as Hno.
    pose proof (final_script_con cfg p) as Hfin.
    destruct (snd (Restorecon.script cfg p)) as [[]|e]; [now destruct Hno |].
    now apply Hfin.
Qed.

(** ** The mode of the process umask, as a whole *)

Lemma inheritattr_not_directory (s : sys) (path : string) (ino : inode)
    (mode : Z) (mask : option Z) :
  fs s !! path = Some ino -> i_kind ino <> Directory ->
  Restoremod.inheritattr mode path mask s = (s, Ok tt).
Proof.
  intros Hp Hk. unfold Restoremod.inheritattr, bind.
  rewrite (lstat_mode_spec _ _ _ Hp), S_ISDIR_st_mode.
  destruct (i_kind ino); try reflexivity. now destruct Hk.
Qed.

(** The permission bits of a directory after [restoremode] and then
    [inheritattr]: the setgid bit [restoremode] kept is replaced. *)
Lemma directory_bits (u st mode : Z) :
  0 <= u <= o0777 ->
  let kept := Z.land (Z.lor (o0777 - u) (Z.land st S_ISGID)) o7777 in
  Z.lor (Z.land kept (octal "5777")) (Z.land mode S_ISGID)
  = Z.lor (o0777 - u) (Z.land mode S_ISGID).
Proof.
  intros Hu kept. subst kept. apply Z.eqb_eq.
  destruct (land_S_ISGID_cases st) as [-> | ->].
  - apply (for_every_umask_and_setgid (fun u b =>
       Z.eqb (Z.lor (Z.land (Z.land (Z.lor (o0777 - u) 0) o7777) (octal "5777")) b)
             (Z.lor (o0777 - u) b)));
      [vm_compute; reflexivity | exact Hu].
  - apply (for_every_umask_and_setgid (fun u b =>
       Z.eqb (Z.lor (Z.land (Z.land (Z.lor (o0777 - u) S_ISGID) o7777)
                       (octal "5777")) b)
             (Z.lor (o0777 - u) b)));
      [vm_compute; reflexivity | exact Hu].
Qed.

(** [discardeacl] on a file the process may change: what is left of the
    file. *)
Lemma discardeacl_post (cfg : config) (s : sys) (path : string) (ino : inode) :
  changeable s path ino ->
  exists ino',
    snd (Restoremod.discardeacl cfg path false s) = Ok tt
    /\ fs (fst (Restoremod.discardeacl cfg path false s)) !! path = Some ino'
    /\ umask (fst (Restoremod.discardeacl cfg path false s)) = umask s
    /\ i_kind ino' = i_kind ino /\ i_perm ino' = i_perm ino
    /\ i_context ino' = i_context ino
    /\ existsb (fun e => negb (base_tag (tag_type e))) (i_acl ino') = false
    /\ i_dacl ino' = [].
Proof.
  intros Hch. pose proof Hch as (Hp & Hk & Hro & Hown).
  unfold Restoremod.discardeacl, bind, os_path_islink. rewrite Hp.
  replace (match i_kind ino with Symlink _ => true | _ => false end) with false
    by (destruct (i_kind ino) eqn:E; try reflexivity; now destruct (Hk target)).
  cbn [andb].
  assert (Hgone :
    (acl_applyto [] path ACL_TYPE_ACCESS ;;; acl_delete_default path) s
    = (changed (changed s path (with_acl ino []) (AclSet path ACL_TYPE_ACCESS []))
         path (with_dacl (with_acl ino []) []) (AclDeleteDefault path), Ok tt)).
  { unfold bind. rewrite (acl_applyto_access _ _ _ _ Hch).
    now rewrite (acl_delete_default_spec _ path (with_acl ino []))
      by (apply (changeable_after _ _ _ _ _ Hch); assumption). }
  unfold bind in Hgone.
  assert (Hdone : exists ino',
            fs (changed (changed s path (with_acl ino [])
                           (AclSet path ACL_TYPE_ACCESS []))
                  path (with_dacl (with_acl ino []) []) (AclDeleteDefault path))
              !! path = Some ino'
            /\ umask s = umask s
            /\ i_kind ino' = i_kind ino /\ i_perm ino' = i_perm ino
            /\ i_context ino' = i_context ino
            /\ existsb (fun e => negb (base_tag (tag_type e))) (i_acl ino') = false
            /\ i_dacl ino' = []).
  { eexists. split; [apply lookup_insert_eq |]. repeat split. }
  destruct (HAS_EXTENDED_CHECK cfg).
  - rewrite (acl_has_extended_self s path ino Hp Hk). cbn [ret].
    destruct (existsb _ (i_acl ino) || _)%bool eqn:Hext; cbn [negb].
    + rewrite Hgone. cbn [fst snd]. destruct Hdone as (ino' & H).
      exists ino'. split; [reflexivity | exact H].
    + unfold ret. cbn [fst snd]. apply orb_false_elim in Hext as [Hacl Hdacl].
      exists ino. repeat split; try assumption.
      now destruct (i_dacl ino).
  - cbn [ret]. rewrite Hgone. cbn [fst snd]. destruct Hdone as (ino' & H).
    exists ino'. split; [reflexivity | exact H].
Qed.

(** X16. In the mode of the process umask the three steps of
    [restore_from_ps] compose as follows on a path the process may change
    (no link): the operation succeeds, and the permission bits it leaves do
    not depend on the bits the path had. A directory gets 0o777 without the
    umask bits, with the setgid bit of the destination directory's mode (the
    setgid bit that [restoremode] keeps is replaced by [inheritattr]);
    any other file gets the number 0o666 - umask. The path is left without
    extended and without default ACL, with its kind and SELinux context, and
    the umask as it was. *)
Theorem restore_from_ps_result
    (cfg : config) (mode : Z) (s : sys) (path : string) (ino : inode) :
  changeable s path ino -> 0 <= umask s <= o0777 ->
  let s' := fst (Restoremod.restore_from_ps cfg mode path s) in
  snd (Restoremod.restore_from_ps cfg mode path s) = Ok tt
  /\ umask s' = umask s
  /\ exists ino',
       fs s' !! path = Some ino'
       /\ i_kind ino' = i_kind ino
       /\ i_context ino' = i_context ino
       /\ i_perm ino'
          = match i_kind ino with
            | Directory => Z.lor (o0777 - umask s) (Z.land mode S_ISGID)
            | _ => Z.land (o0666 - umask s) o7777
            end
       /\ existsb (fun e => negb (base_tag (tag_type e))) (i_acl ino') = false
       /\ i_dacl ino' = [].
Proof.
  intros Hch Hu s'. subst s'. pose proof Hch as (Hp & Hk & Hro & Hown).
  pose proof (restoremode_chmod s path ino Hp Hk Hu) as Hfirst.
  rewrite (os_chmod_spec _ _ _ _ Hch) in Hfirst. revert Hfirst.
  set (chmod_mode := if S_ISDIR (st_mode ino)
                     then Z.lor (o0777 - umask s) (Z.land (st_mode ino) S_ISGID)
                     else o0666 - umask s).
  set (ino1 := with_perm ino (Z.land chmod_mode o7777)).
  set (s1 := changed s path ino1 (Chmod path chmod_mode)).
  intros Hfirst.
  assert (Hch1 : changeable s1 path ino1) by now apply changeable_changed.
  assert (Hstep : exists ino2 s2,
            Restoremod.inheritattr mode path None s1 = (s2, Ok tt)
            /\ changeable s2 path ino2 /\ umask s2 = umask s
            /\ i_kind ino2 = i_kind ino /\ i_context ino2 = i_context ino
            /\ i_perm ino2
               = match i_kind ino with
                 | Directory => Z.lor (o0777 - umask s) (Z.land mode S_ISGID)
                 | _ => Z.land (o0666 - umask s) o7777
                 end).
  { destruct (i_kind ino) eqn:K.
    - exists ino1, s1. rewrite (inheritattr_not_directory s1 path ino1);
        [| apply Hch1 | cbn; rewrite K; discriminate].
      repeat split; try apply Hch1; try assumption.
      subst ino1 chmod_mode. cbn [i_perm with_perm].
      now rewrite S_ISDIR_st_mode, K.
    - assert (Hwanted :
          Z.lor (Z.land (i_perm ino1) (octal "5777")) (Z.land mode S_ISGID)
          = Z.lor (o0777 - umask s) (Z.land mode S_ISGID)).
      { subst ino1 chmod_mode. cbn [i_perm with_perm].
        rewrite S_ISDIR_st_mode, K. now apply directory_bits. }
      rewrite (inheritattr_spec s1 path ino1 mode Hch1 K). cbv zeta.
      rewrite Hwanted.
      destruct (Z.eqb _ (Z.land (i_perm ino1) o7777)) eqn:Heq.
      + exists ino1, s1. repeat split; try apply Hch1; try assumption.
        apply Z.eqb_eq in Heq. rewrite Heq.
        subst ino1. cbn [i_perm with_perm].
        now rewrite <- Z.land_assoc, Z.land_diag.
      + eexists. eexists. split; [reflexivity |].
        split; [now apply changeable_changed |].
        repeat split; assumption.
    - now destruct (Hk target). }
  destruct Hstep as (ino2 & s2 & Hrun & Hch2 & Hu2 & Hk2 & Hc2 & Hperm2).
  assert (Hwhole : Restoremod.restore_from_ps cfg mode path s
                   = Restoremod.discardeacl cfg path false s2).
  { unfold Restoremod.restore_from_ps, bind. now rewrite Hfirst, Hrun. }
  rewrite Hwhole.
  destruct (discardeacl_post cfg s2 path ino2 Hch2)
    as (ino3 & Hok & Hp3 & Hu3 & Hk3 & Hperm3 & Hc3 & Hacl & Hdacl).
  split; [exact Hok |]. split; [congruence |].
  exists ino3. split; [exact Hp3 |]. split; [congruence |].
  split; [congruence |]. split; [| split; assumption].
  rewrite Hperm3. exact Hperm2.
Qed.

(** The statement at the job directory of the sample system, with the umask
    0o022 and a destination directory with the setgid bit. *)
Lemma restore_from_ps_sample :
  i_perm <$> fs (fst (Restoremod.restore_from_ps
                         (Sample.setup Sample.env_ok true) (octal "042755")
                         "/dl/job" Sample.system_022)) !! "/dl/job"
  = Some (octal "2755").
Proof.
  assert (Hch : changeable Sample.system_022 "/dl/job"
                  (Sample.directory (octal "2755") []))
    by (repeat split; discriminate || reflexivity).
  assert (Hu : 0 <= umask Sample.system_022 <= o0777) by (vm_compute; split; discriminate).
  destruct (restore_from_ps_result (Sample.setup Sample.env_ok true)
              (octal "042755") _ _ _ Hch Hu)
    as (_ & _ & ino' & Hp & _ & _ & Hperm & _).
  rewrite Hp. cbn. now rewrite Hperm.
Defined.
